(** * immichsync: album reconciliation of the Immich album syncing script

    A shallow embedding of [immichsync.py]: the pathlib operations the
    script relies on, the asset classifier (folder mode and library mode),
    the persisted mapping store and the album reconciler, followed by the
    properties of the reconciliation logic.

    Conventions of the embedding:
    - Python [dict]s that are only looked up and updated by key
      ([json_output], the persisted tables) are [gmap]s; the classifier's
      dicts, whose iteration order drives the reconcile loop, are
      association lists kept in insertion order;
    - Python [set]s of asset ids are [gset string];
    - a Python [str] is the string of the bytes of its UTF-8 encoding; of
      the operations the script uses only indexing ([message[0]]) tells
      bytes from characters, see [str_first];
    - the remote album service is a state machine given by a record of
      operations; every request the script sends and every line it prints
      is appended to a trace. *)

From Stdlib Require Import Ascii String.
From stdpp Require Import base option list strings gmap sets fin_maps infinite.

Local Open Scope string_scope.

(** ** Strings: the few [str] methods the script uses *)

Module Str.

(** [s.split(sep)] for a one-character separator. *)
Fixpoint split (sep : ascii) (s : string) : list string :=
  match s with
  | EmptyString => [EmptyString]
  | String a s' =>
      if Ascii.eqb a sep then EmptyString :: split sep s'
      else match split sep s' with
           | [] => [String a EmptyString]
           | w :: ws => String a w :: ws
           end
  end.

(** [sep.join(l)]. *)
Fixpoint join (sep : string) (l : list string) : string :=
  match l with
  | [] => ""
  | [x] => x
  | x :: rest => x ++ sep ++ join sep rest
  end.

(** [s.rfind(c)]: index of the last occurrence, [None] for Python's [-1]. *)
Fixpoint rfind (c : ascii) (s : string) : option nat :=
  match s with
  | EmptyString => None
  | String a s' =>
      match rfind c s' with
      | Some i => Some (S i)
      | None => if Ascii.eqb a c then Some 0 else None
      end
  end.

(** [s[:i]]. *)
Definition prefix (i : nat) (s : string) : string := String.substring 0 i s.

End Str.

(** ** pathlib: pure POSIX paths

    A parsed path is its root ([""], ["/"] or ["//"]) and the list of its
    components, as [PurePosixPath] keeps them. *)

Record Path := mkPath { root : string; tail : list string }.

Global Instance Path_eq_dec : EqDecision Path.
Proof. solve_decision. Defined.

Global Instance Path_countable : Countable Path.
Proof.
  refine (inj_countable' (λ p, (root p, tail p)) (λ t, mkPath t.1 t.2) _).
  by intros [].
Defined.

Module Pathlib.

(** [posixpath.splitroot] without the (always empty) drive. *)
Definition splitroot (p : string) : string * string :=
  match p with
  | String a rest =>
      if Ascii.eqb a "/" then
        match rest with
        | String b rest2 =>
            if Ascii.eqb b "/" then
              match rest2 with
              | String c _ => if Ascii.eqb c "/" then ("/", rest) else ("//", rest2)
              | EmptyString => ("//", rest2)
              end
            else ("/", rest)
        | EmptyString => ("/", rest)
        end
      else ("", p)
  | EmptyString => ("", p)
  end.

(** A component survives parsing when it is neither empty nor ["."]. *)
Definition kept (x : string) : bool := negb (String.eqb x "") && negb (String.eqb x ".").

(** [Path(s)]. *)
Definition of_string (s : string) : Path :=
  let '(r, rel) := splitroot s in
  mkPath r (List.filter kept (Str.split "/" rel)).

(** [str(p)]. *)
Definition to_string (p : Path) : string :=
  let s := root p ++ Str.join "/" (tail p) in
  if String.eqb s "" then "." else s.

(** [p.name]. *)
Definition name (p : Path) : string := List.last (tail p) "".

(** [p.stem]: the name without its last suffix. *)
Definition stem (p : Path) : string :=
  let n := name p in
  match Str.rfind "." n with
  | Some i => if (0 <? i)%nat && (i <? String.length n - 1)%nat then Str.prefix i n else n
  | None => n
  end.

(** [p.parent]. *)
Definition parent (p : Path) : Path :=
  match tail p with
  | [] => p
  | _ => mkPath (root p) (removelast (tail p))
  end.

(** [list(p.parents)]: the proper ancestors, nearest first. *)
Definition parents (p : Path) : list Path :=
  List.map (λ idx, mkPath (root p) (take (length (tail p) - idx - 1) (tail p)))
           (seq 0 (length (tail p))).

End Pathlib.

(** ** Data model *)

(** An asset record of [GET /asset]. *)
Record Asset := mkAsset { asset_id : string; libraryId : string; originalPath : string }.

(** A library record of [GET /library]. *)
Record Library := mkLibrary { library_id : string; library_name : string }.

(** An album record of [GET /album]. *)
Record Album := mkAlbum { album_id : string; albumName : string }.

Global Instance Asset_eq_dec : EqDecision Asset.
Proof. solve_decision. Defined.

Global Instance Library_eq_dec : EqDecision Library.
Proof. solve_decision. Defined.

Global Instance Album_eq_dec : EqDecision Album.
Proof. solve_decision. Defined.

(** A value stored under a bin key in a persisted table: an album id, or
    the empty object [{}] the reconcile loop writes before it decides. *)
Inductive jvalue := JStr (s : string) | JEmptyObject.

Global Instance jvalue_eq_dec : EqDecision jvalue.
Proof. solve_decision. Defined.

(** One persisted table ([folder_layout] or [name_layout]) and the whole
    persisted document. *)
Abbreviation table := (gmap string jvalue).
Abbreviation document := (gmap string (gmap string jvalue)).

(** What the script finds at the [--json] path. *)
Inductive json_path :=
  | ParentMissing                (* neither the file nor its parent directory exists *)
  | FileMissing                  (* the parent directory exists, the file does not *)
  | FileInvalid                  (* the file exists and [json.load] raises on it *)
  | FileNotObject                (* the file holds a JSON value that is no object *)
  | FileDocument (d : document). (* the file exists and holds the object [d] *)

(** The resolved command line. *)
Module args.
Record t := mk {
  json : option json_path;
  library : option (list string);
  folder_layout : bool;
  skip_paths : list Path;
  clean_update : bool;
  skip_existing : bool }.
End args.

(** The global [skip_paths] dict with its two lists. *)
Record SkipPaths := mkSkipPaths { direct : list Path; recursive : list Path }.

(** The loop filling [skip_paths] from [args.skip_paths]. *)
Definition skip_paths (a : args.t) : SkipPaths :=
  fold_left
    (λ sp p, if String.eqb (Pathlib.stem p) "*"
             then mkSkipPaths (direct sp) (recursive sp ++ [Pathlib.parent p])
             else mkSkipPaths (direct sp ++ [p]) (recursive sp))
    (args.skip_paths a) (mkSkipPaths [] []).

(** ** Path/asset classifier *)

(** The [try: d[k] except: d[k] = dflt finally: update d[k]] idiom on an
    insertion-ordered dict: a new key goes to the end. *)
Fixpoint setdefault_update {K V} `{EqDecision K}
    (k : K) (dflt : V) (f : V → V) (d : list (K * V)) : list (K * V) :=
  match d with
  | [] => [(k, f dflt)]
  | (k', v) :: rest =>
      if decide (k = k') then (k', f v) :: rest
      else (k', v) :: setdefault_update k dflt f rest
  end.

(** [Path(asset["originalPath"]).parent]. *)
Definition folder_of (a : Asset) : Path := Pathlib.parent (Pathlib.of_string (originalPath a)).

(** The two [continue] tests on the containing folder. *)
Definition skipped (sp : SkipPaths) (path : Path) : bool :=
  bool_decide (path ∈ direct sp)
  || negb (bool_decide (List.filter (λ p, bool_decide (p ∈ recursive sp)) (Pathlib.parents path) = [])).

(** The three [continue] tests of the classifier loops. *)
Definition dropped (library_filter : list string) (sp : SkipPaths) (a : Asset) : bool :=
  negb (bool_decide (libraryId a ∈ library_filter)) || skipped sp (folder_of a).

(** Folder mode: [folder_assets]. *)
Definition folder_assets (library_filter : list string) (sp : SkipPaths)
    (assets : list Asset) : list (Path * gset string) :=
  fold_left
    (λ d a, if dropped library_filter sp a then d
            else setdefault_update (folder_of a) ∅ (λ s, s ∪ {[asset_id a]}) d)
    assets [].

(** Library mode: the value kept per library. *)
Record LibItems := mkLibItems { paths : gset Path; ids : gset string }.

(** Library mode: [name_assets]. *)
Definition name_assets (library_filter : list string) (sp : SkipPaths)
    (assets : list Asset) : list (string * LibItems) :=
  fold_left
    (λ d a, if dropped library_filter sp a then d
            else setdefault_update (libraryId a) (mkLibItems ∅ ∅)
                   (λ v, mkLibItems (paths v ∪ {[folder_of a]}) (ids v ∪ {[asset_id a]})) d)
    assets [].

(** What the reconcile loop binds for one bin: the globals [album_name],
    [asset_ids] and [update_key]. *)
Record Bin := mkBin { album_name : string; asset_ids : gset string; update_key : string }.

Global Instance Bin_eq_dec : EqDecision Bin.
Proof. solve_decision. Defined.

(** Head of the folder-mode loop body. *)
Definition folder_bin (item : Path * gset string) : Bin :=
  mkBin (Pathlib.stem item.1) item.2 (Pathlib.to_string item.1).

(** [next((l["name"] for l in libraries if l["id"] == lib_id), "")]. *)
Definition library_name_of (libraries : list Library) (lib_id : string) : string :=
  match List.find (λ l, String.eqb (library_id l) lib_id) libraries with
  | Some l => library_name l
  | None => ""
  end.

(** Head of the library-mode loop body. *)
Definition library_bin (libraries : list Library) (item : string * LibItems) : Bin :=
  mkBin (library_name_of libraries item.1) (ids item.2) item.1.

(** ** Remote album service *)

(** The [message] field of an error body: a string or a list of strings. *)
Inductive message := MsgStr (s : string) | MsgList (l : list string).

(** A response with [r.ok] false. *)
Record failure := mkFailure { status_code : nat; reason : string; body_message : message }.

(** A response: [r.ok] with its decoded body, or a failure. *)
Inductive response (A : Type) :=
  | Ok (body : A)
  | Failed (e : failure).
Global Arguments Ok {A} body.
Global Arguments Failed {A} e.

(** The per-member result of adding to or removing from an album. *)
Record MemberResult := mkMemberResult { member_id : string; success : bool }.

Global Instance message_eq_dec : EqDecision message.
Proof. solve_decision. Defined.

Global Instance failure_eq_dec : EqDecision failure.
Proof. solve_decision. Defined.

Global Instance response_eq_dec {A} `{EqDecision A} : EqDecision (response A).
Proof. solve_decision. Defined.

Global Instance MemberResult_eq_dec : EqDecision MemberResult.
Proof. solve_decision. Defined.

(** The endpoints the script talks to, over a server state. *)
Record Server := mkServer {
  srv_state : Type;
  GET_library : srv_state → list Library;
  GET_album_list : srv_state → list Album;
  GET_asset : srv_state → list Asset;
  POST_album : string → gset string → srv_state → response string * srv_state;
  PUT_album_assets : string → gset string → srv_state → response (list MemberResult) * srv_state;
  GET_album : string → srv_state → response (list string) * srv_state;
  DELETE_album_assets : string → gset string → srv_state → response (list MemberResult) * srv_state }.

(** ** Trace of a run *)

Inductive request :=
  | ReqLibraries                                             (* GET /library *)
  | ReqAlbums                                                (* GET /album *)
  | ReqAssets                                                (* GET /asset *)
  | ReqCreate (name : string) (assetIds : gset string)       (* POST /album *)
  | ReqAdd (album : string) (ids : gset string)              (* PUT /album/<id>/assets *)
  | ReqFetch (album : string)                                (* GET /album/<id> *)
  | ReqRemove (album : string) (ids : gset string).          (* DELETE /album/<id>/assets *)

Inductive line :=
  | MakingAPIRequests
  | Blank
  | Found (n : nat) (what : string)
  | UnableToFindLibrary (item : string)
  | AlreadyExistsSkipping (name : string)
  | CreatedAlbum (name : string) (n : nat)
  | CreationFailed (name : string) (status : nat) (why : string)
  | AlreadyUpToDate (name : string)
  | AddedAssets (count : nat) (plural : bool) (name : string)
  | UpdatingFailed (name : string) (status : nat) (why : string)
  | ClearingFailed (name : string) (status : nat) (why : string)
  | ClearedAssets (count : nat) (name : string)
  | ServerMessage (m : message)
  | Done.

Inductive event := Sent (r : request) | Printed (l : line).

(** What stops a run early. *)
Inductive exn :=
  | SystemExit (msg : option string)
  | JSONDecodeError
  | AttributeError
  | IndexError.

Global Instance request_eq_dec : EqDecision request.
Proof. solve_decision. Defined.

Global Instance line_eq_dec : EqDecision line.
Proof. solve_decision. Defined.

Global Instance event_eq_dec : EqDecision event.
Proof. solve_decision. Defined.

Global Instance exn_eq_dec : EqDecision exn.
Proof. solve_decision. Defined.

(** The number of bytes of the UTF-8 character whose first byte is [c]. *)
Definition utf8_width (c : ascii) : nat :=
  let n := nat_of_ascii c in
  if (n <? 192)%nat then 1 else if (n <? 224)%nat then 2 else if (n <? 240)%nat then 3 else 4.

(** [x[0]] on a string: its first character. A [str] is kept as the bytes
    of its UTF-8 encoding, so the first character is the first one to four
    bytes, as the first byte tells. *)
Definition str_first (s : string) : exn + string :=
  match s with
  | String c _ => inr (Str.prefix (utf8_width c) s)
  | EmptyString => inl IndexError
  end.

(** [x[0]] on a list. *)
Definition list_first (l : list string) : exn + string :=
  match l with
  | x :: _ => inr x
  | [] => inl IndexError
  end.

(** The [count] loops over a list of per-member results. *)
Definition count_success (results : list MemberResult) : nat :=
  length (List.filter success results).

(** The lines of a run that report a failed remote call. *)
Definition is_failure_report (e : event) : bool :=
  match e with
  | Printed (CreationFailed _ _ _) | Printed (UpdatingFailed _ _ _)
  | Printed (ClearingFailed _ _ _) => true
  | _ => false
  end.

(** ** Album reconciler *)

Section Reconciler.

Context (srv : Server).

(** The mutable state of a run: the server, [json_output] and the trace
    (oldest event first). *)
Record World := mkWorld {
  remote : srv_state srv;
  json_output : gmap string jvalue;
  trace : list event }.

Global Instance World_eq_dec `{EqDecision (srv_state srv)} : EqDecision World.
Proof. solve_decision. Defined.

(** Statements: state transformers that may raise. *)
Definition M (A : Type) : Type := World → (exn + A) * World.

Definition ret {A} (x : A) : M A := λ w, (inr x, w).

Definition bind {A B} (m : M A) (k : A → M B) : M B :=
  λ w, match m w with
       | (inr x, w') => k x w'
       | (inl e, w') => (inl e, w')
       end.

Definition raise {A} (e : exn) : M A := λ w, (inl e, w).

Definition lift {A} (r : exn + A) : M A := λ w, (r, w).

Definition emit (e : event) : M unit :=
  λ w, (inr tt, mkWorld (remote w) (json_output w) (trace w ++ [e])).

Definition print (l : line) : M unit := emit (Printed l).

Definition set_output (k : string) (v : jvalue) : M unit :=
  λ w, (inr tt, mkWorld (remote w) (<[k := v]> (json_output w)) (trace w)).

(** Send a request: log it, step the server. *)
Definition call {A} (r : request)
    (op : srv_state srv → response A * srv_state srv) : M (response A) :=
  λ w, let '(resp, s') := op (remote w) in
       (inr resp, mkWorld s' (json_output w) (trace w ++ [Sent r])).

(** Send one of the three listing requests. *)
Definition fetch {A} (r : request) (op : srv_state srv → A) : M A :=
  λ w, (inr (op (remote w)), mkWorld (remote w) (json_output w) (trace w ++ [Sent r])).

(** [json_output = deepcopy(t)]. *)
Definition init_output (t : gmap string jvalue) : M unit :=
  λ w, (inr tt, mkWorld (remote w) t (trace w)).

Definition get_output : M (gmap string jvalue) := λ w, (inr (json_output w), w).

Fixpoint for_each {A} (body : A → M unit) (l : list A) : M unit :=
  match l with
  | [] => ret tt
  | x :: rest => bind (body x) (λ _, for_each body rest)
  end.

End Reconciler.

Global Arguments mkWorld {srv} _ _ _.
Global Arguments remote {srv} _.
Global Arguments json_output {srv} _.
Global Arguments trace {srv} _.
Global Arguments ret {srv A} _ _.
Global Arguments bind {srv A B} _ _ _.
Global Arguments raise {srv A} _ _.
Global Arguments lift {srv A} _ _.
Global Arguments emit {srv} _ _.
Global Arguments print {srv} _ _.
Global Arguments set_output {srv} _ _ _.
Global Arguments call {srv A} _ _ _.
Global Arguments fetch {srv A} _ _ _.
Global Arguments init_output {srv} _ _.
Global Arguments get_output {srv} _.
Global Arguments for_each {srv A} _ _ _.

Notation "x <- m ;; k" := (bind m (λ x, k))
  (at level 100, m at next level, right associativity, only parsing).


(** [args.json is not None]. *)
Definition json_given (a : args.t) : bool :=
  match args.json a with Some _ => true | None => false end.

Section Script.

Context (srv : Server) (a : args.t).

Section Bins.

(** [album_names] and [album_ids], read once at the top of the run. *)
Context (album_names album_ids : list string).

Definition create_album (b : Bin) : M srv unit :=
  if args.skip_existing a && negb (json_given a)
     && bool_decide (album_name b ∈ album_names)
  then print (AlreadyExistsSkipping (album_name b))
  else
    r <- call (ReqCreate (album_name b) (asset_ids b))
              (POST_album srv (album_name b) (asset_ids b)) ;;
    match r with
    | Ok new_id =>
        _ <- print (CreatedAlbum (album_name b) (size (asset_ids b))) ;;
        if json_given a then set_output (update_key b) (JStr new_id) else ret tt
    | Failed e =>
        _ <- print (CreationFailed (album_name b) (status_code e) (reason e)) ;;
        m <- lift (match body_message e with
                   | MsgStr s => str_first s
                   | MsgList l => list_first l
                   end) ;;
        print (ServerMessage (MsgStr m))
    end.

Definition update_album (b : Bin) (album_id : string) : M srv unit :=
  if args.skip_existing a && bool_decide (album_id ∈ album_ids)
  then print (AlreadyExistsSkipping (album_name b))
  else
    r <- call (ReqAdd album_id (asset_ids b))
              (PUT_album_assets srv album_id (asset_ids b)) ;;
    match r with
    | Ok results =>
        let count := count_success results in
        if (count =? 0)%nat then print (AlreadyUpToDate (album_name b))
        else print (AddedAssets count (10 <=? count)%nat (album_name b))
    | Failed e =>
        _ <- print (UpdatingFailed (album_name b) (status_code e) (reason e)) ;;
        msg <- lift (match body_message e with
                     | MsgList l => list_first l
                     | MsgStr s => inr s
                     end) ;;
        print (ServerMessage (MsgStr msg))
    end.

Definition clean_album (b : Bin) (album_id : string) : M srv unit :=
  r <- call (ReqFetch album_id) (GET_album srv album_id) ;;
  match r with
  | Failed e =>
      _ <- print (ClearingFailed (album_name b) (status_code e) (reason e)) ;;
      print (ServerMessage (body_message e))
  | Ok album_assets =>
      let removal_assets : gset string := list_to_set album_assets ∖ asset_ids b in
      r <- call (ReqRemove album_id removal_assets)
                (DELETE_album_assets srv album_id removal_assets) ;;
      match r with
      | Ok results =>
          let count := count_success results in
          if negb (count =? 0)%nat then print (ClearedAssets count (album_name b))
          else ret tt
      | Failed _ => ret tt
      end
  end.

(** The body of the two reconcile loops, after [album_name], [asset_ids]
    and [update_key] are bound; [layout] is [json_folder_layout] in folder
    mode and [json_name_layout] in library mode. *)
Definition reconcile_bin (layout : option (gmap string jvalue)) (b : Bin) : M srv unit :=
  _ <- set_output (update_key b) JEmptyObject ;;
  match layout with
  | Some t =>
      match t !! update_key b with
      | Some (JStr album_id) =>
          if bool_decide (album_id ∈ album_ids) then
            _ <- (if args.clean_update a then clean_album b album_id else ret tt) ;;
            _ <- set_output (update_key b) (JStr album_id) ;;
            update_album b album_id
          else create_album b
      | Some JEmptyObject => create_album b
      | None => create_album b
      end
  | None => create_album b
  end.

End Bins.

(** What loading the persisted file leaves in the globals. *)
Record Loaded := mkLoaded {
  old_json_data : option document;
  json_folder_layout : option (gmap string jvalue);
  json_name_layout : option (gmap string jvalue) }.

Definition load_json : exn + Loaded :=
  match args.json a with
  | None => inr (mkLoaded None None None)
  | Some (FileDocument d) =>
      inr (mkLoaded (Some d) (d !! "folder_layout") (d !! "name_layout"))
  | Some FileInvalid => inl JSONDecodeError
  | Some FileNotObject => inl AttributeError
  | Some FileMissing => inr (mkLoaded None None None)
  | Some ParentMissing => inl (SystemExit (Some "The given json path is invalid."))
  end.

(** The loop over [args.library]: the ids of the named libraries, or the
    first name that no library carries. *)
Fixpoint named_libraries (libraries : list Library) (items : list string)
    (library_filter : list string) : string + list string :=
  match items with
  | [] => inr library_filter
  | item :: rest =>
      if bool_decide (item ∈ List.map library_name libraries) then
        named_libraries libraries rest
          (library_filter ++
             [match List.find (λ l, String.eqb (library_name l) item) libraries with
              | Some l => library_id l
              | None => ""
              end])
      else inl item
  end.

Definition library_filter (libraries : list Library) : string + list string :=
  match args.library a with
  | Some items => named_libraries libraries items []
  | None => inr (List.map library_id libraries)
  end.

(** The bins of the run, in processing order, and the table they are
    reconciled against. *)
Definition bins (libraries : list Library) (filter : list string) (assets : list Asset) : list Bin :=
  if args.folder_layout a
  then List.map folder_bin (folder_assets filter (skip_paths a) assets)
  else List.map (library_bin libraries) (name_assets filter (skip_paths a) assets).

Definition layout (l : Loaded) : option (gmap string jvalue) :=
  if args.folder_layout a then json_folder_layout l else json_name_layout l.

(** The final [json.dump]: the document written, if any. *)
Definition save (l : Loaded) (out : gmap string jvalue) : option document :=
  if json_given a then
    let json_data := default ∅ (old_json_data l) in
    Some (if args.folder_layout a
          then <["folder_layout" := out]> json_data
          else <["name_layout" := out]> json_data)
  else None.

(** The script, from loading the persisted file to the final write. *)
Definition script : M srv (option document) :=
  l <- lift load_json ;;
  _ <- print MakingAPIRequests ;;
  _ <- print Blank ;;
  libraries <- fetch ReqLibraries (GET_library srv) ;;
  _ <- print (Found (length libraries) "Libraries") ;;
  filter <- match library_filter libraries with
            | inr filter => ret filter
            | inl item => _ <- print (UnableToFindLibrary item) ;; raise (SystemExit None)
            end ;;
  albums <- fetch ReqAlbums (GET_album_list srv) ;;
  _ <- print (Found (length albums) "Albums") ;;
  assets <- fetch ReqAssets (GET_asset srv) ;;
  _ <- print (Found (length assets) "Assets") ;;
  _ <- print Blank ;;
  _ <- init_output (default ∅ (layout l)) ;;
  _ <- for_each (reconcile_bin (List.map albumName albums) (List.map album_id albums) (layout l))
                (bins libraries filter assets) ;;
  out <- get_output ;;
  _ <- print Blank ;;
  _ <- print Done ;;
  ret (save l out).

(** A run from a server state. *)
Definition main (s : srv_state srv) : (exn + option document) * World srv :=
  script (mkWorld s ∅ []).

End Script.

(** A persisted value that does not bind its bin: it is no album id of the
    album-id list of the run. *)
Definition stale (album_ids : list string) (v : jvalue) : Prop :=
  ∀ id, v = JStr id → id ∉ album_ids.

(** The world with its output mapping transformed. *)
Definition map_output {srv : Server} (f : gmap string jvalue → gmap string jvalue)
    (w : World srv) : World srv :=
  mkWorld (remote w) (f (json_output w)) (trace w).

(** A statement that neither reads the output mapping nor writes it in a
    way [f] would notice: running it after [f] is running it before. *)
Definition commutes {srv : Server} {A} (f : gmap string jvalue → gmap string jvalue)
    (m : M srv A) : Prop :=
  ∀ w, m (map_output f w) = ((m w).1, map_output f (m w).2).

(** The top-level key of the table the run works on. *)
Definition active_key (a : args.t) : string :=
  if args.folder_layout a then "folder_layout" else "name_layout".

(** The same command line with another state of the persisted file. *)
Definition with_json (a : args.t) (j : option json_path) : args.t :=
  args.mk j (args.library a) (args.folder_layout a) (args.skip_paths a)
          (args.clean_update a) (args.skip_existing a).

(** The album ids, the bins and the persisted table of a run from server
    state [s], as [script] computes them. *)
Definition run_album_ids (srv : Server) (s : srv_state srv) : list string :=
  List.map album_id (GET_album_list srv s).

Definition run_album_names (srv : Server) (s : srv_state srv) : list string :=
  List.map albumName (GET_album_list srv s).

Definition run_bins (srv : Server) (a : args.t) (s : srv_state srv) : list Bin :=
  match library_filter a (GET_library srv s) with
  | inr filter => bins a (GET_library srv s) filter (GET_asset srv s)
  | inl _ => []
  end.

(** What a run sends and prints before it reaches the reconcile loop. *)
Definition prologue (srv : Server) (s : srv_state srv) : list event :=
  [Printed MakingAPIRequests; Printed Blank; Sent ReqLibraries;
   Printed (Found (length (GET_library srv s)) "Libraries");
   Sent ReqAlbums; Printed (Found (length (GET_album_list srv s)) "Albums");
   Sent ReqAssets; Printed (Found (length (GET_asset srv s)) "Assets");
   Printed Blank].

(** The reconcile loop of a run. *)
Definition run_loop (srv : Server) (a : args.t) (s : srv_state srv)
    (layout : option (gmap string jvalue)) (bs : list Bin) : M srv unit :=
  for_each (reconcile_bin srv a (run_album_names srv s) (run_album_ids srv s) layout) bs.

Definition run_layout (a : args.t) : option (gmap string jvalue) :=
  match load_json a with
  | inr l => layout a l
  | inl _ => None
  end.

(** ** A reference album service

    The service the idempotence property assumes: albums are a table from
    album id to name and member set; creating allocates an unused id;
    adding reports success exactly for the ids that were not members yet
    (re-adding a member is a per-member no-op), removing exactly for the
    ids that were members; requests on an unknown album fail. *)

Module Ideal.

Record state := mkState {
  libraries : list Library;
  assets : list Asset;
  albums : gmap string (string * gset string) }.

Global Instance state_eq_dec : EqDecision state.
Proof. solve_decision. Defined.

Definition not_found : failure :=
  mkFailure 400 "Bad Request" (MsgStr "Not found or no album access").

Definition album_list (s : state) : list Album :=
  List.map (λ kv : string * (string * gset string), mkAlbum kv.1 kv.2.1) (map_to_list (albums s)).

Definition create (name : string) (ids : gset string) (s : state) : response string * state :=
  let new_id := fresh (dom (albums s)) in
  (Ok new_id, mkState (libraries s) (assets s) (<[new_id := (name, ids)]> (albums s))).

Definition add (album : string) (ids : gset string) (s : state)
    : response (list MemberResult) * state :=
  match albums s !! album with
  | Some (name, members) =>
      (Ok (List.map (λ i, mkMemberResult i (bool_decide (i ∉ members))) (elements ids)),
       mkState (libraries s) (assets s) (<[album := (name, members ∪ ids)]> (albums s)))
  | None => (Failed not_found, s)
  end.

Definition detail (album : string) (s : state) : response (list string) * state :=
  match albums s !! album with
  | Some (_, members) => (Ok (elements members), s)
  | None => (Failed not_found, s)
  end.

Definition remove (album : string) (ids : gset string) (s : state)
    : response (list MemberResult) * state :=
  match albums s !! album with
  | Some (name, members) =>
      (Ok (List.map (λ i, mkMemberResult i (bool_decide (i ∈ members))) (elements ids)),
       mkState (libraries s) (assets s) (<[album := (name, members ∖ ids)]> (albums s)))
  | None => (Failed not_found, s)
  end.

Definition server : Server :=
  mkServer state libraries album_list assets create add detail remove.

Global Instance srv_state_eq_dec : EqDecision (srv_state server) := state_eq_dec.

End Ideal.

(** ** A service whose album endpoints are down

    Listing works and a fetch of an album is answered with [fetched];
    every create, add and remove request is answered with the failure [e]. *)

Module Down.

Definition server (libraries : list Library) (albums : list Album) (assets : list Asset)
    (fetched : response (list string)) (e : failure) : Server :=
  mkServer unit (λ _, libraries) (λ _, albums) (λ _, assets)
           (λ _ _ s, (Failed e, s)) (λ _ _ s, (Failed e, s))
           (λ _ s, (fetched, s)) (λ _ _ s, (Failed e, s)).

Global Instance srv_state_eq_dec libraries albums assets fetched e :
  EqDecision (srv_state (server libraries albums assets fetched e)) := unit_eq_dec.

End Down.

(** ** Events of interest in a trace *)

Definition is_create (e : event) : bool :=
  match e with Sent (ReqCreate _ _) => true | _ => false end.

Definition is_added (e : event) : bool :=
  match e with Printed (AddedAssets _ _ _) => true | _ => false end.

Definition is_cleared (e : event) : bool :=
  match e with Printed (ClearedAssets _ _) => true | _ => false end.

(** The labels of the albums a trace reports as already up to date. *)
Definition up_to_date (tr : list event) : list string :=
  omap (λ e, match e with Printed (AlreadyUpToDate name) => Some name | _ => None end) tr.

(** The removal requests of a trace, with the album and the ids sent. *)
Definition removals (tr : list event) : list (string * gset string) :=
  omap (λ e, match e with Sent (ReqRemove al ids) => Some (al, ids) | _ => None end) tr.

(** ** Vocabulary of the further properties *)

(** [c in s]. *)
Fixpoint has_char (c : ascii) (s : string) : bool :=
  match s with
  | EmptyString => false
  | String a s' => Ascii.eqb a c || has_char c s'
  end.

(** A component as parsing leaves it: not empty, not ["."], no slash. *)
Definition component_ok (x : string) : bool :=
  Pathlib.kept x && negb (has_char "/" x).

(** A path as [Path(s)] and its [parent]s are: one of the three POSIX
    roots and components as parsing leaves them. *)
Definition parsed (p : Path) : Prop :=
  (root p = "" ∨ root p = "/" ∨ root p = "//") ∧ Forall (λ x, component_ok x = true) (tail p).

(** The mapping key and the label of the bin an asset falls into. *)
Definition key_of (a : args.t) (y : Asset) : string :=
  if args.folder_layout a then Pathlib.to_string (folder_of y) else libraryId y.

Definition label_of (a : args.t) (libraries : list Library) (y : Asset) : string :=
  if args.folder_layout a then Pathlib.stem (folder_of y)
  else library_name_of libraries (libraryId y).

(** Events that change an album or report a change or a failure. *)
Definition noisy (e : event) : bool :=
  is_create e || is_added e || is_cleared e || is_failure_report e.

(** A bin in step with the reference service: the output maps its key to
    an album that exists; in clean mode the album holds nothing but the
    bin's members, and unless updates are skipped it holds them all. *)
Definition synced (a : args.t) (s : Ideal.state) (out : gmap string jvalue) (b : Bin) : Prop :=
  ∃ id name members,
    out !! update_key b = Some (JStr id)
    ∧ Ideal.albums s !! id = Some (name, members)
    ∧ (args.clean_update a = true → members ⊆ asset_ids b)
    ∧ (args.skip_existing a = false → asset_ids b ⊆ members).

(** No two keys of a persisted table share an album id. *)
Definition one_key_per_album (t : gmap string jvalue) : Prop :=
  ∀ k1 k2 id, t !! k1 = Some (JStr id) → t !! k2 = Some (JStr id) → k1 = k2.

(** Where the album of a processed bin comes from in a run from service
    state [s0] and table [t0]: it is the bin's entry in [t0], or it did
    not exist in [s0]. *)
Definition rooted (s0 : Ideal.state) (t0 out : gmap string jvalue) (b : Bin) : Prop :=
  ∀ id, out !! update_key b = Some (JStr id) →
        t0 !! update_key b = Some (JStr id) ∨ id ∉ dom (Ideal.albums s0).

(** Statement [m] only appends to the trace, and only events satisfying [P]. *)
Definition emits {srv : Server} {A} (P : event → Prop) (m : M srv A) : Prop :=
  ∀ w, ∃ evs, trace (m w).2 = (trace w ++ evs)%list ∧ Forall P evs.


(** The album a request is about. *)
Definition album_of (e : event) : option string :=
  match e with
  | Sent (ReqAdd al _) | Sent (ReqFetch al) | Sent (ReqRemove al _) => Some al
  | _ => None
  end.

(** [s.rstrip(c)] for a one-character set. *)
Fixpoint rstrip (c : ascii) (s : string) : string :=
  match s with
  | EmptyString => EmptyString
  | String a s' =>
      match rstrip c s' with
      | EmptyString => if Ascii.eqb a c then EmptyString else String a EmptyString
      | r => String a r
      end
  end.

(** [s.endswith(suffix)]. *)
Fixpoint endswith (s suffix : string) : bool :=
  String.eqb s suffix
  || match s with
     | EmptyString => false
     | String _ s' => endswith s' suffix
     end.

(** The global [host]: [args.host] without trailing slashes, with ["/api"]
    appended unless it ends with ["api"]. *)
Definition host (args_host : string) : string :=
  let host := rstrip "/" args_host in
  if endswith host "api" then host else host ++ "/api".

(** Requests among the events. *)
Definition is_sent (e : event) : bool :=
  match e with Sent _ => true | Printed _ => false end.

(** Statement [m] only appends to the trace, and at most [n] events
    selected by [f]. *)
Definition emits_at_most {srv : Server} {A} (f : event → bool) (n : nat) (m : M srv A) : Prop :=
  ∀ w, ∃ evs, trace (m w).2 = (trace w ++ evs)%list ∧ (length (List.filter f evs) ≤ n)%nat.

(** * Properties *)

(** ** pathlib on examples *)

Example of_string_trip :
  Pathlib.of_string "/pics/trip/a.jpg" = mkPath "/" ["pics"; "trip"; "a.jpg"].
Proof. reflexivity. Qed.

Example of_string_norm :
  Pathlib.of_string "//pics//./trip/" = mkPath "//" ["pics"; "trip"].
Proof. reflexivity. Qed.

Example parents_trip :
  Pathlib.parents (mkPath "/" ["pics"; "trip"]) = [mkPath "/" ["pics"]; mkPath "/" []].
Proof. reflexivity. Qed.

Example to_string_trip : Pathlib.to_string (mkPath "/" ["pics"; "trip"]) = "/pics/trip".
Proof. reflexivity. Qed.

Example stem_examples :
  Pathlib.stem (mkPath "/" ["pics"; "trip"]) = "trip" ∧
  Pathlib.stem (mkPath "/" ["pics"; ".hidden"]) = ".hidden" ∧
  Pathlib.stem (mkPath "/" ["pics"; "a.tar.gz"]) = "a.tar" ∧
  Pathlib.stem (mkPath "/" ["pics"; "trip."]) = "trip." ∧
  Pathlib.stem (mkPath "/" []) = "".
Proof. repeat split. Qed.

Example str_first_examples :
  str_first "down" = inr "d"
  ∧ str_first "été" = inr "é"
  ∧ str_first "€5" = inr "€"
  ∧ str_first "" = inl IndexError.
Proof. repeat split. Qed.

Example skip_paths_partition :
  skip_paths (args.mk None None true [mkPath "/" ["pics"; "trip"]; mkPath "/" ["raw"; "*"]] false false)
  = mkSkipPaths [mkPath "/" ["pics"; "trip"]] [mkPath "/" ["raw"]].
Proof. reflexivity. Qed.

(** ** Classifier *)

Section Classifier.

Context {K V : Type} `{EqDecision K}.

Lemma setdefault_update_elem (k : K) (dflt : V) (f : V → V) (d : list (K * V)) kv :
  kv ∈ setdefault_update k dflt f d →
  kv ∈ d ∨ (kv.1 = k ∧ (kv.2 = f dflt ∨ ∃ v, (k, v) ∈ d ∧ kv.2 = f v)).
Proof.
  induction d as [|[k' v'] d IH]; simpl.
  - intros ->%list_elem_of_singleton. right. split; [done|by left].
  - destruct (decide (k = k')) as [->|Hne].
    + intros [->|Hin]%elem_of_cons.
      * right. split; [done|]. right. exists v'. split; [left|done].
      * left. by right.
    + intros [->|Hin]%elem_of_cons.
      * left. left.
      * destruct (IH Hin) as [?|[? [?|(v & ? & ?)]]].
        -- left. by right.
        -- right. split; [done|by left].
        -- right. split; [done|]. right. exists v. split; [by right|done].
Qed.

Lemma setdefault_update_keys (k : K) (dflt : V) (f : V → V) (d : list (K * V)) :
  (setdefault_update k dflt f d).*1 = d.*1
  ∨ ((k ∉ (d.*1)) ∧ (setdefault_update k dflt f d).*1 = ((d.*1) ++ [k])%list).
Proof.
  induction d as [|[k' v'] d IH].
  - right. split; [apply not_elem_of_nil|done].
  - cbn [setdefault_update]. destruct (decide (k = k')) as [->|Hne]; [by left|].
    rewrite !fmap_cons. cbn [fst].
    destruct IH as [->|[Hk ->]]; [by left|].
    right. split; [|done]. rewrite elem_of_cons. naive_solver.
Qed.

Lemma setdefault_update_NoDup (k : K) (dflt : V) (f : V → V) (d : list (K * V)) :
  NoDup d.*1 → NoDup (setdefault_update k dflt f d).*1.
Proof.
  intros Hnd. destruct (setdefault_update_keys k dflt f d) as [->|[Hk ->]]; [done|].
  apply NoDup_app. split_and!; [done| |apply NoDup_singleton].
  intros x Hx ->%list_elem_of_singleton. done.
Qed.

End Classifier.

Lemma skipped_true (sp : SkipPaths) (path : Path) :
  (path ∈ direct sp ∨ ∃ p, p ∈ Pathlib.parents path ∧ p ∈ recursive sp) →
  skipped sp path = true.
Proof.
  unfold skipped. intros [Hd|(p & Hp & Hr)].
  - by rewrite bool_decide_eq_true_2.
  - apply orb_true_iff. right. apply negb_true_iff, bool_decide_eq_false.
    intros Hnil.
    assert (In p (List.filter (λ p, bool_decide (p ∈ recursive sp)) (Pathlib.parents path))) as Hin.
    { apply filter_In. split; [by apply list_elem_of_In|by apply bool_decide_eq_true_2]. }
    rewrite Hnil in Hin. destruct Hin.
Qed.

(** Every id in a folder bin comes from an asset that was not dropped. *)
Lemma folder_assets_provenance filter sp (assets : list Asset) kv i :
  kv ∈ folder_assets filter sp assets → i ∈ kv.2 →
  ∃ y, y ∈ assets ∧ asset_id y = i ∧ dropped filter sp y = false ∧ folder_of y = kv.1.
Proof.
  unfold folder_assets. revert kv i.
  induction assets as [|x assets IH] using rev_ind; intros kv i; simpl.
  - by intros ?%not_elem_of_nil.
  - rewrite fold_left_app. simpl.
    destruct (dropped filter sp x) eqn:Hx.
    + intros Hkv Hi. destruct (IH _ _ Hkv Hi) as (y & ? & ?).
      exists y. split; [set_solver|done].
    + intros Hkv Hi.
      destruct (setdefault_update_elem _ _ _ _ _ Hkv) as [Hold|[Hk [Hv|(v & Hold & Hv)]]].
      * destruct (IH _ _ Hold Hi) as (y & ? & ?). exists y. split; [set_solver|done].
      * exists x. rewrite Hv in Hi. split; [set_solver|]. split; [set_solver|done].
      * rewrite Hv in Hi. apply elem_of_union in Hi as [Hi|Hi].
        -- destruct (IH _ _ Hold Hi) as (y & ? & ? & ? & ?).
           exists y. split; [set_solver|]. split_and!; [done..|]. by rewrite Hk.
        -- exists x. split; [set_solver|]. split; [set_solver|done].
Qed.

(** Every id in a library bin comes from an asset that was not dropped. *)
Lemma name_assets_provenance filter sp (assets : list Asset) kv i :
  kv ∈ name_assets filter sp assets → i ∈ ids kv.2 →
  ∃ y, y ∈ assets ∧ asset_id y = i ∧ dropped filter sp y = false ∧ libraryId y = kv.1.
Proof.
  unfold name_assets. revert kv i.
  induction assets as [|x assets IH] using rev_ind; intros kv i; simpl.
  - by intros ?%not_elem_of_nil.
  - rewrite fold_left_app. simpl.
    destruct (dropped filter sp x) eqn:Hx.
    + intros Hkv Hi. destruct (IH _ _ Hkv Hi) as (y & ? & ?).
      exists y. split; [set_solver|done].
    + intros Hkv Hi.
      destruct (setdefault_update_elem _ _ _ _ _ Hkv) as [Hold|[Hk [Hv|(v & Hold & Hv)]]].
      * destruct (IH _ _ Hold Hi) as (y & ? & ?). exists y. split; [set_solver|done].
      * exists x. rewrite Hv in Hi. simpl in Hi. split; [set_solver|]. split; [set_solver|done].
      * rewrite Hv in Hi. simpl in Hi. apply elem_of_union in Hi as [Hi|Hi].
        -- destruct (IH _ _ Hold Hi) as (y & ? & ? & ? & ?).
           exists y. split; [set_solver|]. split_and!; [done..|]. by rewrite Hk.
        -- exists x. split; [set_solver|]. split; [set_solver|done].
Qed.

Lemma folder_assets_NoDup filter sp (assets : list Asset) :
  NoDup (folder_assets filter sp assets).*1.
Proof.
  unfold folder_assets. induction assets as [|x assets IH] using rev_ind; simpl.
  - apply NoDup_nil_2.
  - rewrite fold_left_app. simpl. destruct (dropped filter sp x); [done|].
    by apply setdefault_update_NoDup.
Qed.

Lemma name_assets_NoDup filter sp (assets : list Asset) :
  NoDup (name_assets filter sp assets).*1.
Proof.
  unfold name_assets. induction assets as [|x assets IH] using rev_ind; simpl.
  - apply NoDup_nil_2.
  - rewrite fold_left_app. simpl. destruct (dropped filter sp x); [done|].
    by apply setdefault_update_NoDup.
Qed.

(** Every member id of a bin of the run, in either mode, is the id of an
    asset of the list that passed the three tests of the classifier. *)
Lemma bins_provenance a libraries filter (assets : list Asset) b i :
  b ∈ bins a libraries filter assets → i ∈ asset_ids b →
  ∃ y, y ∈ assets ∧ asset_id y = i ∧ dropped filter (skip_paths a) y = false.
Proof.
  unfold bins. destruct (args.folder_layout a).
  - intros (kv & <- & Hkv)%list_elem_of_In%in_map_iff Hi. apply list_elem_of_In in Hkv.
    destruct (folder_assets_provenance _ _ _ _ _ Hkv Hi) as (y & ? & ? & ? & ?). eauto.
  - intros (kv & <- & Hkv)%list_elem_of_In%in_map_iff Hi. apply list_elem_of_In in Hkv.
    destruct (name_assets_provenance _ _ _ _ _ Hkv Hi) as (y & ? & ? & ? & ?). eauto.
Qed.

(** What the two skip tests do exclude: an asset whose containing folder
    is an exact-skip entry, or has a proper ancestor among the
    recursive-skip entries, is in the member set of no bin, in folder mode
    and in library mode alike (the asset ids of the list being distinct). *)
Lemma skipped_asset_in_no_bin a libraries filter (assets : list Asset) (x : Asset) (b : Bin) :
  NoDup (List.map asset_id assets) →
  x ∈ assets →
  (folder_of x ∈ direct (skip_paths a)
   ∨ ∃ p, p ∈ Pathlib.parents (folder_of x) ∧ p ∈ recursive (skip_paths a)) →
  b ∈ bins a libraries filter assets →
  asset_id x ∉ asset_ids b.
Proof.
  intros Hnd Hx Hskip Hb Hi.
  destruct (bins_provenance _ _ _ _ _ _ Hb Hi) as (y & Hy & Hid & Hdrop).
  assert (y = x) as ->.
  { apply list_elem_of_lookup in Hx as [n Hn]. apply list_elem_of_lookup in Hy as [m Hm].
    assert (n = m) as ->; [|congruence].
    eapply NoDup_lookup; [exact Hnd| |].
    - rewrite list_lookup_fmap, Hn. done.
    - change (List.map asset_id assets) with (asset_id <$> assets).
      rewrite list_lookup_fmap, Hm. simpl. by rewrite Hid. }
  unfold dropped in Hdrop. apply orb_false_iff in Hdrop as [_ Hdrop].
  by rewrite (skipped_true _ _ Hskip) in Hdrop.
Qed.

Lemma skipped_asset_in_no_bin_witness :
  let a := args.mk None None true [mkPath "/" ["pics"; "trip"]; mkPath "/" ["raw"; "*"]]
             false false in
  let assets := [mkAsset "1" "L1" "/pics/trip/a.jpg"; mkAsset "2" "L1" "/pics/ok/b.jpg";
                 mkAsset "3" "L1" "/raw/2023/05/c.jpg"] in
  bins a [] ["L1"] assets = [mkBin "ok" {[ "2" ]} "/pics/ok"]
  ∧ "1" ∉ asset_ids (mkBin "ok" {[ "2" ]} "/pics/ok")
  ∧ "3" ∉ asset_ids (mkBin "ok" {[ "2" ]} "/pics/ok").
Proof.
  intros a assets. split; [compute_done|]. split.
  - apply (skipped_asset_in_no_bin a [] ["L1"] assets (mkAsset "1" "L1" "/pics/trip/a.jpg")
             (mkBin "ok" {[ "2" ]} "/pics/ok")).
    + compute_done.
    + compute_done.
    + left. compute_done.
    + compute_done.
  - apply (skipped_asset_in_no_bin a [] ["L1"] assets (mkAsset "3" "L1" "/raw/2023/05/c.jpg")
             (mkBin "ok" {[ "2" ]} "/pics/ok")).
    + compute_done.
    + compute_done.
    + right. exists (mkPath "/" ["raw"]). split; compute_done.
    + compute_done.
Defined.

(** C3: a folder that is itself in the skip set as a recursive entry is
    not skipped. With [--skip-paths "/raw/*"] the recursive-skip list
    holds [/raw]; the asset [/raw/a.jpg] has that very folder as its
    containing folder, and [path.parents] holds only the proper ancestors
    of a path, so the test against the recursive list lets the asset
    through: it is binned, in folder mode and in library mode, and an
    album is created for it. The asset in the subfolder [/raw/2023] is
    skipped. *)
Theorem recursive_entry_folder_is_binned :
  let a folder := args.mk None None folder [Pathlib.of_string "/raw/*"] false false in
  let x := mkAsset "1" "L1" "/raw/a.jpg" in
  let y := mkAsset "2" "L1" "/raw/2023/b.jpg" in
  let s := Ideal.mkState [mkLibrary "L1" "Library One"] [x; y] ∅ in
  skip_paths (a true) = mkSkipPaths [] [mkPath "/" ["raw"]]
  ∧ folder_of x = mkPath "/" ["raw"]
  ∧ folder_of x ∈ recursive (skip_paths (a true))
  ∧ Pathlib.parents (folder_of x) = [mkPath "/" []]
  ∧ skipped (skip_paths (a true)) (folder_of x) = false
  ∧ skipped (skip_paths (a true)) (folder_of y) = true
  ∧ run_bins Ideal.server (a true) s = [mkBin "raw" {[ "1" ]} "/raw"]
  ∧ run_bins Ideal.server (a false) s = [mkBin "Library One" {[ "1" ]} "L1"]
  ∧ trace (main Ideal.server (a true) s).2
    = (prologue Ideal.server s ++
       [Sent (ReqCreate "raw" {[ "1" ]}); Printed (CreatedAlbum "raw" 1);
        Printed Blank; Printed Done])%list
  ∧ trace (main Ideal.server (a false) s).2
    = (prologue Ideal.server s ++
       [Sent (ReqCreate "Library One" {[ "1" ]}); Printed (CreatedAlbum "Library One" 1);
        Printed Blank; Printed Done])%list.
Proof. intros a x y s. split_and!; compute_done. Qed.

(** ** Reconciler: what one bin does *)

Ltac unfold_monad :=
  unfold bind, ret, print, emit, set_output, call, lift, raise, fetch,
    init_output, get_output in *.

Section BinFacts.

Context (srv : Server) (a : args.t) (album_names album_ids : list string).

Implicit Types (b : Bin) (w : World srv).

(** [create_album] sends no removal, and leaves the output alone or sets
    the bin's key. *)
Lemma create_album_events b w :
  ∃ evs, trace (create_album srv a album_names b w).2 = (trace w ++ evs)%list
         ∧ removals evs = [].
Proof.
  unfold create_album. destruct (_ && _ && _).
  - unfold_monad. simpl. by eexists [_].
  - unfold_monad. simpl.
    destruct (POST_album srv (album_name b) (asset_ids b) (remote w)) as [[new_id|e] s'] eqn:Hp; simpl.
    + destruct (json_given a); simpl; eexists [_; _]; by rewrite <- !app_assoc.
    + destruct (match body_message e with MsgStr s => _ | MsgList l => _ end); simpl.
      * eexists [_; _]. by rewrite <- !app_assoc.
      * eexists [_; _; _]. by rewrite <- !app_assoc.
Qed.

Lemma update_album_events b id w :
  ∃ evs, trace (update_album srv a album_ids b id w).2 = (trace w ++ evs)%list
         ∧ removals evs = [].
Proof.
  unfold update_album. destruct (_ && _).
  - unfold_monad. simpl. by eexists [_].
  - unfold_monad. simpl.
    destruct (PUT_album_assets srv id (asset_ids b) (remote w)) as [[results|e] s'] eqn:Hp; simpl.
    + destruct (count_success results =? 0)%nat; simpl; eexists [_; _]; by rewrite <- !app_assoc.
    + destruct (match body_message e with MsgStr s => _ | MsgList l => _ end); simpl.
      * eexists [_; _]. by rewrite <- !app_assoc.
      * eexists [_; _; _]. by rewrite <- !app_assoc.
Qed.

(** [clean_album] after a successful fetch: one removal request, for the
    fetched members minus the bin's computed members. *)
Lemma clean_album_fetched b id w current s' :
  GET_album srv id (remote w) = (Ok current, s') →
  ∃ evs, trace (clean_album srv b id w).2 = (trace w ++ evs)%list
         ∧ removals evs = [(id, list_to_set current ∖ asset_ids b)].
Proof.
  intros Hg. unfold clean_album. unfold_monad. simpl. rewrite Hg. simpl.
  destruct (DELETE_album_assets srv id _ s') as [[results|e] s''] eqn:Hd; simpl.
  - destruct (count_success results =? 0)%nat; simpl.
    + eexists [_; _]. by rewrite <- !app_assoc.
    + eexists [_; _; _]. by rewrite <- !app_assoc.
  - eexists [_; _]. by rewrite <- !app_assoc.
Qed.

(** [clean_album] after a failed fetch: the failure is reported and no
    removal is sent. *)
Lemma clean_album_fetch_failed b id w e s' :
  GET_album srv id (remote w) = (Failed e, s') →
  clean_album srv b id w =
    (inr tt, mkWorld s' (json_output w)
               (trace w ++ [Sent (ReqFetch id);
                            Printed (ClearingFailed (album_name b) (status_code e) (reason e));
                            Printed (ServerMessage (body_message e))])).
Proof.
  intros Hg. unfold clean_album. unfold_monad. simpl. rewrite Hg. simpl.
  by rewrite <- !app_assoc.
Qed.

Lemma clean_album_output b id w :
  (clean_album srv b id w).1 = inr tt
  ∧ json_output (clean_album srv b id w).2 = json_output w.
Proof.
  unfold clean_album. unfold_monad. simpl.
  destruct (GET_album srv id (remote w)) as [[current|e] s'] eqn:Hg; simpl; [|done].
  destruct (DELETE_album_assets srv id _ s') as [[results|?] s''] eqn:Hd; simpl; [|done].
  by destruct (count_success results =? 0)%nat.
Qed.

(** [clean_album] creates nothing and adds nothing. *)
Lemma clean_album_no_create b id w :
  ∃ evs, trace (clean_album srv b id w).2 = (trace w ++ evs)%list
         ∧ Forall (λ ev, is_create ev = false ∧ is_added ev = false) evs.
Proof.
  unfold clean_album. unfold_monad. simpl.
  destruct (GET_album srv id (remote w)) as [[current|e] s'] eqn:Hg; simpl.
  - destruct (DELETE_album_assets srv id _ s') as [[results|e] s''] eqn:Hd; simpl.
    + destruct (count_success results =? 0)%nat; simpl; rewrite <- ?app_assoc;
        eexists; (split; [reflexivity|]); by repeat constructor.
    + eexists. rewrite <- !app_assoc. split; [reflexivity|]. by repeat constructor.
  - eexists. rewrite <- !app_assoc. split; [reflexivity|]. by repeat constructor.
Qed.

Lemma clean_album_removals b id w :
  ∃ evs, trace (clean_album srv b id w).2 = (trace w ++ evs)%list
         ∧ ∀ al rm, (al, rm) ∈ removals evs →
             al = id ∧ ∃ current s', GET_album srv id (remote w) = (Ok current, s')
                                      ∧ rm = list_to_set current ∖ asset_ids b.
Proof.
  destruct (GET_album srv id (remote w)) as [[current|e] s'] eqn:Hg.
  - destruct (clean_album_fetched b id w current s' Hg) as (evs & Htr & Hrm).
    exists evs. split; [done|]. rewrite Hrm. intros al rm [= -> ->]%list_elem_of_singleton.
    eauto.
  - rewrite (clean_album_fetch_failed b id w e s' Hg). simpl.
    eexists. split; [done|]. simpl. by intros al rm ?%not_elem_of_nil.
Qed.

End BinFacts.

Lemma removals_app (t1 t2 : list event) :
  removals (t1 ++ t2) = (removals t1 ++ removals t2)%list.
Proof. apply omap_app. Qed.

(** C4: whatever the album holds remotely, the ids sent in a removal
    request while a bin is processed contain no member of the bin's
    computed member set: the ids sent are the fetched members minus the
    computed member set. *)
Theorem removal_never_hits_computed_members
    (srv : Server) (a : args.t) (album_names album_ids : list string)
    (layout : option (gmap string jvalue)) (b : Bin) (w : World srv) :
  ∃ evs,
    trace (reconcile_bin srv a album_names album_ids layout b w).2 = (trace w ++ evs)%list
    ∧ ∀ al rm, (al, rm) ∈ removals evs →
        (∀ i, i ∈ asset_ids b → i ∉ rm)
        ∧ ∃ current s', GET_album srv al (remote w) = (Ok current, s')
                        ∧ rm = list_to_set current ∖ asset_ids b.
Proof.
  assert (∀ w0 : World srv, trace w0 = trace w →
            ∃ evs, trace (create_album srv a album_names b w0).2 = (trace w ++ evs)%list
                   ∧ ∀ al rm, (al, rm) ∈ removals evs →
                       (∀ i, i ∈ asset_ids b → i ∉ rm)
                       ∧ ∃ current s', GET_album srv al (remote w) = (Ok current, s')
                                       ∧ rm = list_to_set current ∖ asset_ids b) as Hcreate.
  { intros w0 Htr. destruct (create_album_events srv a album_names b w0) as (evs & Hevs & Hrm).
    exists evs. rewrite Hevs, Htr. split; [done|]. rewrite Hrm.
    by intros al rm ?%not_elem_of_nil. }
  unfold reconcile_bin. unfold bind at 1. unfold set_output at 1.
  destruct layout as [t|]; [|by apply Hcreate].
  destruct (t !! update_key b) as [[id|]|]; [|by apply Hcreate..].
  case_bool_decide; [|by apply Hcreate].
  unfold bind.
  set (w0 := mkWorld (remote w) (<[update_key b:=JEmptyObject]> (json_output w)) (trace w)).
  assert (∃ evs1 w1, (if args.clean_update a then clean_album srv b id else ret tt) w0 = (inr tt, w1)
            ∧ trace w1 = (trace w ++ evs1)%list
            ∧ ∀ al rm, (al, rm) ∈ removals evs1 →
                ∃ current s', GET_album srv al (remote w) = (Ok current, s')
                              ∧ rm = list_to_set current ∖ asset_ids b) as (evs1 & w1 & -> & Htr1 & Hrm1).
  { destruct (args.clean_update a).
    - destruct (clean_album_removals srv b id w0) as (evs & Htr & Hrm).
      destruct (clean_album_output srv b id w0) as [Hres _].
      exists evs, (clean_album srv b id w0).2. split; [by rewrite <- Hres; destruct (clean_album _ _ _ _)|].
      split; [done|]. intros al rm Hin. destruct (Hrm al rm Hin) as (-> & ?). done.
    - exists [], w0. unfold ret. split; [done|]. split; [by rewrite app_nil_r|].
      by intros al rm ?%not_elem_of_nil. }
  unfold set_output.
  set (w2 := mkWorld _ _ _).
  destruct (update_album_events srv a album_ids b id w2) as (evs2 & Htr2 & Hrm2).
  exists (evs1 ++ evs2)%list. rewrite Htr2. subst w2. simpl. rewrite Htr1, app_assoc.
  split; [done|]. rewrite removals_app, Hrm2, app_nil_r.
  intros al rm Hin. destruct (Hrm1 al rm Hin) as (current & s' & Hg & ->).
  split; [set_solver|eauto].
Qed.

(** C5 (as the code has it): what [clean_album] sends is decided by the
    fetch alone. After a successful fetch of the album's members it sends
    exactly one removal request, for exactly the fetched members minus
    the computed member set, also when that difference is empty; after a
    failed fetch it sends no removal request. *)
Theorem clean_sends_the_difference
    (srv : Server) (b : Bin) (id : string) (w : World srv) :
  ∃ evs, trace (clean_album srv b id w).2 = (trace w ++ evs)%list
         ∧ removals evs
           = match (GET_album srv id (remote w)).1 with
             | Ok current => [(id, list_to_set current ∖ asset_ids b)]
             | Failed _ => []
             end.
Proof.
  destruct (GET_album srv id (remote w)) as [[current|e] s'] eqn:Hg; cbn [fst].
  - by apply (clean_album_fetched srv b id w current s').
  - rewrite (clean_album_fetch_failed srv b id w e s' Hg). by eexists.
Qed.

(** C5, as stated, fails: the album holds exactly the computed members,
    the fetch succeeds, the difference is empty, and a removal request
    (for no ids) is sent all the same. *)
Lemma clean_sends_empty_removal :
  let s := Ideal.mkState [] [] {[ "A1" := ("trip", {[ "1" ]}) ]} in
  let b := mkBin "trip" {[ "1" ]} "/pics/trip" in
  GET_album Ideal.server "A1" s = (Ok ["1"], s)
  ∧ (list_to_set ["1"] ∖ asset_ids b : gset string) = ∅
  ∧ trace (clean_album Ideal.server b "A1" (@mkWorld Ideal.server s ∅ [])).2
    = [Sent (ReqFetch "A1"); Sent (ReqRemove "A1" ∅)].
Proof. intros s b. split_and!; compute_done. Qed.

(** Both outcomes of the fetch on the reference service: the album [A1]
    holds a member the bin does not have; the album [A2] does not exist. *)
Lemma clean_sends_the_difference_witness :
  let s := Ideal.mkState [] [] {[ "A1" := ("trip", {[ "1"; "2" ]}) ]} in
  let b := mkBin "trip" {[ "1" ]} "/pics/trip" in
  (∃ evs, trace (clean_album Ideal.server b "A1" (@mkWorld Ideal.server s ∅ [])).2 = ([] ++ evs)%list
          ∧ removals evs = [("A1", {[ "2" ]})])
  ∧ (∃ evs, trace (clean_album Ideal.server b "A2" (@mkWorld Ideal.server s ∅ [])).2 = ([] ++ evs)%list
            ∧ removals evs = []).
Proof.
  intros s b. split.
  - destruct (clean_sends_the_difference Ideal.server b "A1" (@mkWorld Ideal.server s ∅ []))
      as (evs & Htr & Hrm).
    exists evs. split; [exact Htr|]. rewrite Hrm. compute_done.
  - destruct (clean_sends_the_difference Ideal.server b "A2" (@mkWorld Ideal.server s ∅ []))
      as (evs & Htr & Hrm).
    exists evs. split; [exact Htr|]. rewrite Hrm. compute_done.
Defined.

(** C7: the label of a folder bin is [path.stem], not the folder's base
    name: for the folder [/pics/trip.2023] the album is created and
    reported as ["trip"]. *)
Theorem folder_label_is_stem_not_name :
  let asset := mkAsset "1" "L1" "/pics/trip.2023/a.jpg" in
  let s := Ideal.mkState [mkLibrary "L1" "Library One"] [asset] ∅ in
  let a := args.mk None None true [] false false in
  Pathlib.name (folder_of asset) = "trip.2023"
  ∧ List.map album_name (run_bins Ideal.server a s) = ["trip"]
  ∧ trace (main Ideal.server a s).2
    = [Printed MakingAPIRequests; Printed Blank; Sent ReqLibraries;
       Printed (Found 1 "Libraries"); Sent ReqAlbums; Printed (Found 0 "Albums");
       Sent ReqAssets; Printed (Found 1 "Assets"); Printed Blank;
       Sent (ReqCreate "trip" {[ "1" ]}); Printed (CreatedAlbum "trip" 1);
       Printed Blank; Printed Done].
Proof. intros asset s a. split_and!; compute_done. Qed.

(** ** The script as a whole *)

Lemma main_unfold (srv : Server) (a : args.t) (s : srv_state srv) :
  main srv a s =
  match load_json a with
  | inl e => (inl e, mkWorld s ∅ [])
  | inr l =>
      match library_filter a (GET_library srv s) with
      | inl item =>
          (inl (SystemExit None),
           mkWorld s ∅ [Printed MakingAPIRequests; Printed Blank; Sent ReqLibraries;
                        Printed (Found (length (GET_library srv s)) "Libraries");
                        Printed (UnableToFindLibrary item)])
      | inr filter =>
          match run_loop srv a s (layout a l)
                  (bins a (GET_library srv s) filter (GET_asset srv s))
                  (mkWorld s (default ∅ (layout a l)) (prologue srv s)) with
          | (inl e, w1) => (inl e, w1)
          | (inr _, w1) =>
              (inr (save a l (json_output w1)),
               mkWorld (remote w1) (json_output w1) (trace w1 ++ [Printed Blank; Printed Done]))
          end
      end
  end.
Proof.
  unfold main, script, run_loop, run_album_names, run_album_ids, prologue.
  unfold bind at 1. unfold lift at 1.
  destruct (load_json a) as [e|l]; [done|].
  unfold_monad. simpl.
  destruct (library_filter a (GET_library srv s)) as [item|filter]; simpl; [done|].
  destruct (for_each _ _ _) as [[e|[]] w1]; simpl; [done|].
  by rewrite <- !app_assoc.
Qed.

(** C8 (as the code has it): loading the persisted file. An absent file
    whose directory exists leaves both tables unset, which reconciles
    every bin as an empty table does; an absent file whose directory is
    missing, and a file that does not parse, stop the run before anything
    is sent or printed: the first with the exit message, the second with
    the parser's exception. *)
Theorem load_of_persisted_file (srv : Server) (a : args.t) (s : srv_state srv) :
  (args.json a = Some FileMissing →
     load_json a = inr (mkLoaded None None None)
     ∧ ∀ names ids b w,
         reconcile_bin srv a names ids None b w = reconcile_bin srv a names ids (Some ∅) b w)
  ∧ (args.json a = Some ParentMissing →
       main srv a s
       = (inl (SystemExit (Some "The given json path is invalid.")), mkWorld s ∅ []))
  ∧ (args.json a = Some FileInvalid →
       main srv a s = (inl JSONDecodeError, mkWorld s ∅ [])).
Proof.
  split_and!.
  - intros Hj. unfold load_json. rewrite Hj. split; [done|].
    intros names ids b w. unfold reconcile_bin. by rewrite lookup_empty.
  - intros Hj. rewrite main_unfold. unfold load_json. by rewrite Hj.
  - intros Hj. rewrite main_unfold. unfold load_json. by rewrite Hj.
Qed.

(** C8, as stated, fails: on a file that exists and does not parse the
    load raises instead of yielding an empty table, and the run stops. *)
Lemma malformed_file_aborts :
  let a := args.mk (Some FileInvalid) None true [] false false in
  let s := Ideal.mkState [] [] ∅ in
  load_json a = inl JSONDecodeError
  ∧ main Ideal.server a s = (inl JSONDecodeError, @mkWorld Ideal.server s ∅ []).
Proof. split; reflexivity. Qed.

Lemma load_of_persisted_file_witness :
  let s := Ideal.mkState [] [] ∅ in
  let a j := args.mk (Some j) None true [] false false in
  load_json (a FileMissing) = inr (mkLoaded None None None)
  ∧ main Ideal.server (a ParentMissing) s
    = (inl (SystemExit (Some "The given json path is invalid.")), @mkWorld Ideal.server s ∅ [])
  ∧ main Ideal.server (a FileInvalid) s = (inl JSONDecodeError, @mkWorld Ideal.server s ∅ []).
Proof.
  intros s a. split_and!.
  - apply (load_of_persisted_file Ideal.server (a FileMissing) s). reflexivity.
  - apply (load_of_persisted_file Ideal.server (a ParentMissing) s). reflexivity.
  - apply (load_of_persisted_file Ideal.server (a FileInvalid) s). reflexivity.
Defined.

Lemma main_completed (srv : Server) (a : args.t) (s : srv_state srv) od w :
  main srv a s = (inr od, w) →
  ∃ l filter w1,
    load_json a = inr l
    ∧ library_filter a (GET_library srv s) = inr filter
    ∧ run_loop srv a s (layout a l) (bins a (GET_library srv s) filter (GET_asset srv s))
        (mkWorld s (default ∅ (layout a l)) (prologue srv s)) = (inr tt, w1)
    ∧ w = mkWorld (remote w1) (json_output w1) (trace w1 ++ [Printed Blank; Printed Done])
    ∧ od = save a l (json_output w1).
Proof.
  rewrite main_unfold.
  destruct (load_json a) as [e|l]; [done|].
  destruct (library_filter a (GET_library srv s)) as [item|filter]; [done|].
  destruct (run_loop _ _ _ _ _ _) as [[e|[]] w1] eqn:Hloop; [done|].
  intros [= <- <-]. by exists l, filter, w1.
Qed.

(** C9: the document written at the end of a run is the loaded document
    with the table of the active layout mode replaced by the run's output
    mapping; every other top-level entry, the table of the other layout
    mode among them, is written back as it was loaded. *)
Theorem save_overwrites_only_active_table
    (srv : Server) (a : args.t) (s : srv_state srv) (old d : document) (w : World srv) :
  args.json a = Some (FileDocument old) →
  main srv a s = (inr (Some d), w) →
  d !! active_key a = Some (json_output w)
  ∧ (∀ k, k ≠ active_key a → d !! k = old !! k)
  ∧ d !! (if args.folder_layout a then "name_layout" else "folder_layout")
    = old !! (if args.folder_layout a then "name_layout" else "folder_layout").
Proof.
  intros Hj (l & filter & w1 & Hl & _ & _ & -> & Hsave)%main_completed.
  unfold load_json in Hl. rewrite Hj in Hl. injection Hl as <-.
  unfold save, json_given in Hsave. rewrite Hj in Hsave. simpl in Hsave.
  injection Hsave as ->. unfold active_key.
  destruct (args.folder_layout a); simpl.
  - split_and!; [by rewrite lookup_insert_eq|intros; by rewrite lookup_insert_ne..].
  - split_and!; [by rewrite lookup_insert_eq|intros; by rewrite lookup_insert_ne..].
Qed.

Lemma save_overwrites_only_active_table_witness :
  let old : document :=
    {[ "folder_layout" := {[ "/pics/trip" := JStr "A1" ]};
       "name_layout" := {[ "L1" := JStr "A7" ]} ]} in
  let a := args.mk (Some (FileDocument old)) None true [] false false in
  let s := Ideal.mkState [mkLibrary "L1" "Library One"]
             [mkAsset "1" "L1" "/pics/trip/a.jpg"] {[ "A1" := ("trip", ∅) ]} in
  let d : document :=
    {[ "folder_layout" := {[ "/pics/trip" := JStr "A1" ]};
       "name_layout" := {[ "L1" := JStr "A7" ]} ]} in
  (main Ideal.server a s).1 = inr (Some d)
  ∧ d !! "folder_layout" = Some (json_output (main Ideal.server a s).2)
  ∧ d !! "name_layout" = old !! "name_layout".
Proof.
  intros old a s d.
  assert (main Ideal.server a s = (inr (Some d), (main Ideal.server a s).2)) as Hmain
    by compute_done.
  split; [by rewrite Hmain|].
  destruct (save_overwrites_only_active_table Ideal.server a s old d _ eq_refl Hmain)
    as (Hact & _ & Hother).
  split; [exact Hact|exact Hother].
Defined.

(** ** The output mapping *)

Section Output.

Context (srv : Server) (a : args.t) (album_names album_ids : list string).

Implicit Types (b : Bin) (w : World srv).

Lemma create_album_other_keys b w k :
  k ≠ update_key b →
  json_output (create_album srv a album_names b w).2 !! k = json_output w !! k.
Proof.
  intros Hk. unfold create_album. destruct (_ && _ && _); unfold_monad; simpl; [done|].
  destruct (POST_album srv _ _ _) as [[new_id|e] s']; simpl.
  - destruct (json_given a); simpl; [|done]. by rewrite lookup_insert_ne.
  - by destruct (match body_message e with MsgStr _ => _ | MsgList _ => _ end).
Qed.

Lemma update_album_output b id w :
  json_output (update_album srv a album_ids b id w).2 = json_output w.
Proof.
  unfold update_album. destruct (_ && _); unfold_monad; simpl; [done|].
  destruct (PUT_album_assets srv _ _ _) as [[results|e] s']; simpl.
  - by destruct (count_success results =? 0)%nat.
  - by destruct (match body_message e with MsgStr _ => _ | MsgList _ => _ end).
Qed.

(** A bound bin: the output maps its key to the album id once the bin is
    processed, whatever the clean and update steps did. *)
Lemma reconcile_bin_bound (t : gmap string jvalue) b id w :
  t !! update_key b = Some (JStr id) → id ∈ album_ids →
  json_output (reconcile_bin srv a album_names album_ids (Some t) b w).2 !! update_key b
  = Some (JStr id).
Proof.
  intros Ht Hid. unfold reconcile_bin. rewrite Ht, bool_decide_eq_true_2 by done.
  unfold bind at 1. unfold set_output at 1. unfold bind at 1.
  set (w0 := mkWorld _ _ _).
  assert (∃ w1, (if args.clean_update a then clean_album srv b id else ret tt) w0 = (inr tt, w1))
    as [w1 ->].
  { destruct (args.clean_update a); [|by eexists].
    destruct (clean_album_output srv b id w0) as [Hres _].
    destruct (clean_album srv b id w0) as [r w1]. simpl in Hres. subst r. by eexists. }
  unfold bind, set_output. rewrite update_album_output. simpl. apply lookup_insert_eq.
Qed.

Lemma reconcile_bin_other_keys layout b w k :
  k ≠ update_key b →
  json_output (reconcile_bin srv a album_names album_ids layout b w).2 !! k = json_output w !! k.
Proof.
  intros Hk.
  assert (∀ w0 : World srv, json_output w0 = <[update_key b := JEmptyObject]> (json_output w) →
            json_output (create_album srv a album_names b w0).2 !! k = json_output w !! k)
    as Hcreate.
  { intros w0 Hw0. rewrite create_album_other_keys, Hw0 by done. by rewrite lookup_insert_ne. }
  unfold reconcile_bin. unfold bind at 1. unfold set_output at 1.
  destruct layout as [t|]; [|by apply Hcreate].
  destruct (t !! update_key b) as [[id|]|]; [|by apply Hcreate..].
  case_bool_decide; [|by apply Hcreate].
  unfold bind at 1.
  set (w0 := mkWorld _ _ _).
  assert (∃ w1, (if args.clean_update a then clean_album srv b id else ret tt) w0 = (inr tt, w1)
                ∧ json_output w1 = json_output w0) as (w1 & -> & Hw1).
  { destruct (args.clean_update a); [|by eexists].
    destruct (clean_album_output srv b id w0) as [Hres Hout].
    destruct (clean_album srv b id w0) as [r w1]. simpl in *. subst r. by eexists. }
  unfold bind, set_output. rewrite update_album_output. simpl.
  rewrite lookup_insert_ne, Hw1 by done. subst w0. simpl. by rewrite lookup_insert_ne.
Qed.

(** The loop keeps what a bound key is mapped to, and maps the key of
    every bound bin it passes. *)
Lemma for_each_bound (t : gmap string jvalue) k id (bs : list Bin) w r w' :
  t !! k = Some (JStr id) → id ∈ album_ids →
  for_each (reconcile_bin srv a album_names album_ids (Some t)) bs w = (r, w') →
  json_output w !! k = Some (JStr id) ∨ (r = inr tt ∧ k ∈ update_key <$> bs) →
  json_output w' !! k = Some (JStr id).
Proof.
  intros Ht Hid. revert w. induction bs as [|b bs IH]; intros w; simpl.
  - unfold ret. intros [= <- <-] [?|[_ ?%not_elem_of_nil]]; done.
  - unfold bind.
    destruct (reconcile_bin _ _ _ _ _ b w) as [[e|[]] w1] eqn:Hb.
    + intros [= <- <-] [Hk|[? _]]; [|done].
      destruct (decide (k = update_key b)) as [->|Hne].
      * replace w1 with (reconcile_bin srv a album_names album_ids (Some t) b w).2 by by rewrite Hb.
        by apply reconcile_bin_bound.
      * replace w1 with (reconcile_bin srv a album_names album_ids (Some t) b w).2 by by rewrite Hb.
        by rewrite reconcile_bin_other_keys.
    + intros Hrest Hk. apply (IH _ Hrest).
      destruct (decide (k = update_key b)) as [->|Hne].
      * left. replace w1 with (reconcile_bin srv a album_names album_ids (Some t) b w).2 by by rewrite Hb.
        by apply reconcile_bin_bound.
      * destruct Hk as [Hk|[-> Hk]].
        -- left. replace w1 with (reconcile_bin srv a album_names album_ids (Some t) b w).2 by by rewrite Hb.
           by rewrite reconcile_bin_other_keys.
        -- right. split; [done|]. set_solver.
Qed.

End Output.

(** C10: for every bin of a run whose persisted album id is among the
    album ids listed at the start of the run, the output mapping of the
    completed run, and the table written to the file, map the bin's key
    to that album id; this holds for every server, so also when the
    update is skipped or the add request fails. *)
Theorem bound_bin_is_recorded
    (srv : Server) (a : args.t) (s : srv_state srv) (od : option document) (w : World srv)
    (t : gmap string jvalue) (b : Bin) (id : string) :
  main srv a s = (inr od, w) →
  run_layout a = Some t →
  b ∈ run_bins srv a s →
  t !! update_key b = Some (JStr id) →
  id ∈ run_album_ids srv s →
  json_output w !! update_key b = Some (JStr id)
  ∧ (∀ d, od = Some d →
       ∃ out, d !! active_key a = Some out ∧ out !! update_key b = Some (JStr id)).
Proof.
  intros (l & filter & w1 & Hl & Hf & Hloop & -> & ->)%main_completed Hlay Hb Ht Hid.
  unfold run_layout in Hlay. rewrite Hl in Hlay.
  unfold run_bins in Hb. rewrite Hf in Hb.
  unfold run_loop in Hloop. rewrite Hlay in Hloop.
  assert (json_output w1 !! update_key b = Some (JStr id)) as Hout.
  { eapply for_each_bound; [exact Ht|exact Hid|exact Hloop|].
    right. split; [done|]. by apply list_elem_of_fmap_2. }
  split; [done|].
  intros d. unfold save. destruct (json_given a); [|done]. intros [= <-].
  exists (json_output w1). split; [|done].
  unfold active_key. destruct (args.folder_layout a); apply lookup_insert_eq.
Qed.

Lemma bound_bin_is_recorded_witness :
  let old : document := {[ "folder_layout" := {[ "/pics/trip" := JStr "A1" ]} ]} in
  let a := args.mk (Some (FileDocument old)) None true [] false false in
  let srv := Down.server [mkLibrary "L1" "Library One"] [mkAlbum "A1" "trip"]
               [mkAsset "1" "L1" "/pics/trip/a.jpg"]
               (Failed (mkFailure 500 "Internal Server Error" (MsgStr "down")))
               (mkFailure 500 "Internal Server Error" (MsgStr "down")) in
  (main srv a tt).1 = inr (Some old)
  ∧ List.filter is_failure_report (trace (main srv a tt).2)
    = [Printed (UpdatingFailed "trip" 500 "Internal Server Error")]
  ∧ json_output (main srv a tt).2 !! "/pics/trip" = Some (JStr "A1").
Proof.
  intros old a srv.
  assert (main srv a tt = (inr (Some old), (main srv a tt).2)) as Hmain
    by compute_done.
  split; [by rewrite Hmain|]. split; [compute_done|].
  apply (bound_bin_is_recorded srv a tt (Some old) _ {[ "/pics/trip" := JStr "A1" ]}
           (mkBin "trip" {[ "1" ]} "/pics/trip") "A1" Hmain).
  - compute_done.
  - compute_done.
  - compute_done.
  - compute_done.
Defined.

(** ** Stale mapping entries *)


Section Commute.

Context {srv : Server} (f : gmap string jvalue → gmap string jvalue).

Lemma commutes_ret {A} (x : A) : commutes f (ret (srv:=srv) x).
Proof. done. Qed.

Lemma commutes_lift {A} (r : exn + A) : commutes f (lift (srv:=srv) r).
Proof. done. Qed.

Lemma commutes_print l : commutes f (print (srv:=srv) l).
Proof. done. Qed.

Lemma commutes_call {A} r (op : srv_state srv → response A * srv_state srv) :
  commutes f (call r op).
Proof. intros w. unfold call, map_output. simpl. by destruct (op (remote w)). Qed.

Lemma commutes_set_output k v :
  (∀ m, <[k := v]> (f m) = f (<[k := v]> m)) → commutes f (set_output (srv:=srv) k v).
Proof. intros Hf w. unfold set_output, map_output. simpl. by rewrite Hf. Qed.

Lemma commutes_bind {A B} (m : M srv A) (k : A → M srv B) :
  commutes f m → (∀ x, commutes f (k x)) → commutes f (bind m k).
Proof.
  intros Hm Hk w. unfold bind. rewrite Hm.
  destruct (m w) as [[e|x] w1]; simpl; [done|]. apply Hk.
Qed.

Lemma commutes_for_each {A} (body : A → M srv unit) (l : list A) :
  (∀ x, x ∈ l → commutes f (body x)) → commutes f (for_each body l).
Proof.
  induction l as [|x l IH]; intros Hb; simpl; [apply commutes_ret|].
  apply commutes_bind; [apply Hb; left|]. intros _. apply IH. intros y Hy. apply Hb. by right.
Qed.

End Commute.

Section Stale.

Context (srv : Server) (a : args.t) (album_names album_ids : list string).

Implicit Types (b : Bin) (w : World srv) (t : gmap string jvalue).

Lemma reconcile_bin_stale t b v :
  t !! update_key b = Some v → stale album_ids v →
  reconcile_bin srv a album_names album_ids (Some t) b
  = bind (set_output (update_key b) JEmptyObject) (λ _, create_album srv a album_names b).
Proof.
  intros Ht Hv. unfold reconcile_bin. rewrite Ht.
  destruct v as [id|]; [|done].
  by rewrite bool_decide_eq_false_2 by by apply Hv.
Qed.

Lemma reconcile_bin_no_entry t b :
  t !! update_key b = None →
  reconcile_bin srv a album_names album_ids (Some t) b
  = bind (set_output (update_key b) JEmptyObject) (λ _, create_album srv a album_names b).
Proof. intros Ht. unfold reconcile_bin. by rewrite Ht. Qed.

(** Dropping a stale entry from the table changes the processing of no bin. *)
Lemma reconcile_bin_delete_stale t k v b :
  t !! k = Some v → stale album_ids v →
  reconcile_bin srv a album_names album_ids (Some (delete k t)) b
  = reconcile_bin srv a album_names album_ids (Some t) b.
Proof.
  intros Ht Hv. destruct (decide (update_key b = k)) as [<-|Hne].
  - rewrite (reconcile_bin_stale t b v Ht Hv).
    apply reconcile_bin_no_entry, lookup_delete_eq.
  - unfold reconcile_bin. by rewrite lookup_delete_ne.
Qed.

Ltac commutes_step :=
  first [ apply commutes_ret | apply commutes_lift | apply commutes_print
        | apply commutes_call | apply commutes_bind | intros ? ].

Lemma create_album_commutes f b :
  (∀ v m, <[update_key b := v]> (f m) = f (<[update_key b := v]> m)) →
  commutes f (create_album srv a album_names b).
Proof.
  intros Hf. unfold create_album. destruct (_ && _ && _); [apply commutes_print|].
  apply commutes_bind; [apply commutes_call|]. intros [new_id|e].
  - apply commutes_bind; [apply commutes_print|]. intros _.
    destruct (json_given a); [by apply commutes_set_output|apply commutes_ret].
  - repeat commutes_step.
Qed.

Lemma update_album_commutes f b id : commutes f (update_album srv a album_ids b id).
Proof.
  unfold update_album. destruct (_ && _); [apply commutes_print|].
  apply commutes_bind; [apply commutes_call|]. intros [results|e].
  - simpl. destruct (_ =? _)%nat; apply commutes_print.
  - repeat commutes_step.
Qed.

Lemma clean_album_commutes f b id : commutes f (clean_album srv b id).
Proof.
  unfold clean_album.
  apply commutes_bind; [apply commutes_call|]. intros [current|e].
  - apply commutes_bind; [apply commutes_call|]. intros [results|?]; [|apply commutes_ret].
    simpl. destruct (negb _); [apply commutes_print|apply commutes_ret].
  - repeat commutes_step.
Qed.

Lemma reconcile_bin_commutes f layout b :
  (∀ v m, <[update_key b := v]> (f m) = f (<[update_key b := v]> m)) →
  commutes f (reconcile_bin srv a album_names album_ids layout b).
Proof.
  intros Hf. unfold reconcile_bin.
  apply commutes_bind; [by apply commutes_set_output|]. intros _.
  destruct layout as [t|]; [|by apply create_album_commutes].
  destruct (t !! update_key b) as [[id|]|]; [|by apply create_album_commutes..].
  case_bool_decide; [|by apply create_album_commutes].
  apply commutes_bind.
  { destruct (args.clean_update a); [apply clean_album_commutes|apply commutes_ret]. }
  intros _. apply commutes_bind; [by apply commutes_set_output|].
  intros _. apply update_album_commutes.
Qed.

(** The first thing a bin does is to overwrite its own key. *)
Lemma reconcile_bin_drop_own_key layout b w :
  reconcile_bin srv a album_names album_ids layout b (map_output (delete (update_key b)) w)
  = reconcile_bin srv a album_names album_ids layout b w.
Proof.
  unfold reconcile_bin. unfold bind at 1 3. unfold set_output at 1 3. unfold map_output. simpl.
  by rewrite insert_delete_eq.
Qed.

(** The loop from an output mapping without the entry under [k]: the same
    outcome, server state and trace, and once it has passed a bin with key
    [k] and completed, the same output mapping. *)
Lemma for_each_drop_key layout k (bs : list Bin) w :
  let r1 := for_each (reconcile_bin srv a album_names album_ids layout) bs w in
  let r2 := for_each (reconcile_bin srv a album_names album_ids layout) bs
              (map_output (delete k) w) in
  r2.1 = r1.1 ∧ remote r2.2 = remote r1.2 ∧ trace r2.2 = trace r1.2
  ∧ (r1.1 = inr tt → k ∈ update_key <$> bs → json_output r2.2 = json_output r1.2).
Proof.
  revert w. induction bs as [|b bs IH]; intros w; simpl.
  - split_and!; [done..|]. by intros _ ?%not_elem_of_nil.
  - unfold bind. destruct (decide (k = update_key b)) as [->|Hne].
    + rewrite reconcile_bin_drop_own_key. done.
    + rewrite reconcile_bin_commutes by (intros; by rewrite delete_insert_ne).
      destruct (reconcile_bin _ _ _ _ _ b w) as [[e|[]] w1]; simpl; [done|].
      destruct (IH w1) as (H1 & H2 & H3 & H4). split_and!; [done..|].
      intros Hr Hk. apply H4; [done|]. set_solver.
Qed.

End Stale.

Lemma for_each_ext {srv : Server} {A} (f g : A → M srv unit) (l : list A) :
  (∀ x, f x = g x) → for_each f l = for_each g l.
Proof. intros Hfg. induction l as [|x l IH]; simpl; [done|]. by rewrite Hfg, IH. Qed.

(** Which file the configured path holds matters to a bin only through
    the table it is reconciled against. *)
Lemma reconcile_bin_with_json srv a j names ids layout b :
  json_given a = true →
  reconcile_bin srv (with_json a (Some j)) names ids layout b
  = reconcile_bin srv a names ids layout b.
Proof.
  intros Hj. unfold reconcile_bin, create_album, update_album.
  change (json_given (with_json a (Some j))) with true.
  change (args.skip_existing (with_json a (Some j))) with (args.skip_existing a).
  change (args.clean_update (with_json a (Some j))) with (args.clean_update a).
  by rewrite Hj.
Qed.

(** C1: a bin whose persisted entry is no album id of the album list
    fetched at the start of the run is processed as a bin without entry:
    its key is reset and [create_album] (with its skip-existing guard)
    runs; and the whole run has the same outcome, written document
    included, leaves the same server state and the same trace as the run
    on the persisted table without that entry. *)
Theorem stale_entry_is_no_entry
    (srv : Server) (a : args.t) (s : srv_state srv) (doc : document)
    (t : gmap string jvalue) (k : string) (v : jvalue) :
  args.json a = Some (FileDocument doc) →
  doc !! active_key a = Some t →
  t !! k = Some v →
  stale (run_album_ids srv s) v →
  k ∈ update_key <$> run_bins srv a s →
  let a' := with_json a (Some (FileDocument (<[active_key a := delete k t]> doc))) in
  (∀ b w, update_key b = k →
     reconcile_bin srv a (run_album_names srv s) (run_album_ids srv s) (Some t) b w
     = bind (set_output k JEmptyObject)
            (λ _, create_album srv a (run_album_names srv s) b) w
     ∧ reconcile_bin srv a (run_album_names srv s) (run_album_ids srv s) (Some (delete k t)) b w
       = reconcile_bin srv a (run_album_names srv s) (run_album_ids srv s) (Some t) b w)
  ∧ (main srv a' s).1 = (main srv a s).1
  ∧ remote (main srv a' s).2 = remote (main srv a s).2
  ∧ trace (main srv a' s).2 = trace (main srv a s).2.
Proof.
  intros Hj Hdoc Ht Hv Hk a'. split.
  { intros b w <-. split.
    - by rewrite (reconcile_bin_stale srv a _ _ t b v Ht Hv).
    - by rewrite (reconcile_bin_delete_stale srv a _ _ t _ v b Ht Hv). }
  assert (json_given a = true) as Hgiven by (unfold json_given; by rewrite Hj).
  rewrite !main_unfold.
  assert (load_json a = inr (mkLoaded (Some doc) (doc !! "folder_layout") (doc !! "name_layout")))
    as -> by (unfold load_json; by rewrite Hj).
  change (load_json a') with
    (inr (B:=Loaded) (A:=exn)
       (mkLoaded (Some (<[active_key a := delete k t]> doc))
                 (<[active_key a := delete k t]> doc !! "folder_layout")
                 (<[active_key a := delete k t]> doc !! "name_layout"))).
  change (library_filter a' (GET_library srv s)) with (library_filter a (GET_library srv s)).
  unfold run_bins in Hk.
  destruct (library_filter a (GET_library srv s)) as [item|filter]; [done|].
  change (bins a' (GET_library srv s) filter (GET_asset srv s))
    with (bins a (GET_library srv s) filter (GET_asset srv s)).
  set (bs := bins a (GET_library srv s) filter (GET_asset srv s)) in *.
  set (l := mkLoaded (Some doc) _ _).
  set (l' := mkLoaded (Some (<[active_key a := delete k t]> doc)) _ _).
  assert (layout a l = Some t) as Hl.
  { unfold layout, active_key in *. by destruct (args.folder_layout a). }
  assert (layout a' l' = Some (delete k t)) as Hl'.
  { unfold layout, active_key in *. simpl.
    destruct (args.folder_layout a); simpl; by rewrite lookup_insert_eq. }
  rewrite Hl, Hl'. simpl.
  unfold run_loop.
  rewrite (for_each_ext (reconcile_bin srv a' _ _ (Some (delete k t)))
             (reconcile_bin srv a (run_album_names srv s) (run_album_ids srv s) (Some t))).
  2:{ intros b. unfold a'. rewrite reconcile_bin_with_json by done.
      by apply (reconcile_bin_delete_stale srv a _ _ t k v b). }
  destruct (for_each_drop_key srv a (run_album_names srv s) (run_album_ids srv s) (Some t) k bs
              (mkWorld s t (prologue srv s))) as (H1 & H2 & H3 & H4).
  unfold map_output in *. simpl in *.
  destruct (for_each _ bs (mkWorld s (delete k t) _)) as [r2 w2].
  destruct (for_each _ bs (mkWorld s t _)) as [r1 w1].
  simpl in *. subst r2. destruct r1 as [e|[]]; simpl; [done|].
  rewrite H2, H3, (H4 eq_refl Hk). split_and!; [|done..].
  unfold save. change (json_given a') with true. rewrite Hgiven. simpl.
  unfold active_key. destruct (args.folder_layout a); by rewrite insert_insert_eq.
Qed.

Lemma stale_entry_is_no_entry_witness :
  let doc : document := {[ "folder_layout" := {[ "/pics/trip" := JStr "GONE" ]} ]} in
  let a := args.mk (Some (FileDocument doc)) None true [] false false in
  let a' := with_json a (Some (FileDocument
              (<[active_key a := delete "/pics/trip" {[ "/pics/trip" := JStr "GONE" ]}]> doc))) in
  let s := Ideal.mkState [mkLibrary "L1" "Library One"]
             [mkAsset "1" "L1" "/pics/trip/a.jpg"] ∅ in
  (main Ideal.server a' s).1 = (main Ideal.server a s).1
  ∧ remote (main Ideal.server a' s).2 = remote (main Ideal.server a s).2
  ∧ trace (main Ideal.server a' s).2 = trace (main Ideal.server a s).2
  ∧ List.filter is_create (trace (main Ideal.server a s).2)
    = [Sent (ReqCreate "trip" {[ "1" ]})].
Proof.
  intros doc a a' s.
  destruct (stale_entry_is_no_entry Ideal.server a s doc
              {[ "/pics/trip" := JStr "GONE" ]} "/pics/trip" (JStr "GONE"))
    as (_ & H1 & H2 & H3).
  - reflexivity.
  - compute_done.
  - compute_done.
  - intros id [= <-]. compute_done.
  - compute_done.
  - split_and!; [exact H1|exact H2|exact H3|compute_done].
Defined.

(** ** Failed remote calls *)

Section Failures.

Context (srv : Server) (a : args.t) (album_names album_ids : list string).

Implicit Types (b : Bin) (w : World srv) (t : gmap string jvalue).

Lemma create_album_failed b w e s' m ms :
  args.skip_existing a && negb (json_given a) && bool_decide (album_name b ∈ album_names) = false →
  POST_album srv (album_name b) (asset_ids b) (remote w) = (Failed e, s') →
  body_message e = MsgList (m :: ms) →
  create_album srv a album_names b w
  = (inr tt, mkWorld s' (json_output w)
               (trace w ++ [Sent (ReqCreate (album_name b) (asset_ids b));
                            Printed (CreationFailed (album_name b) (status_code e) (reason e));
                            Printed (ServerMessage (MsgStr m))])).
Proof.
  intros Hg Hp Hm. unfold create_album. rewrite Hg. unfold_monad. simpl.
  rewrite Hp, Hm. simpl. by rewrite <- !app_assoc.
Qed.

Lemma update_album_failed b id w e s' m :
  args.skip_existing a && bool_decide (id ∈ album_ids) = false →
  PUT_album_assets srv id (asset_ids b) (remote w) = (Failed e, s') →
  (body_message e = MsgStr m ∨ ∃ ms, body_message e = MsgList (m :: ms)) →
  update_album srv a album_ids b id w
  = (inr tt, mkWorld s' (json_output w)
               (trace w ++ [Sent (ReqAdd id (asset_ids b));
                            Printed (UpdatingFailed (album_name b) (status_code e) (reason e));
                            Printed (ServerMessage (MsgStr m))])).
Proof.
  intros Hg Hp Hm. unfold update_album. rewrite Hg. unfold_monad. simpl.
  rewrite Hp. simpl. destruct Hm as [->|[ms ->]]; simpl; by rewrite <- !app_assoc.
Qed.

End Failures.

(** C6 (as the code has it): a failed create, add or fetch request is
    reported with the status code and reason of the response followed by
    the server message, and the loop goes on with the next bin. After a
    failed create the bin's key holds the placeholder [{}] in the output
    mapping, which the next run treats as no binding. A failed add is
    reported in either mode, whatever the clean step before it did, and
    the bound bin keeps its album id in the output mapping. A failed
    fetch skips the removal only: the update still runs, on an output
    mapping that holds the album id, and keeps it. *)
Theorem failed_calls_are_reported
    (srv : Server) (a : args.t) (album_names album_ids : list string)
    (layout : option (gmap string jvalue)) (b : Bin) (rest : list Bin) (w : World srv)
    (e : failure) (s' : srv_state srv) (m : string) :
  let body := reconcile_bin srv a album_names album_ids layout in
  let k := update_key b in
  (* create *)
  ((layout = None ∨ ∃ t, layout = Some t ∧ (t !! k = None ∨ ∃ v, t !! k = Some v ∧ stale album_ids v)) →
   args.skip_existing a && negb (json_given a) && bool_decide (album_name b ∈ album_names) = false →
   POST_album srv (album_name b) (asset_ids b) (remote w) = (Failed e, s') →
   (∃ ms, body_message e = MsgList (m :: ms)) →
   let w' := mkWorld s' (<[k := JEmptyObject]> (json_output w))
               (trace w ++ [Sent (ReqCreate (album_name b) (asset_ids b));
                            Printed (CreationFailed (album_name b) (status_code e) (reason e));
                            Printed (ServerMessage (MsgStr m))]) in
   body b w = (inr tt, w')
   ∧ for_each body (b :: rest) w = for_each body rest w'
   ∧ stale album_ids JEmptyObject)
  (* add, after the clean step of clean mode or without it *)
  ∧ (∀ t id,
       layout = Some t → t !! k = Some (JStr id) → id ∈ album_ids →
       args.skip_existing a = false →
       let w0 := mkWorld (remote w) (<[k := JEmptyObject]> (json_output w)) (trace w) in
       let wc := if args.clean_update a then (clean_album srv b id w0).2 else w0 in
       PUT_album_assets srv id (asset_ids b) (remote wc) = (Failed e, s') →
       (body_message e = MsgStr m ∨ ∃ ms, body_message e = MsgList (m :: ms)) →
       let w' := mkWorld s' (<[k := JStr id]> (<[k := JEmptyObject]> (json_output w)))
                   (trace wc ++ [Sent (ReqAdd id (asset_ids b));
                                 Printed (UpdatingFailed (album_name b) (status_code e) (reason e));
                                 Printed (ServerMessage (MsgStr m))]) in
       body b w = (inr tt, w')
       ∧ for_each body (b :: rest) w = for_each body rest w'
       ∧ ∃ evs, trace wc = (trace w ++ evs)%list
                ∧ (args.clean_update a = false → evs = [])
                ∧ Forall (λ ev, is_create ev = false ∧ is_added ev = false) evs)
  (* fetch *)
  ∧ (∀ t id,
       layout = Some t → t !! k = Some (JStr id) → id ∈ album_ids →
       args.clean_update a = true →
       GET_album srv id (remote w) = (Failed e, s') →
       let wf := mkWorld s' (<[k := JStr id]> (<[k := JEmptyObject]> (json_output w)))
                   (trace w ++ [Sent (ReqFetch id);
                                Printed (ClearingFailed (album_name b) (status_code e) (reason e));
                                Printed (ServerMessage (body_message e))]) in
       body b w = update_album srv a album_ids b id wf
       ∧ json_output (body b w).2 = <[k := JStr id]> (<[k := JEmptyObject]> (json_output w))
       ∧ ((body b w).1 = inr tt → for_each body (b :: rest) w = for_each body rest (body b w).2)).
Proof.
  intros body k. split_and!.
  - intros Hunbound Hg Hp [ms Hm] w'.
    assert (body b w = (inr tt, w')) as Hb.
    { assert (body b = bind (set_output k JEmptyObject)
                            (λ _, create_album srv a album_names b)) as ->.
      { subst body k. destruct Hunbound as [->|(t & -> & [Ht|(v & Ht & Hv)])].
        - done.
        - by apply reconcile_bin_no_entry.
        - by apply (reconcile_bin_stale _ _ _ _ t b v). }
      unfold bind at 1. unfold set_output at 1.
      by rewrite (create_album_failed srv a album_names b _ e s' m ms). }
    split; [done|]. split; [|by intros id ?].
    simpl. unfold bind. by rewrite Hb.
  - intros t id -> Ht Hid Hskip w0 wc Hp Hm w'.
    assert ((if args.clean_update a then clean_album srv b id else ret tt) w0 = (inr tt, wc)
            ∧ json_output wc = <[k := JEmptyObject]> (json_output w)
            ∧ ∃ evs, trace wc = (trace w ++ evs)%list
                     ∧ (args.clean_update a = false → evs = [])
                     ∧ Forall (λ ev, is_create ev = false ∧ is_added ev = false) evs)
      as (Hclean & Hout & Hevs).
    { subst wc. destruct (args.clean_update a).
      - destruct (clean_album_output srv b id w0) as [Hres Hout].
        split; [by destruct (clean_album srv b id w0); simpl in *; subst|].
        split; [done|].
        destruct (clean_album_no_create srv b id w0) as (evs & Htr & Hevs).
        exists evs. split; [done|]. split; [done|done].
      - split; [done|]. split; [done|]. exists []. by rewrite app_nil_r. }
    assert (body b w = (inr tt, w')) as Hb.
    { subst body k. unfold reconcile_bin. rewrite Ht, bool_decide_eq_true_2 by done.
      unfold bind at 1. unfold set_output at 1. fold w0. unfold bind at 1. rewrite Hclean.
      unfold bind, set_output.
      rewrite (update_album_failed srv a album_ids b id _ e s' m); [|by rewrite Hskip|done..].
      cbn [remote json_output trace]. by rewrite Hout. }
    split; [done|]. split; [|done]. simpl. unfold bind. by rewrite Hb.
  - intros t id -> Ht Hid Hclean Hg wf.
    assert (body b w = update_album srv a album_ids b id wf) as Hb.
    { subst body k. unfold reconcile_bin. rewrite Ht, bool_decide_eq_true_2, Hclean by done.
      unfold bind at 1. unfold set_output at 1. unfold bind at 1.
      rewrite (clean_album_fetch_failed srv b id _ e s') by done.
      unfold bind, set_output. by cbn [remote json_output trace]. }
    split; [done|]. split.
    + rewrite Hb. by rewrite (update_album_output srv a album_ids b id wf).
    + intros Hres. simpl. unfold bind.
      destruct (body b w) as [[e1|[]] w1]; [done|done].
Qed.

(** C6, as stated, fails: with clean mode on and a bound bin, the removal
    request and the add request both fail; the failed removal is not
    reported at all, and the bin's key is not absent from the output
    mapping: it holds the album id, in the written document too. *)
Lemma failed_calls_counterexample :
  let doc : document := {[ "folder_layout" := {[ "/pics/trip" := JStr "A1" ]} ]} in
  let a := args.mk (Some (FileDocument doc)) None true [] true false in
  let e := mkFailure 500 "Internal Server Error" (MsgStr "down") in
  let srv := Down.server [mkLibrary "L1" "Library One"] [mkAlbum "A1" "trip"]
               [mkAsset "1" "L1" "/pics/trip/a.jpg"] (Ok ["9"]) e in
  DELETE_album_assets srv "A1" {[ "9" ]} tt = (Failed e, tt)
  ∧ PUT_album_assets srv "A1" {[ "1" ]} tt = (Failed e, tt)
  ∧ (main srv a tt).1 = inr (Some doc)
  ∧ trace (main srv a tt).2
    = (prologue srv tt ++
       [Sent (ReqFetch "A1"); Sent (ReqRemove "A1" {[ "9" ]});
        Sent (ReqAdd "A1" {[ "1" ]});
        Printed (UpdatingFailed "trip" 500 "Internal Server Error");
        Printed (ServerMessage (MsgStr "down"));
        Printed Blank; Printed Done])%list
  ∧ json_output (main srv a tt).2 !! "/pics/trip" = Some (JStr "A1").
Proof. intros doc a e srv. split_and!; compute_done. Qed.

(** The four failures on a service that is down: a failed create; a
    failed add without clean mode; a failed fetch followed by a failed
    add; and a failed add after a fetch that succeeded. *)
Lemma failed_calls_are_reported_witness :
  let e := mkFailure 500 "Internal Server Error" (MsgList ["album service is down"]) in
  let srv := Down.server [] [mkAlbum "A1" "trip"] [] (Failed e) e in
  let srv9 := Down.server [] [mkAlbum "A1" "trip"] [] (Ok ["9"]) e in
  let b := mkBin "trip" {[ "1" ]} "/pics/trip" in
  let a clean := args.mk (Some FileMissing) None true [] clean false in
  let t : gmap string jvalue := {[ "/pics/trip" := JStr "A1" ]} in
  let w : World srv := @mkWorld srv tt ∅ [] in
  let w9 : World srv9 := @mkWorld srv9 tt ∅ [] in
  reconcile_bin srv (a false) ["trip"] ["A1"] None b w
  = (inr tt, @mkWorld srv tt {[ "/pics/trip" := JEmptyObject ]}
               [Sent (ReqCreate "trip" {[ "1" ]});
                Printed (CreationFailed "trip" 500 "Internal Server Error");
                Printed (ServerMessage (MsgStr "album service is down"))])
  ∧ reconcile_bin srv (a false) ["trip"] ["A1"] (Some t) b w
    = (inr tt, @mkWorld srv tt {[ "/pics/trip" := JStr "A1" ]}
                 [Sent (ReqAdd "A1" {[ "1" ]});
                  Printed (UpdatingFailed "trip" 500 "Internal Server Error");
                  Printed (ServerMessage (MsgStr "album service is down"))])
  ∧ reconcile_bin srv (a true) ["trip"] ["A1"] (Some t) b w
    = (inr tt, @mkWorld srv tt {[ "/pics/trip" := JStr "A1" ]}
                 [Sent (ReqFetch "A1");
                  Printed (ClearingFailed "trip" 500 "Internal Server Error");
                  Printed (ServerMessage (MsgList ["album service is down"]));
                  Sent (ReqAdd "A1" {[ "1" ]});
                  Printed (UpdatingFailed "trip" 500 "Internal Server Error");
                  Printed (ServerMessage (MsgStr "album service is down"))])
  ∧ reconcile_bin srv9 (a true) ["trip"] ["A1"] (Some t) b w9
    = (inr tt, @mkWorld srv9 tt {[ "/pics/trip" := JStr "A1" ]}
                 [Sent (ReqFetch "A1"); Sent (ReqRemove "A1" {[ "9" ]});
                  Sent (ReqAdd "A1" {[ "1" ]});
                  Printed (UpdatingFailed "trip" 500 "Internal Server Error");
                  Printed (ServerMessage (MsgStr "album service is down"))]).
Proof.
  intros e srv srv9 b a t w w9. split_and!.
  - destruct (failed_calls_are_reported srv (a false) ["trip"] ["A1"] None b [] w e tt
                "album service is down") as (Hcreate & _ & _).
    destruct Hcreate as (-> & _ & _); [by left|done|done|by eexists|].
    compute_done.
  - destruct (failed_calls_are_reported srv (a false) ["trip"] ["A1"] (Some t) b [] w e tt
                "album service is down") as (_ & Hadd & _).
    destruct (Hadd t "A1") as (-> & _);
      [done|compute_done|compute_done|done|done|right; by eexists|].
    compute_done.
  - destruct (failed_calls_are_reported srv (a true) ["trip"] ["A1"] (Some t) b [] w e tt
                "album service is down") as (_ & _ & Hfetch).
    destruct (Hfetch t "A1") as (-> & _); [done|compute_done|compute_done|done|done|].
    compute_done.
  - destruct (failed_calls_are_reported srv9 (a true) ["trip"] ["A1"] (Some t) b [] w9 e tt
                "album service is down") as (_ & Hadd & _).
    destruct (Hadd t "A1") as (-> & _);
      [done|compute_done|compute_done|done|done|right; by eexists|].
    compute_done.
Defined.

(** * Further properties *)

(** ** pathlib: parsing and printing *)

Lemma split_no_sep sep s : Forall (λ x, has_char sep x = false) (Str.split sep s).
Proof.
  induction s as [|a s IH]; simpl; [by repeat constructor|].
  destruct (Ascii.eqb a sep) eqn:Ha; [by constructor|].
  destruct (Str.split sep s) as [|w ws]; [by repeat constructor; simpl; rewrite Ha|].
  apply Forall_cons in IH as [Hw Hws]. constructor; [|done]. simpl. by rewrite Ha.
Qed.

Lemma split_not_nil sep s : Str.split sep s ≠ [].
Proof.
  destruct s as [|a s]; simpl; [done|].
  destruct (Ascii.eqb a sep); [done|]. by destruct (Str.split sep s).
Qed.

Lemma split_one sep x : has_char sep x = false → Str.split sep x = [x].
Proof.
  induction x as [|a x IH]; simpl; [done|].
  intros [Ha Hx]%orb_false_iff. rewrite Ha, (IH Hx). done.
Qed.

Lemma split_app sep x rest :
  has_char sep x = false →
  Str.split sep (x ++ String sep rest) = x :: Str.split sep rest.
Proof.
  induction x as [|a x IH]; simpl.
  - intros _. by rewrite Ascii.eqb_refl.
  - intros [Ha Hx]%orb_false_iff. by rewrite Ha, (IH Hx).
Qed.

Lemma split_join (l : list string) :
  l ≠ [] → Forall (λ x, has_char "/" x = false) l →
  Str.split "/" (Str.join "/" l) = l.
Proof.
  induction l as [|x l IH]; [done|]. intros _ [Hx Hl]%Forall_cons.
  destruct l as [|y l]; [by apply split_one|].
  change (Str.join "/" (x :: y :: l)) with (x ++ String "/" (Str.join "/" (y :: l))).
  rewrite split_app by done. by rewrite IH.
Qed.

Lemma component_ok_spec x :
  component_ok x = true ↔ x ≠ "" ∧ x ≠ "." ∧ has_char "/" x = false.
Proof.
  unfold component_ok, Pathlib.kept.
  rewrite !andb_true_iff, !negb_true_iff, !String.eqb_neq. tauto.
Qed.

Lemma of_string_parsed s : parsed (Pathlib.of_string s).
Proof.
  unfold Pathlib.of_string.
  assert (∀ r rel, Pathlib.splitroot s = (r, rel) → r = "" ∨ r = "/" ∨ r = "//") as Hroot.
  { unfold Pathlib.splitroot. intros r rel.
    destruct s as [|a [|b [|c s]]]; repeat (case_match; simplify_eq); intros; simplify_eq; auto. }
  destruct (Pathlib.splitroot s) as [r rel] eqn:Hs. split; [by eapply Hroot|]. simpl.
  apply Forall_forall. intros x Hx%list_elem_of_In%filter_In. destruct Hx as [Hx Hkept].
  unfold component_ok. rewrite Hkept. simpl. apply negb_true_iff.
  pose proof (split_no_sep "/" rel) as Hall. rewrite Forall_forall in Hall.
  apply Hall. by apply list_elem_of_In.
Qed.

Lemma Forall_removelast {A} (P : A → Prop) (l : list A) : Forall P l → Forall P (removelast l).
Proof.
  induction 1 as [|x l Hx Hl IH]; simpl; [done|]. destruct l; [constructor|by constructor].
Qed.

Lemma parent_parsed p : parsed p → parsed (Pathlib.parent p).
Proof.
  intros [Hr Ht]. unfold Pathlib.parent. destruct (tail p) as [|x t] eqn:Htail.
  - split; [done|]. by rewrite Htail.
  - split; [done|]. cbn [tail]. by apply Forall_removelast.
Qed.

Lemma folder_of_parsed a : parsed (folder_of a).
Proof. apply parent_parsed, of_string_parsed. Qed.

Lemma join_first_char (l : list string) :
  l ≠ [] → Forall (λ x, component_ok x = true) l →
  ∃ c rest, Str.join "/" l = String c rest ∧ Ascii.eqb c "/" = false.
Proof.
  destruct l as [|x l]; [done|]. intros _ [Hx _]%Forall_cons.
  apply component_ok_spec in Hx as (Hne & _ & Hslash).
  destruct x as [|c x]; [done|]. simpl in Hslash. apply orb_false_iff in Hslash as [Hc _].
  destruct l; simpl; eauto.
Qed.

(** [Path(str(p))] is [p] for a parsed path. *)
Lemma of_string_to_string p : parsed p → Pathlib.of_string (Pathlib.to_string p) = p.
Proof.
  destruct p as [r t]. intros [Hr Ht]. simpl in *.
  assert (List.filter Pathlib.kept t = t) as Hkept.
  { clear Hr. induction Ht as [|x t Hx Ht IH]; [done|].
    unfold component_ok in Hx. apply andb_prop in Hx. destruct Hx as [Hk _].
    cbn [List.filter]. by rewrite Hk, IH. }
  assert (Forall (λ x, has_char "/" x = false) t) as Hslash.
  { eapply Forall_impl; [exact Ht|]. intros x Hx. by apply component_ok_spec in Hx as (_ & _ & ?). }
  destruct t as [|x t].
  - destruct Hr as [->|[->| ->]]; reflexivity.
  - destruct (join_first_char (x :: t)) as (c & rest & Hj & Hc); [done..|].
    assert (Pathlib.to_string (mkPath r (x :: t)) = r ++ Str.join "/" (x :: t)) as ->.
    { unfold Pathlib.to_string. cbn [root tail]. rewrite Hj.
      by destruct Hr as [->|[->| ->]]. }
    assert (Pathlib.splitroot (r ++ Str.join "/" (x :: t)) = (r, Str.join "/" (x :: t))) as Hsplit.
    { rewrite Hj. destruct Hr as [->|[->| ->]]; simpl; by rewrite Hc. }
    unfold Pathlib.of_string. rewrite Hsplit. by rewrite split_join, Hkept.
Qed.

Lemma to_string_inj p q :
  parsed p → parsed q → Pathlib.to_string p = Pathlib.to_string q → p = q.
Proof.
  intros Hp Hq Heq. rewrite <- (of_string_to_string p Hp), <- (of_string_to_string q Hq).
  by rewrite Heq.
Qed.

(** ** Classifier: what the bins hold *)

Section Upsert.

Context {K V : Type} `{EqDecision K}.

(** After the update the key is there, with the updated value. *)
Lemma setdefault_update_hit (k : K) (dflt : V) (f : V → V) (d : list (K * V)) :
  ∃ v, (k, f v) ∈ setdefault_update k dflt f d ∧ (v = dflt ∨ (k, v) ∈ d).
Proof.
  induction d as [|[k' v'] d IH]; simpl.
  - exists dflt. split; [left|by left].
  - destruct (decide (k = k')) as [->|Hne].
    + exists v'. split; [left|right; left].
    + destruct IH as (v & Hin & Hv). exists v. split; [by right|].
      destruct Hv as [->|Hv]; [by left|right; by right].
Qed.

(** Entries are never removed: an entry stays, updated when its key is hit. *)
Lemma setdefault_update_keep (k : K) (dflt : V) (f : V → V) (d : list (K * V)) k0 v0 :
  (k0, v0) ∈ d →
  (k0, v0) ∈ setdefault_update k dflt f d ∨ (k0 = k ∧ (k0, f v0) ∈ setdefault_update k dflt f d).
Proof.
  induction d as [|[k' v'] d IH]; simpl; [by intros ?%not_elem_of_nil|].
  intros [[= -> ->]|Hin]%elem_of_cons.
  - destruct (decide (k = k')) as [->|Hne]; [right; split; [done|left]|left; left].
  - destruct (decide (k = k')) as [->|Hne]; [left; by right|].
    destruct (IH Hin) as [?|[-> ?]]; [left; by right|right; split; [done|by right]].
Qed.

End Upsert.

(** Every folder bin has the folder of one of its own assets as key: no
    bin is empty, and keys are parsed paths. *)
Lemma folder_assets_origin filter sp (assets : list Asset) kv :
  kv ∈ folder_assets filter sp assets →
  ∃ y, y ∈ assets ∧ dropped filter sp y = false ∧ folder_of y = kv.1 ∧ asset_id y ∈ kv.2.
Proof.
  unfold folder_assets. revert kv.
  induction assets as [|x assets IH] using rev_ind; intros kv; simpl.
  - by intros ?%not_elem_of_nil.
  - rewrite fold_left_app. simpl.
    destruct (dropped filter sp x) eqn:Hx.
    + intros Hkv. destruct (IH _ Hkv) as (y & ? & ?). exists y. split; [set_solver|done].
    + intros Hkv.
      destruct (setdefault_update_elem _ _ _ _ _ Hkv) as [Hold|[Hk [Hv|(v & Hold & Hv)]]].
      * destruct (IH _ Hold) as (y & ? & ?). exists y. split; [set_solver|done].
      * exists x. rewrite Hv. split; [set_solver|]. split_and!; [done|done|set_solver].
      * exists x. rewrite Hv. split; [set_solver|]. split_and!; [done|done|set_solver].
Qed.

Lemma name_assets_origin filter sp (assets : list Asset) kv :
  kv ∈ name_assets filter sp assets →
  ∃ y, y ∈ assets ∧ dropped filter sp y = false ∧ libraryId y = kv.1 ∧ asset_id y ∈ ids kv.2.
Proof.
  unfold name_assets. revert kv.
  induction assets as [|x assets IH] using rev_ind; intros kv; simpl.
  - by intros ?%not_elem_of_nil.
  - rewrite fold_left_app. simpl.
    destruct (dropped filter sp x) eqn:Hx.
    + intros Hkv. destruct (IH _ Hkv) as (y & ? & ?). exists y. split; [set_solver|done].
    + intros Hkv.
      destruct (setdefault_update_elem _ _ _ _ _ Hkv) as [Hold|[Hk [Hv|(v & Hold & Hv)]]].
      * destruct (IH _ Hold) as (y & ? & ?). exists y. split; [set_solver|done].
      * exists x. rewrite Hv. simpl. split; [set_solver|]. split_and!; [done|done|set_solver].
      * exists x. rewrite Hv. simpl. split; [set_solver|]. split_and!; [done|done|set_solver].
Qed.

(** An asset that passes the tests is in the bin of its folder. *)
Lemma folder_assets_complete filter sp (assets : list Asset) y :
  y ∈ assets → dropped filter sp y = false →
  ∃ v, (folder_of y, v) ∈ folder_assets filter sp assets ∧ asset_id y ∈ v.
Proof.
  unfold folder_assets.
  induction assets as [|x assets IH] using rev_ind; [by intros ?%not_elem_of_nil|].
  rewrite fold_left_app. simpl. intros Hy Hdrop.
  apply elem_of_app in Hy as [Hy| ->%list_elem_of_singleton].
  - destruct (IH Hy Hdrop) as (v & Hin & Hv).
    destruct (dropped filter sp x); [by exists v|].
    destruct (setdefault_update_keep (folder_of x) ∅ (λ s, s ∪ {[asset_id x]}) _ _ _ Hin)
      as [?|[_ ?]].
    + by exists v.
    + exists (v ∪ {[asset_id x]}). split; [done|set_solver].
  - rewrite Hdrop.
    match goal with
    | |- context [setdefault_update ?k ?d ?f ?l] =>
        destruct (setdefault_update_hit k d f l) as (v & Hin & _)
    end.
    exists (v ∪ {[asset_id x]}). split; [done|set_solver].
Qed.

(** An asset that passes the tests is in the bin of its library. *)
Lemma name_assets_complete filter sp (assets : list Asset) y :
  y ∈ assets → dropped filter sp y = false →
  ∃ v, (libraryId y, v) ∈ name_assets filter sp assets ∧ asset_id y ∈ ids v ∧ folder_of y ∈ paths v.
Proof.
  unfold name_assets.
  induction assets as [|x assets IH] using rev_ind; [by intros ?%not_elem_of_nil|].
  rewrite fold_left_app. simpl. intros Hy Hdrop.
  apply elem_of_app in Hy as [Hy| ->%list_elem_of_singleton].
  - destruct (IH Hy Hdrop) as (v & Hin & Hv & Hp).
    destruct (dropped filter sp x); [by exists v|].
    destruct (setdefault_update_keep (libraryId x) (mkLibItems ∅ ∅)
                (λ v, mkLibItems (paths v ∪ {[folder_of x]}) (ids v ∪ {[asset_id x]})) _ _ _ Hin)
      as [?|[_ ?]].
    + by exists v.
    + eexists. split; [done|]. simpl. set_solver.
  - rewrite Hdrop.
    match goal with
    | |- context [setdefault_update ?k ?d ?f ?l] =>
        destruct (setdefault_update_hit k d f l) as (v & Hin & _)
    end.
    eexists. split; [done|]. simpl. set_solver.
Qed.

(** The mapping keys of the bins of a run are pairwise distinct, in
    folder mode too, where they are the printed folder paths. *)
Lemma bins_keys_NoDup a libraries filter (assets : list Asset) :
  NoDup (update_key <$> bins a libraries filter assets).
Proof.
  unfold bins. destruct (args.folder_layout a).
  - change (List.map folder_bin ?l) with (folder_bin <$> l). rewrite <- list_fmap_compose.
    change (update_key ∘ folder_bin) with (Pathlib.to_string ∘ (fst : Path * gset string → Path)).
    rewrite list_fmap_compose. apply NoDup_fmap_2_strong; [|apply folder_assets_NoDup].
    intros p q [kp [-> Hp]]%list_elem_of_fmap [kq [-> Hq]]%list_elem_of_fmap.
    apply to_string_inj.
    + destruct (folder_assets_origin _ _ _ _ Hp) as (y & _ & _ & <- & _). apply folder_of_parsed.
    + destruct (folder_assets_origin _ _ _ _ Hq) as (y & _ & _ & <- & _). apply folder_of_parsed.
  - change (List.map (library_bin libraries) ?l) with (library_bin libraries <$> l).
    rewrite <- list_fmap_compose. apply name_assets_NoDup.
Qed.

Lemma bins_origin a libraries filter (assets : list Asset) b :
  b ∈ bins a libraries filter assets →
  (∃ y, y ∈ assets ∧ update_key b = key_of a y ∧ asset_id y ∈ asset_ids b)
  ∧ ∀ i, i ∈ asset_ids b →
      ∃ y, y ∈ assets ∧ asset_id y = i ∧ dropped filter (skip_paths a) y = false
           ∧ update_key b = key_of a y.
Proof.
  unfold bins, key_of. destruct (args.folder_layout a).
  - intros (kv & <- & Hkv)%list_elem_of_In%in_map_iff. apply list_elem_of_In in Hkv. split.
    + destruct (folder_assets_origin _ _ _ _ Hkv) as (y & ? & ? & Hk & ?).
      exists y. simpl. by rewrite Hk.
    + intros i Hi. destruct (folder_assets_provenance _ _ _ _ _ Hkv Hi) as (y & ? & ? & ? & Hk).
      exists y. simpl. by rewrite Hk.
  - intros (kv & <- & Hkv)%list_elem_of_In%in_map_iff. apply list_elem_of_In in Hkv. split.
    + destruct (name_assets_origin _ _ _ _ Hkv) as (y & ? & ? & Hk & ?).
      exists y. simpl. by rewrite Hk.
    + intros i Hi. destruct (name_assets_provenance _ _ _ _ _ Hkv Hi) as (y & ? & ? & ? & Hk).
      exists y. simpl. by rewrite Hk.
Qed.

(** X1: Completeness of the classifier: an asset of a listed library whose
    folder is not skipped is a member of a bin of the run, the bin keyed
    and labelled by its folder (folder mode) or its library (library
    mode). *)
Theorem kept_asset_is_in_its_bin a libraries filter (assets : list Asset) (y : Asset) :
  y ∈ assets →
  libraryId y ∈ filter →
  skipped (skip_paths a) (folder_of y) = false →
  ∃ b, b ∈ bins a libraries filter assets
       ∧ update_key b = key_of a y
       ∧ album_name b = label_of a libraries y
       ∧ asset_id y ∈ asset_ids b.
Proof.
  intros Hy Hlib Hskip.
  assert (dropped filter (skip_paths a) y = false) as Hdrop.
  { unfold dropped. by rewrite bool_decide_eq_true_2, Hskip. }
  unfold bins, key_of, label_of. destruct (args.folder_layout a).
  - destruct (folder_assets_complete filter (skip_paths a) assets y Hy Hdrop) as (v & Hin & Hv).
    exists (folder_bin (folder_of y, v)). split; [|done].
    apply list_elem_of_In, in_map, list_elem_of_In, Hin.
  - destruct (name_assets_complete filter (skip_paths a) assets y Hy Hdrop) as (v & Hin & Hv & _).
    exists (library_bin libraries (libraryId y, v)). split; [|done].
    apply list_elem_of_In, in_map, list_elem_of_In, Hin.
Qed.

(** X3: The bins of a run have pairwise distinct mapping keys and none of
    them is empty. *)
Theorem bins_are_distinct_and_inhabited a libraries filter (assets : list Asset) :
  NoDup (update_key <$> bins a libraries filter assets)
  ∧ Forall (λ b, asset_ids b ≠ ∅) (bins a libraries filter assets).
Proof.
  split; [apply bins_keys_NoDup|].
  apply Forall_forall. intros b Hb.
  destruct (bins_origin _ _ _ _ _ Hb) as [(y & _ & _ & Hy) _]. set_solver.
Qed.

Lemma NoDup_fmap_eq {A B} (f : A → B) (l : list A) x y :
  NoDup (f <$> l) → x ∈ l → y ∈ l → f x = f y → x = y.
Proof.
  intros Hnd [i Hi]%list_elem_of_lookup [j Hj]%list_elem_of_lookup Hxy.
  assert (i = j) as ->; [|congruence].
  eapply NoDup_lookup; [exact Hnd| |]; rewrite list_lookup_fmap.
  - by rewrite Hi.
  - rewrite Hj. simpl. by rewrite Hxy.
Qed.

(** X4: With distinct asset ids the bins are disjoint: an id is a member of
    at most one bin. *)
Theorem bins_are_disjoint a libraries filter (assets : list Asset) (b1 b2 : Bin) (i : string) :
  NoDup (asset_id <$> assets) →
  b1 ∈ bins a libraries filter assets →
  b2 ∈ bins a libraries filter assets →
  i ∈ asset_ids b1 → i ∈ asset_ids b2 →
  b1 = b2.
Proof.
  intros Hnd Hb1 Hb2 Hi1 Hi2.
  destruct (bins_origin _ _ _ _ _ Hb1) as [_ H1]. destruct (H1 i Hi1) as (y1 & Hy1 & Hid1 & _ & Hk1).
  destruct (bins_origin _ _ _ _ _ Hb2) as [_ H2]. destruct (H2 i Hi2) as (y2 & Hy2 & Hid2 & _ & Hk2).
  assert (y1 = y2) as -> by (eapply (NoDup_fmap_eq asset_id); [done..|congruence]).
  eapply (NoDup_fmap_eq update_key); [apply bins_keys_NoDup|done..|congruence].
Qed.

Lemma kept_asset_is_in_its_bin_witness :
  let a := args.mk None None false [mkPath "/" ["raw"; "*"]] false false in
  let libraries := [mkLibrary "L1" "Library One"; mkLibrary "L2" "Library Two"] in
  let assets := [mkAsset "1" "L1" "/pics/trip/a.jpg"; mkAsset "2" "L2" "/pics/trip/b.jpg";
                 mkAsset "3" "L1" "/raw/2023/c.jpg"; mkAsset "4" "L1" "/raw/d.jpg"] in
  bins a libraries ["L1"] assets = [mkBin "Library One" {[ "1"; "4" ]} "L1"]
  ∧ ∃ b, b ∈ bins a libraries ["L1"] assets
         ∧ update_key b = "L1" ∧ album_name b = "Library One" ∧ "4" ∈ asset_ids b.
Proof.
  intros a libraries assets. split; [compute_done|].
  apply (kept_asset_is_in_its_bin a libraries ["L1"] assets (mkAsset "4" "L1" "/raw/d.jpg"));
    compute_done.
Defined.

Lemma bins_are_disjoint_witness :
  let a := args.mk None None true [] false false in
  let assets := [mkAsset "1" "L1" "/pics/trip/a.jpg"; mkAsset "2" "L1" "/pics/zoo/b.jpg"] in
  let b := mkBin "trip" {[ "1" ]} "/pics/trip" in
  bins a [] ["L1"] assets = [b; mkBin "zoo" {[ "2" ]} "/pics/zoo"]
  ∧ b = List.hd (mkBin "" ∅ "") (bins a [] ["L1"] assets).
Proof.
  intros a assets b. split; [compute_done|].
  apply (bins_are_disjoint a [] ["L1"] assets b _ "1"); compute_done.
Defined.


(** ** The reference service *)

Section IdealFacts.

Implicit Types (s : Ideal.state) (b : Bin) (out t : gmap string jvalue).

Lemma ideal_album_ids s id :
  id ∈ run_album_ids Ideal.server s ↔ is_Some (Ideal.albums s !! id).
Proof.
  unfold run_album_ids. simpl. unfold Ideal.album_list.
  rewrite <- list_fmap_compose. rewrite list_elem_of_fmap. split.
  - intros ([k [n ms]] & -> & Hin). apply elem_of_map_to_list in Hin. simpl. eauto.
  - intros [[n ms] Hs]. exists (id, (n, ms)). split; [done|]. by apply elem_of_map_to_list.
Qed.

Lemma ideal_state_eta s : Ideal.mkState (Ideal.libraries s) (Ideal.assets s) (Ideal.albums s) = s.
Proof. by destruct s. Qed.

Lemma count_success_none (ids : list string) (members : gset string) :
  (∀ i, i ∈ ids → i ∈ members) →
  count_success (List.map (λ i, mkMemberResult i (bool_decide (i ∉ members))) ids) = 0.
Proof.
  intros Hin. unfold count_success. induction ids as [|i ids IH]; simpl; [done|].
  rewrite bool_decide_eq_false_2 by (intros Hn; apply Hn, Hin; left).
  apply IH. intros j Hj. apply Hin. by right.
Qed.

(** A synced bin is bound, and processing it changes neither the service
    nor the output mapping; nothing is created, added, cleared or
    reported as failed. *)
Lemma reconcile_bin_synced a s out names b tr :
  synced a s out b →
  ∃ evs,
    reconcile_bin Ideal.server a names (run_album_ids Ideal.server s) (Some out) b
      (@mkWorld Ideal.server s out tr)
    = (inr tt, @mkWorld Ideal.server s out (tr ++ evs))
    ∧ Forall (λ e, noisy e = false) evs
    ∧ (args.skip_existing a = false → Printed (AlreadyUpToDate (album_name b)) ∈ evs)
    ∧ (args.skip_existing a = false → up_to_date evs = [album_name b]).
Proof.
  intros (id & name & members & Hout & Halb & Hsub & Hsup).
  assert (id ∈ run_album_ids Ideal.server s) as Hid by (apply ideal_album_ids; eauto).
  unfold reconcile_bin. rewrite Hout, bool_decide_eq_true_2 by done.
  unfold bind at 1. unfold set_output at 1. cbn [remote json_output trace]. unfold bind at 1.
  assert (∃ evs1,
    (if args.clean_update a then clean_album Ideal.server b id else ret tt)
      (@mkWorld Ideal.server s (<[update_key b:=JEmptyObject]> out) tr)
    = (inr tt, @mkWorld Ideal.server s (<[update_key b:=JEmptyObject]> out) (tr ++ evs1))
    ∧ Forall (λ e, noisy e = false) evs1
    ∧ up_to_date evs1 = []) as (evs1 & -> & Hevs1 & Hup1).
  { destruct (args.clean_update a) eqn:Hclean.
    - unfold clean_album. unfold_monad. simpl. unfold Ideal.detail, Ideal.remove. simpl.
      rewrite Halb. simpl. rewrite Halb.
      assert (list_to_set (elements members) ∖ asset_ids b = (∅ : gset string)) as ->.
      { specialize (Hsub eq_refl). rewrite list_to_set_elements_L. set_solver. }
      rewrite elements_empty. simpl.
      rewrite difference_empty_L, insert_id, ideal_state_eta by done.
      eexists [_; _]. rewrite <- !app_assoc. split; [done|].
      split; [repeat constructor|done].
    - exists []. unfold ret. rewrite app_nil_r. split; [done|]. split; [constructor|done]. }
  unfold bind, set_output. simpl.
  rewrite insert_insert_eq, insert_id by done.
  unfold update_album. rewrite (bool_decide_eq_true_2 _ Hid), andb_true_r.
  destruct (args.skip_existing a) eqn:Hskip.
  - unfold print, emit. simpl. exists (evs1 ++ [Printed (AlreadyExistsSkipping (album_name b))])%list.
    rewrite app_assoc. split; [done|]. split; [|done].
    apply Forall_app. split; [done|]. repeat constructor.
  - unfold_monad. simpl. unfold Ideal.add. rewrite Halb. simpl.
    specialize (Hsup eq_refl).
    rewrite count_success_none by (intros i Hi%elem_of_elements; set_solver).
    simpl.
    assert (members ∪ asset_ids b = members) as -> by set_solver.
    rewrite insert_id, ideal_state_eta by done.
    exists (evs1 ++ [Sent (ReqAdd id (asset_ids b)); Printed (AlreadyUpToDate (album_name b))])%list.
    rewrite <- !app_assoc. split; [done|]. split_and!.
    + apply Forall_app. split; [done|]. repeat constructor.
    + intros _. set_solver.
    + intros _. unfold up_to_date in *. by rewrite omap_app, Hup1.
Qed.

(** The loop over bins that are all synced. *)
Lemma for_each_synced a s out names (bs : list Bin) tr :
  Forall (synced a s out) bs →
  ∃ evs,
    for_each (reconcile_bin Ideal.server a names (run_album_ids Ideal.server s) (Some out)) bs
      (@mkWorld Ideal.server s out tr)
    = (inr tt, @mkWorld Ideal.server s out (tr ++ evs))
    ∧ Forall (λ e, noisy e = false) evs
    ∧ (args.skip_existing a = false →
       ∀ b, b ∈ bs → Printed (AlreadyUpToDate (album_name b)) ∈ evs)
    ∧ (args.skip_existing a = false → up_to_date evs = List.map album_name bs).
Proof.
  intros Hbs. revert tr. induction Hbs as [|b bs Hb Hbs IH]; intros tr; simpl.
  - exists []. unfold ret. rewrite app_nil_r. split; [done|]. split; [constructor|].
    split; [|done]. by intros _ b ?%not_elem_of_nil.
  - destruct (reconcile_bin_synced a s out names b tr Hb) as (evs1 & Hstep & Hq1 & Hup1 & Hl1).
    unfold bind. rewrite Hstep.
    destruct (IH (tr ++ evs1)%list) as (evs2 & Hrest & Hq2 & Hup2 & Hl2).
    exists (evs1 ++ evs2)%list. rewrite Hrest, app_assoc. split; [done|]. split_and!.
    + by apply Forall_app.
    + intros Hskip b' [->|Hb']%elem_of_cons.
      * apply elem_of_app. left. by apply Hup1.
      * apply elem_of_app. right. by apply Hup2.
    + intros Hskip. unfold up_to_date in *. by rewrite omap_app, (Hl1 Hskip), (Hl2 Hskip).
Qed.

(** A bound bin on the reference service: the album is cleaned and
    updated in place, the output maps the key to the album. *)
Lemma reconcile_bin_bound_ideal a names ids t b id s out tr name members :
  t !! update_key b = Some (JStr id) → id ∈ ids →
  Ideal.albums s !! id = Some (name, members) →
  ∃ members' tr',
    reconcile_bin Ideal.server a names ids (Some t) b (@mkWorld Ideal.server s out tr)
    = (inr tt,
       @mkWorld Ideal.server
         (Ideal.mkState (Ideal.libraries s) (Ideal.assets s)
            (<[id := (name, members')]> (Ideal.albums s)))
         (<[update_key b := JStr id]> out) tr')
    ∧ (args.clean_update a = true → members' ⊆ asset_ids b)
    ∧ (args.skip_existing a = false → asset_ids b ⊆ members')
    ∧ (args.clean_update a = false → members ⊆ members').
Proof.
  intros Ht Hid Halb.
  unfold reconcile_bin. rewrite Ht, bool_decide_eq_true_2 by done.
  unfold bind at 1. unfold set_output at 1. cbn [remote json_output trace]. unfold bind at 1.
  assert (∃ m1 tr1,
    (if args.clean_update a then clean_album Ideal.server b id else ret tt)
      (@mkWorld Ideal.server s (<[update_key b:=JEmptyObject]> out) tr)
    = (inr tt, @mkWorld Ideal.server
                 (Ideal.mkState (Ideal.libraries s) (Ideal.assets s)
                    (<[id := (name, m1)]> (Ideal.albums s)))
                 (<[update_key b:=JEmptyObject]> out) tr1)
    ∧ (args.clean_update a = true → m1 ⊆ asset_ids b)
    ∧ (args.clean_update a = false → m1 = members)) as (m1 & tr1 & -> & Hm1 & Hm1').
  { destruct (args.clean_update a) eqn:Hclean.
    - unfold clean_album. unfold_monad. simpl. unfold Ideal.detail, Ideal.remove. simpl.
      rewrite Halb. simpl. rewrite Halb. rewrite list_to_set_elements_L.
      destruct (negb _); simpl.
      all: eexists _, _; (split; [reflexivity|]); (split; [intros _; set_solver|intros [=]]).
    - exists members, tr. unfold ret.
      rewrite (insert_id (Ideal.albums s) id (name, members)), ideal_state_eta by done.
      split_and!; [done|intros [=]|done]. }
  unfold bind, set_output. cbn [remote json_output trace].
  rewrite insert_insert_eq.
  unfold update_album. rewrite (bool_decide_eq_true_2 _ Hid), andb_true_r.
  destruct (args.skip_existing a) eqn:Hskip.
  - unfold print, emit. cbn [remote json_output trace].
    eexists m1, _. split; [done|]. split; [done|]. split; [done|].
    intros Hc. by rewrite Hm1'.
  - unfold_monad. simpl. unfold Ideal.add. simpl. rewrite lookup_insert_eq. simpl.
    rewrite insert_insert_eq.
    destruct (_ =? _)%nat; simpl; exists (m1 ∪ asset_ids b); eexists; (split; [done|]);
      (split_and!; [intros Hc; specialize (Hm1 Hc); set_solver|set_solver|
                    intros Hc; rewrite (Hm1' Hc); set_solver]).
Qed.

(** An unbound bin on the reference service, with persistence
    configured: an album is created under an unused id, with exactly the
    bin's members, and the output maps the key to it. *)
Lemma reconcile_bin_unbound_ideal a names ids t b s out tr :
  json_given a = true →
  (t !! update_key b = None ∨ ∃ v, t !! update_key b = Some v ∧ stale ids v) →
  ∃ tr',
    reconcile_bin Ideal.server a names ids (Some t) b (@mkWorld Ideal.server s out tr)
    = (inr tt,
       @mkWorld Ideal.server
         (Ideal.mkState (Ideal.libraries s) (Ideal.assets s)
            (<[fresh (dom (Ideal.albums s)) := (album_name b, asset_ids b)]> (Ideal.albums s)))
         (<[update_key b := JStr (fresh (dom (Ideal.albums s)))]> out) tr').
Proof.
  intros Hj Hun.
  assert (reconcile_bin Ideal.server a names ids (Some t) b
          = bind (set_output (update_key b) JEmptyObject)
                 (λ _, create_album Ideal.server a names b)) as ->.
  { destruct Hun as [Ht|(v & Ht & Hv)].
    - by apply reconcile_bin_no_entry.
    - by apply (reconcile_bin_stale _ _ _ _ t b v). }
  unfold bind, set_output, create_album. cbn [remote json_output trace].
  rewrite Hj. simpl. rewrite andb_false_r. simpl.
  unfold_monad. simpl. rewrite insert_insert_eq. by eexists.
Qed.

End IdealFacts.

(** ** A first run against the reference service *)

Section FirstRun.

Context (a : args.t) (names : list string) (s0 : Ideal.state) (t0 : gmap string jvalue).
Hypothesis Hjson : json_given a = true.
Hypothesis Hinj : args.clean_update a = true → one_key_per_album t0.

Implicit Types (s : Ideal.state) (b p : Bin) (out : gmap string jvalue).

Local Notation body :=
  (reconcile_bin Ideal.server a names (run_album_ids Ideal.server s0) (Some t0)).

(** Processing one more bin keeps the processed bins synced and syncs
    the new one. *)
Lemma first_run_step b (done_ : list Bin) s out tr :
  update_key b ∉ update_key <$> done_ →
  dom (Ideal.albums s0) ⊆ dom (Ideal.albums s) →
  (∀ p, p ∈ done_ → synced a s out p ∧ rooted s0 t0 out p) →
  ∃ s' out' tr',
    body b (@mkWorld Ideal.server s out tr) = (inr tt, @mkWorld Ideal.server s' out' tr')
    ∧ dom (Ideal.albums s0) ⊆ dom (Ideal.albums s')
    ∧ Ideal.libraries s' = Ideal.libraries s ∧ Ideal.assets s' = Ideal.assets s
    ∧ (∀ p, p = b ∨ p ∈ done_ → synced a s' out' p ∧ rooted s0 t0 out' p).
Proof.
  intros Hkey Hdom Hdone.
  assert (∀ p, p ∈ done_ → update_key p ≠ update_key b) as Hne.
  { intros p Hp Heq. apply Hkey. rewrite <- Heq. by apply list_elem_of_fmap_2. }
  assert ((t0 !! update_key b = None
           ∨ ∃ v, t0 !! update_key b = Some v ∧ stale (run_album_ids Ideal.server s0) v) →
          ∃ s' out' tr',
            body b (@mkWorld Ideal.server s out tr) = (inr tt, @mkWorld Ideal.server s' out' tr')
            ∧ dom (Ideal.albums s0) ⊆ dom (Ideal.albums s')
            ∧ Ideal.libraries s' = Ideal.libraries s ∧ Ideal.assets s' = Ideal.assets s
            ∧ (∀ p, p = b ∨ p ∈ done_ → synced a s' out' p ∧ rooted s0 t0 out' p)) as Hunbound.
  { intros Hun.
    destruct (reconcile_bin_unbound_ideal a names (run_album_ids Ideal.server s0) t0 b s out tr
                Hjson Hun) as (tr' & ->).
    set (new := fresh (dom (Ideal.albums s))).
    assert (new ∉ dom (Ideal.albums s)) as Hnew by apply is_fresh.
    eexists _, _, _. split; [done|]. simpl. split; [rewrite dom_insert_L; set_solver|].
    split; [done|]. split; [done|].
    intros p [->|Hp].
    - split.
      + exists new, (album_name b), (asset_ids b). simpl.
        rewrite !lookup_insert_eq. split_and!; [done|done|set_solver|set_solver].
      + intros id. rewrite lookup_insert_eq. intros [= <-]. right. set_solver.
    - destruct (Hdone p Hp) as [(id & name & members & Hout & Halb & Hsub & Hsup) Hroot].
      assert (id ≠ new) as Hid.
      { intros ->. apply Hnew. apply elem_of_dom. eauto. }
      split.
      + exists id, name, members. simpl.
        rewrite lookup_insert_ne by (apply not_eq_sym; by apply Hne).
        rewrite lookup_insert_ne by done. done.
      + intros id'. rewrite lookup_insert_ne by (apply not_eq_sym; by apply Hne). apply Hroot. }
  destruct (t0 !! update_key b) as [[id|]|] eqn:Ht.
  - destruct (decide (id ∈ run_album_ids Ideal.server s0)) as [Hid|Hid].
    + assert (id ∈ dom (Ideal.albums s0)) as Hid0.
      { apply elem_of_dom. by apply ideal_album_ids. }
      assert (is_Some (Ideal.albums s !! id)) as [[name members] Halb].
      { apply elem_of_dom. set_solver. }
      destruct (reconcile_bin_bound_ideal a names (run_album_ids Ideal.server s0) t0 b id s out tr
                  name members Ht Hid Halb) as (members' & tr' & -> & Hsub' & Hsup' & Hmono).
      eexists _, _, _. split; [done|]. simpl. split; [rewrite dom_insert_L; set_solver|].
      split; [done|]. split; [done|].
      intros p [->|Hp].
      * split.
        -- exists id, name, members'. simpl. rewrite !lookup_insert_eq. done.
        -- intros id'. rewrite lookup_insert_eq. intros [= <-]. by left.
      * destruct (Hdone p Hp) as [(idp & namep & membersp & Hout & Halbp & Hsub & Hsup) Hroot].
        split.
        -- assert (update_key b ≠ update_key p) as Hkp by (apply not_eq_sym; by apply Hne).
           destruct (decide (idp = id)) as [->|Hidp].
           ++ rewrite Halb in Halbp. injection Halbp as <- <-.
              destruct (args.clean_update a) eqn:Hclean.
              ** exfalso. destruct (Hroot id Hout) as [Htp|Hn]; [|done].
                 apply (Hne p Hp). by apply (Hinj eq_refl _ _ id).
              ** exists id, name, members'. simpl.
                 rewrite lookup_insert_eq, lookup_insert_ne by done.
                 split_and!; [done|done|intros; congruence|].
                 intros Hs. specialize (Hmono eq_refl). specialize (Hsup Hs). set_solver.
           ++ exists idp, namep, membersp. simpl. rewrite !lookup_insert_ne by done. done.
        -- intros id'. rewrite lookup_insert_ne by (apply not_eq_sym; by apply Hne). apply Hroot.
    + apply Hunbound. right. exists (JStr id). split; [done|]. by intros ? [= <-].
  - apply Hunbound. right. exists JEmptyObject. split; [done|]. by intros ? ?.
  - apply Hunbound. by left.
Qed.

(** The loop of a first run completes and leaves every bin synced. *)
Lemma first_run_loop (bs done_ : list Bin) s out tr :
  NoDup (update_key <$> bs) →
  (∀ b, b ∈ bs → update_key b ∉ update_key <$> done_) →
  dom (Ideal.albums s0) ⊆ dom (Ideal.albums s) →
  (∀ p, p ∈ done_ → synced a s out p ∧ rooted s0 t0 out p) →
  ∃ s' out' tr',
    for_each body bs (@mkWorld Ideal.server s out tr)
    = (inr tt, @mkWorld Ideal.server s' out' tr')
    ∧ Ideal.libraries s' = Ideal.libraries s ∧ Ideal.assets s' = Ideal.assets s
    ∧ (∀ p, p ∈ bs ∨ p ∈ done_ → synced a s' out' p).
Proof.
  revert done_ s out tr. induction bs as [|b bs IH]; intros done_ s out tr Hnd Hfresh Hdom Hdone.
  - simpl. unfold ret. eexists _, _, _. split; [done|]. split; [done|]. split; [done|].
    intros p [?%not_elem_of_nil|Hp]; [done|]. by apply Hdone.
  - rewrite fmap_cons in Hnd. apply NoDup_cons in Hnd as [Hb Hnd].
    destruct (first_run_step b done_ s out tr) as (s1 & out1 & tr1 & Hstep & Hdom1 & Hl1 & Ha1 & Hdone1);
      [apply Hfresh; left|done|done|].
    destruct (IH (b :: done_) s1 out1 tr1) as (s' & out' & tr' & Hrest & Hl & Ha & Hall).
    + done.
    + intros p Hp. rewrite fmap_cons. rewrite not_elem_of_cons. split.
      * intros Heq. apply Hb. rewrite <- Heq. by apply list_elem_of_fmap_2.
      * apply Hfresh. by right.
    + done.
    + intros p [->|Hp]%elem_of_cons; apply Hdone1; auto.
    + simpl. unfold bind. rewrite Hstep, Hrest.
      eexists _, _, _. split; [done|]. split; [congruence|]. split; [congruence|].
      intros p [[->|Hp]%elem_of_cons|Hp]; apply Hall; [right; left|by left|right; by right].
Qed.

End FirstRun.

Lemma reconcile_bin_no_table srv a names ids b :
  reconcile_bin srv a names ids None b = reconcile_bin srv a names ids (Some ∅) b.
Proof. unfold reconcile_bin. by rewrite lookup_empty. Qed.

(** ** The run after a run *)


(** The run that follows a completed run on the reference service, with
    persistence configured and, in clean mode, no two keys of the
    persisted table sharing an album id: every bin is in step with the
    service, so the run changes nothing and reports every bin as already
    up to date, in the order of the bins. *)
Lemma second_run_core
    (a : args.t) (s0 : Ideal.state) (od1 : option document) (w1 : World Ideal.server) :
  json_given a = true →
  (args.clean_update a = true → ∀ t0, run_layout a = Some t0 → one_key_per_album t0) →
  main Ideal.server a s0 = (inr od1, w1) →
  ∃ doc1 w2,
    od1 = Some doc1
    ∧ main Ideal.server (with_json a (Some (FileDocument doc1))) (remote w1)
      = (inr (Some doc1), w2)
    ∧ remote w2 = remote w1
    ∧ Forall (λ e, noisy e = false) (trace w2)
    ∧ (args.skip_existing a = false →
       ∀ b, b ∈ run_bins Ideal.server a s0 →
            Printed (AlreadyUpToDate (album_name b)) ∈ trace w2)
    ∧ (args.skip_existing a = false →
       up_to_date (trace w2) = List.map album_name (run_bins Ideal.server a s0)).
Proof.
  intros Hjson Hinj (l & filter & w1' & Hl & Hf & Hloop & -> & ->)%main_completed.
  set (bs := bins a (GET_library Ideal.server s0) filter (GET_asset Ideal.server s0)) in *.
  set (t0 := default ∅ (layout a l)) in *.
  assert (run_loop Ideal.server a s0 (layout a l) bs
          = run_loop Ideal.server a s0 (Some t0) bs) as Hlay.
  { unfold run_loop, t0. destruct (layout a l); [done|].
    apply for_each_ext. intros b. apply reconcile_bin_no_table. }
  rewrite Hlay in Hloop. unfold run_loop in Hloop.
  assert (args.clean_update a = true → one_key_per_album t0) as Hinj0.
  { intros Hc. unfold t0. destruct (layout a l) as [t|] eqn:Ht.
    - apply (Hinj Hc). unfold run_layout. by rewrite Hl.
    - intros k1 k2 id. simpl. by rewrite lookup_empty. }
  destruct (first_run_loop a (run_album_names Ideal.server s0) s0 t0 Hjson Hinj0 bs [] s0 t0
              (prologue Ideal.server s0)) as (s' & out' & tr' & Hrun1 & Hlibs & Hassets & Hsynced).
  { apply bins_keys_NoDup. }
  { intros b _. apply not_elem_of_nil. }
  { done. }
  { by intros p ?%not_elem_of_nil. }
  rewrite Hrun1 in Hloop. injection Hloop as <-. simpl.
  unfold save. rewrite Hjson.
  set (doc1 := if args.folder_layout a
               then <["folder_layout" := out']> (default ∅ (old_json_data l))
               else <["name_layout" := out']> (default ∅ (old_json_data l))).
  assert (doc1 !! active_key a = Some out') as Hactive.
  { unfold doc1, active_key. destruct (args.folder_layout a); by rewrite lookup_insert_eq. }
  destruct (for_each_synced a s' out' (run_album_names Ideal.server s') bs
              (prologue Ideal.server s')) as (evs & Hrun2 & Hquiet & Hup & Hlist).
  { apply Forall_forall. intros p Hp. apply Hsynced. by left. }
  exists doc1. eexists. split; [done|].
  set (a2 := with_json a (Some (FileDocument doc1))).
  rewrite main_unfold.
  change (load_json a2) with
    (inr (B:=Loaded) (A:=exn)
       (mkLoaded (Some doc1) (doc1 !! "folder_layout") (doc1 !! "name_layout"))).
  change (GET_library Ideal.server s') with (Ideal.libraries s').
  change (GET_asset Ideal.server s') with (Ideal.assets s').
  rewrite Hlibs, Hassets.
  change (library_filter a2 (Ideal.libraries s0))
    with (library_filter a (GET_library Ideal.server s0)).
  rewrite Hf.
  change (bins a2 (Ideal.libraries s0) filter (Ideal.assets s0)) with bs.
  set (l2 := mkLoaded (Some doc1) _ _).
  assert (layout a2 l2 = Some out') as ->.
  { unfold layout, l2, active_key in *. simpl. by destruct (args.folder_layout a). }
  unfold run_loop. simpl default.
  rewrite (for_each_ext (reconcile_bin Ideal.server a2 _ _ (Some out'))
             (reconcile_bin Ideal.server a (run_album_names Ideal.server s')
                (run_album_ids Ideal.server s') (Some out')))
    by (intros b; by apply reconcile_bin_with_json).
  rewrite Hrun2. split_and!.
  - f_equal. f_equal. unfold save. change (json_given a2) with true. simpl.
    change (args.folder_layout a2) with (args.folder_layout a).
    unfold active_key in Hactive.
    destruct (args.folder_layout a); by rewrite insert_id.
  - done.
  - cbn [trace snd]. rewrite !Forall_app.
    split_and!; [unfold prologue; repeat constructor|done|repeat constructor].
  - intros Hskip b Hb. cbn [trace snd]. apply elem_of_app. left. apply elem_of_app. right.
    apply Hup; [done|]. unfold run_bins in Hb. by rewrite Hf in Hb.
  - intros Hskip. cbn [trace snd]. unfold up_to_date in *.
    rewrite !omap_app, (Hlist Hskip). unfold run_bins. rewrite Hf.
    unfold prologue. cbn [omap list_omap]. by rewrite app_nil_r.
Qed.


(** X19: Idempotence on the reference service: with persistence configured
    and, in clean mode, no two keys of the persisted table sharing an
    album id, the run that follows a completed run (on the server state
    and the document the first run left) changes nothing: it completes,
    writes the same document, leaves the server state as it was, creates
    no album, adds and clears nothing, reports no failure, and, unless
    updates are skipped, reports every bin as already up to date. *)
Theorem second_run_is_quiet
    (a : args.t) (s0 : Ideal.state) (od1 : option document) (w1 : World Ideal.server) :
  json_given a = true →
  (args.clean_update a = true → ∀ t0, run_layout a = Some t0 → one_key_per_album t0) →
  main Ideal.server a s0 = (inr od1, w1) →
  ∃ doc1 w2,
    od1 = Some doc1
    ∧ main Ideal.server (with_json a (Some (FileDocument doc1))) (remote w1)
      = (inr (Some doc1), w2)
    ∧ remote w2 = remote w1
    ∧ Forall (λ e, noisy e = false) (trace w2)
    ∧ (args.skip_existing a = false →
       ∀ b, b ∈ run_bins Ideal.server a s0 →
            Printed (AlreadyUpToDate (album_name b)) ∈ trace w2).
Proof.
  intros Hjson Hinj Hmain.
  destruct (second_run_core a s0 od1 w1 Hjson Hinj Hmain)
    as (doc1 & w2 & Hod & Hrun & Hsrv & Hquiet & Hup & _).
  exists doc1, w2. split_and!; assumption.
Qed.

Lemma second_run_is_quiet_witness :
  let doc : document := {[ "folder_layout" := {[ "/pics/trip" := JStr "A1" ]} ]} in
  let a := args.mk (Some (FileDocument doc)) None true [] true false in
  let s0 := Ideal.mkState [mkLibrary "L1" "Library One"]
              [mkAsset "1" "L1" "/pics/trip/a.jpg"; mkAsset "2" "L1" "/pics/zoo/b.jpg"]
              {[ "A1" := ("trip", {[ "7" ]}) ]} in
  let od1 := match (main Ideal.server a s0).1 with inr od => od | inl _ => None end in
  let w1 := (main Ideal.server a s0).2 in
  List.filter noisy (trace w1)
  = [Printed (ClearedAssets 1 "trip"); Printed (AddedAssets 1 false "trip");
     Sent (ReqCreate "zoo" {[ "2" ]})]
  ∧ ∃ doc1 w2,
      od1 = Some doc1
      ∧ main Ideal.server (with_json a (Some (FileDocument doc1))) (remote w1)
        = (inr (Some doc1), w2)
      ∧ remote w2 = remote w1
      ∧ Forall (λ e, noisy e = false) (trace w2).
Proof.
  intros doc a s0 od1 w1. split; [compute_done|].
  destruct (second_run_is_quiet a s0 od1 w1) as (doc1 & w2 & H1 & H2 & H3 & H4 & _).
  - reflexivity.
  - intros _ t0 [= <-] k1 k2 id [? ?]%lookup_singleton_Some [? ?]%lookup_singleton_Some.
    congruence.
  - compute_done.
  - exists doc1, w2. split_and!; assumption.
Defined.




(** ** What a run sends *)

Section Emits.

Context {srv : Server} (P : event → Prop).

Lemma emits_silent {A} (m : M srv A) : (∀ w, trace (m w).2 = trace w) → emits P m.
Proof. intros Hm w. exists []. rewrite Hm, app_nil_r. by split. Qed.

Lemma emits_ret {A} (x : A) : emits P (ret (srv:=srv) x).
Proof. by apply emits_silent. Qed.

Lemma emits_lift {A} (r : exn + A) : emits P (lift (srv:=srv) r).
Proof. by apply emits_silent. Qed.

Lemma emits_set_output k v : emits P (set_output (srv:=srv) k v).
Proof. by apply emits_silent. Qed.

Lemma emits_emit e : P e → emits P (emit (srv:=srv) e).
Proof. intros He w. exists [e]. split; [done|]. by repeat constructor. Qed.

Lemma emits_call {A} r (op : srv_state srv → response A * srv_state srv) :
  P (Sent r) → emits P (call r op).
Proof.
  intros Hr w. exists [Sent r]. unfold call. destruct (op (remote w)). split; [done|].
  by repeat constructor.
Qed.

Lemma emits_bind {A B} (m : M srv A) (k : A → M srv B) :
  emits P m → (∀ x, emits P (k x)) → emits P (bind m k).
Proof.
  intros Hm Hk w. unfold bind. destruct (Hm w) as (evs1 & Htr1 & Hevs1).
  destruct (m w) as [[e|x] w1]; simpl in *; [by exists evs1|].
  destruct (Hk x w1) as (evs2 & Htr2 & Hevs2).
  exists (evs1 ++ evs2)%list. rewrite Htr2, Htr1, app_assoc. split; [done|].
  by apply Forall_app.
Qed.

Lemma emits_for_each {A} (body : A → M srv unit) (l : list A) :
  (∀ x, x ∈ l → emits P (body x)) → emits P (for_each body l).
Proof.
  induction l as [|x l IH]; intros Hb; simpl; [apply emits_ret|].
  apply emits_bind; [apply Hb; left|]. intros _. apply IH. intros y Hy. apply Hb. by right.
Qed.

End Emits.

Section BinEmits.

Context (srv : Server) (a : args.t) (album_names album_ids : list string) (P : event → Prop).
Hypothesis Hprint : ∀ l, P (Printed l).

Lemma emits_print l : emits P (print (srv:=srv) l).
Proof. apply emits_emit, Hprint. Qed.

Lemma create_album_emits b :
  (args.skip_existing a && negb (json_given a) && bool_decide (album_name b ∈ album_names) = false →
   P (Sent (ReqCreate (album_name b) (asset_ids b)))) →
  emits P (create_album srv a album_names b).
Proof.
  intros Hreq. unfold create_album. destruct (_ && _ && _); [apply emits_print|].
  apply emits_bind; [by apply emits_call, Hreq|]. intros [new_id|e].
  - apply emits_bind; [apply emits_print|]. intros _.
    destruct (json_given a); [apply emits_set_output|apply emits_ret].
  - apply emits_bind; [apply emits_print|]. intros _.
    apply emits_bind; [apply emits_lift|]. intros m. apply emits_print.
Qed.

Lemma update_album_emits b id :
  (args.skip_existing a && bool_decide (id ∈ album_ids) = false →
   P (Sent (ReqAdd id (asset_ids b)))) →
  emits P (update_album srv a album_ids b id).
Proof.
  intros Hreq. unfold update_album. destruct (_ && _); [apply emits_print|].
  apply emits_bind; [by apply emits_call, Hreq|]. intros [results|e].
  - simpl. destruct (_ =? _)%nat; apply emits_print.
  - apply emits_bind; [apply emits_print|]. intros _.
    apply emits_bind; [apply emits_lift|]. intros m. apply emits_print.
Qed.

Lemma clean_album_emits b id :
  P (Sent (ReqFetch id)) → (∀ rm, P (Sent (ReqRemove id rm))) →
  emits P (clean_album srv b id).
Proof.
  intros Hfetch Hremove. unfold clean_album.
  apply emits_bind; [by apply emits_call|]. intros [current|e].
  - apply emits_bind; [by apply emits_call|]. intros [results|?]; [|apply emits_ret].
    simpl. destruct (negb _); [apply emits_print|apply emits_ret].
  - apply emits_bind; [apply emits_print|]. intros _. apply emits_print.
Qed.

Lemma reconcile_bin_emits layout b :
  ((∀ t id, layout = Some t → t !! update_key b = Some (JStr id) → id ∉ album_ids) →
   args.skip_existing a && negb (json_given a) && bool_decide (album_name b ∈ album_names) = false →
   P (Sent (ReqCreate (album_name b) (asset_ids b)))) →
  (∀ t id, layout = Some t → t !! update_key b = Some (JStr id) → id ∈ album_ids →
     (args.clean_update a = true → P (Sent (ReqFetch id)) ∧ ∀ rm, P (Sent (ReqRemove id rm)))
     ∧ (args.skip_existing a = false → P (Sent (ReqAdd id (asset_ids b))))) →
  emits P (reconcile_bin srv a album_names album_ids layout b).
Proof.
  intros Hcreate Hbound. unfold reconcile_bin.
  apply emits_bind; [apply emits_set_output|]. intros _.
  destruct layout as [t|]; [|apply create_album_emits, Hcreate; by intros ? ? [=]].
  destruct (t !! update_key b) as [[id|]|] eqn:Ht;
    [|apply create_album_emits, Hcreate; intros ? ? [= <-]; by rewrite Ht..].
  destruct (decide (id ∈ album_ids)) as [Hid|Hid];
    [rewrite bool_decide_eq_true_2 by done
    |rewrite bool_decide_eq_false_2 by done;
     apply create_album_emits, Hcreate; intros ? ? [= <-]; rewrite Ht; by intros [= <-]].
  destruct (Hbound t id eq_refl Ht Hid) as [Hclean Hadd].
  apply emits_bind.
  { destruct (args.clean_update a); [|apply emits_ret].
    destruct (Hclean eq_refl). by apply clean_album_emits. }
  intros _. apply emits_bind; [apply emits_set_output|]. intros _.
  apply update_album_emits. rewrite bool_decide_eq_true_2, andb_true_r by done. apply Hadd.
Qed.

(** The trace of a run, given what its bins emit. *)
Lemma main_emits (s : srv_state srv) :
  P (Sent ReqLibraries) → P (Sent ReqAlbums) → P (Sent ReqAssets) →
  (∀ b, b ∈ run_bins srv a s →
        emits P (reconcile_bin srv a (run_album_names srv s) (run_album_ids srv s)
                   (run_layout a) b)) →
  Forall P (trace (main srv a s).2).
Proof.
  intros Hl Ha Hs Hbins. rewrite main_unfold. unfold run_bins, run_layout in Hbins.
  destruct (load_json a) as [e|l]; [constructor|].
  destruct (library_filter a (GET_library srv s)) as [item|filter]; [by repeat constructor|].
  destruct (emits_for_each P _ _ Hbins (mkWorld s (default ∅ (layout a l)) (prologue srv s)))
    as (evs & Htr & Hevs).
  unfold run_loop. destruct (for_each _ _ _) as [[e|[]] w1]; cbn [fst snd trace] in *; rewrite Htr.
  - apply Forall_app. split; [unfold prologue; by repeat constructor|done].
  - rewrite !Forall_app. split_and!; [unfold prologue; by repeat constructor|done|].
    by repeat constructor.
Qed.

End BinEmits.

Lemma run_layout_no_json a : args.json a = None → run_layout a = None.
Proof.
  intros Hj. unfold run_layout, load_json, layout. rewrite Hj. simpl.
  by destruct (args.folder_layout a).
Qed.

(** X10: Requests about an album (add, fetch, remove) only go to albums that
    the album list of the run shows and that the persisted table binds to
    a bin of the run. *)
Theorem album_requests_go_to_bound_albums (srv : Server) (a : args.t) (s : srv_state srv) :
  Forall (λ e, ∀ id, album_of e = Some id →
            id ∈ run_album_ids srv s
            ∧ ∃ t b, run_layout a = Some t ∧ b ∈ run_bins srv a s
                     ∧ t !! update_key b = Some (JStr id))
         (trace (main srv a s).2).
Proof.
  apply main_emits; try done.
  intros b Hb. apply reconcile_bin_emits; try done.
  intros t id Ht Hk Hid.
  assert (id ∈ run_album_ids srv s
          ∧ ∃ t b, run_layout a = Some t ∧ b ∈ run_bins srv a s
                   ∧ t !! update_key b = Some (JStr id)) as Hgoal.
  { split; [done|]. by exists t, b. }
  split.
  - intros _. split; [|intros rm]; by intros ? [= <-].
  - intros _. by intros ? [= <-].
Qed.

(** X11: Every create request carries the label and the member set of a bin of
    the run that the persisted table does not bind to a listed album, and
    every add request goes to the album of a bound bin with that bin's
    member set: nothing but classified assets is ever sent, and no album
    is created for a bin that has one. *)
Theorem create_and_add_carry_a_bin (srv : Server) (a : args.t) (s : srv_state srv) :
  Forall (λ e, (∀ name ids, e = Sent (ReqCreate name ids) →
                  ∃ b, b ∈ run_bins srv a s ∧ name = album_name b ∧ ids = asset_ids b
                       ∧ ∀ t id, run_layout a = Some t →
                                 t !! update_key b = Some (JStr id) →
                                 id ∉ run_album_ids srv s)
               ∧ (∀ id ids, e = Sent (ReqAdd id ids) →
                    ∃ t b, b ∈ run_bins srv a s ∧ ids = asset_ids b
                           ∧ run_layout a = Some t ∧ t !! update_key b = Some (JStr id)))
         (trace (main srv a s).2).
Proof.
  apply main_emits; try done.
  intros b Hb. apply reconcile_bin_emits; try done.
  - intros Hunbound _. split; [|done]. intros ? ? [= ? ?]; subst. by exists b.
  - intros t id Ht Hk _. split.
    + intros _. split; [|intros rm]; done.
    + intros _. split; [done|]. intros ? ? [= ? ?]; subst. by exists t, b.
Qed.

(** X12: What the flags rule out: with [--skip-existing] no add request is
    sent; without [--clean-update] no fetch and no remove request is sent;
    without [--json] no request about an existing album is sent at all. *)
Theorem flags_gate_requests (srv : Server) (a : args.t) (s : srv_state srv) :
  (args.skip_existing a = true →
   Forall (λ e, ∀ id ids, e ≠ Sent (ReqAdd id ids)) (trace (main srv a s).2))
  ∧ (args.clean_update a = false →
     Forall (λ e, ∀ id, e ≠ Sent (ReqFetch id) ∧ ∀ rm, e ≠ Sent (ReqRemove id rm))
            (trace (main srv a s).2))
  ∧ (args.json a = None →
     Forall (λ e, album_of e = None) (trace (main srv a s).2)).
Proof.
  split_and!.
  - intros Hskip. apply main_emits; try done.
    intros b Hb. apply reconcile_bin_emits; try done.
    intros t id _ _ _. split; [by intros _|]. by rewrite Hskip.
  - intros Hclean. apply main_emits; try done.
    intros b Hb. apply reconcile_bin_emits; [done|by intros _ _|].
    intros t id _ _ _. split; [by rewrite Hclean|]. by intros _.
  - intros Hjson. apply main_emits; try done.
    intros b Hb. apply reconcile_bin_emits; try done.
    intros t id Ht. by rewrite (run_layout_no_json a Hjson) in Ht.
Qed.

(** X13: The duplicate guard: with [--skip-existing] and without [--json], no
    album is created under a name that the album list of the run shows. *)
Theorem skip_existing_creates_no_listed_name (srv : Server) (a : args.t) (s : srv_state srv) :
  args.skip_existing a = true →
  args.json a = None →
  Forall (λ e, ∀ name ids, e = Sent (ReqCreate name ids) → name ∉ run_album_names srv s)
         (trace (main srv a s).2).
Proof.
  intros Hskip Hjson. apply main_emits; try done.
  intros b Hb. apply reconcile_bin_emits; [done| |].
  - intros _. unfold json_given. rewrite Hskip, Hjson. simpl.
    intros Hn%bool_decide_eq_false. intros ? ? [= ? ?]; by subst.
  - intros t id Ht. by rewrite (run_layout_no_json a Hjson) in Ht.
Qed.

Lemma flags_gate_requests_witness :
  let doc : document := {[ "folder_layout" := {[ "/pics/trip" := JStr "A1" ]} ]} in
  let s := Ideal.mkState [mkLibrary "L1" "Library One"]
             [mkAsset "1" "L1" "/pics/trip/a.jpg"; mkAsset "2" "L1" "/pics/zoo/b.jpg"]
             {[ "A1" := ("trip", ∅) ]} in
  let a := args.mk (Some (FileDocument doc)) None true [] false true in
  List.filter (λ e, match e with Sent _ => true | _ => false end)
              (trace (main Ideal.server a s).2)
  = [Sent ReqLibraries; Sent ReqAlbums; Sent ReqAssets; Sent (ReqCreate "zoo" {[ "2" ]})]
  ∧ Forall (λ e, ∀ id ids, e ≠ Sent (ReqAdd id ids)) (trace (main Ideal.server a s).2)
  ∧ Forall (λ e, ∀ id, e ≠ Sent (ReqFetch id) ∧ ∀ rm, e ≠ Sent (ReqRemove id rm))
           (trace (main Ideal.server a s).2).
Proof.
  intros doc s a. split; [compute_done|].
  destruct (flags_gate_requests Ideal.server a s) as (Hskip & Hclean & _).
  split; [by apply Hskip|by apply Hclean].
Defined.

Lemma skip_existing_creates_no_listed_name_witness :
  let s := Ideal.mkState [mkLibrary "L1" "Library One"]
             [mkAsset "1" "L1" "/pics/trip/a.jpg"; mkAsset "2" "L1" "/pics/zoo/b.jpg"]
             {[ "A1" := ("trip", ∅) ]} in
  let a := args.mk None None true [] false true in
  List.filter is_create (trace (main Ideal.server a s).2) = [Sent (ReqCreate "zoo" {[ "2" ]})]
  ∧ Forall (λ e, ∀ name ids, e = Sent (ReqCreate name ids) → name ∉ ["trip"])
           (trace (main Ideal.server a s).2).
Proof.
  intros s a. split; [compute_done|].
  by apply (skip_existing_creates_no_listed_name Ideal.server a s).
Defined.

(** ** How a run can stop early *)

Lemma named_libraries_unknown libraries items acc item :
  named_libraries libraries items acc = inl item →
  item ∈ items ∧ item ∉ List.map library_name libraries.
Proof.
  revert acc. induction items as [|x items IH]; intros acc; simpl; [done|].
  case_bool_decide as Hx.
  - intros [? ?]%IH. split; [by right|done].
  - intros [= ->]. split; [left|done].
Qed.

(** The loop over [args.library] stops at the first name that no library
    carries. *)
Lemma named_libraries_first_unknown libraries (pre : list string) item post acc :
  Forall (λ x, x ∈ List.map library_name libraries) pre →
  item ∉ List.map library_name libraries →
  named_libraries libraries (pre ++ item :: post) acc = inl item.
Proof.
  intros Hpre Hitem. revert acc.
  induction Hpre as [|x pre Hx Hpre IH]; intros acc; simpl.
  - by rewrite bool_decide_eq_false_2.
  - rewrite bool_decide_eq_true_2 by done. apply IH.
Qed.

(** A loop stops at the first bin whose processing raises. *)
Lemma for_each_stops {srv : Server} {A} (body : A → M srv unit) (pre : list A) x post w w1 e w2 :
  for_each body pre w = (inr tt, w1) →
  body x w1 = (inl e, w2) →
  for_each body (pre ++ x :: post) w = (inl e, w2).
Proof.
  revert w. induction pre as [|y pre IH]; intros w; simpl.
  - unfold ret. intros [= <-] Hx. unfold bind. by rewrite Hx.
  - unfold bind. destruct (body y w) as [[e'|[]] w']; [done|]. apply IH.
Qed.

Section EmptyMessage.

Context (srv : Server) (a : args.t) (album_names album_ids : list string).

Implicit Types (b : Bin) (w : World srv).

(** [message[0]] on an empty list or an empty string: raised after the
    failure line is printed, before the message line. *)
Lemma create_album_empty_message b w e s' :
  args.skip_existing a && negb (json_given a) && bool_decide (album_name b ∈ album_names) = false →
  POST_album srv (album_name b) (asset_ids b) (remote w) = (Failed e, s') →
  (body_message e = MsgList [] ∨ body_message e = MsgStr "") →
  create_album srv a album_names b w
  = (inl IndexError,
     mkWorld s' (json_output w)
       (trace w ++ [Sent (ReqCreate (album_name b) (asset_ids b));
                    Printed (CreationFailed (album_name b) (status_code e) (reason e))])).
Proof.
  intros Hg Hp Hm. unfold create_album. rewrite Hg. unfold_monad. simpl.
  rewrite Hp. simpl. destruct Hm as [-> | ->]; simpl; by rewrite <- !app_assoc.
Qed.

Lemma update_album_empty_message b id w e s' :
  args.skip_existing a && bool_decide (id ∈ album_ids) = false →
  PUT_album_assets srv id (asset_ids b) (remote w) = (Failed e, s') →
  body_message e = MsgList [] →
  update_album srv a album_ids b id w
  = (inl IndexError,
     mkWorld s' (json_output w)
       (trace w ++ [Sent (ReqAdd id (asset_ids b));
                    Printed (UpdatingFailed (album_name b) (status_code e) (reason e))])).
Proof.
  intros Hg Hp Hm. unfold update_album. rewrite Hg. unfold_monad. simpl.
  rewrite Hp, Hm. simpl. by rewrite <- !app_assoc.
Qed.

End EmptyMessage.

(** X15: What stops a run early, cause by cause. A json file that holds a
    JSON value other than an object stops the run at
    [old_json_data.get], before anything is sent or printed. With
    [--library], the first given name that no library carries is
    reported and the run exits right after the libraries are listed:
    albums and assets are not listed and no album is touched. An
    exception raised while a bin is processed ends the run there: the
    bins after it are not processed and nothing is written. Such an
    exception is raised by [message[0]] in a failed create whose message
    is an empty list or an empty string, and by [msg[0]] in a failed add
    whose message is an empty list, after the failure line is printed. *)
Theorem early_stops_by_cause (srv : Server) (a : args.t) (s : srv_state srv) :
  (args.json a = Some FileNotObject →
     main srv a s = (inl AttributeError, mkWorld s ∅ []))
  ∧ (∀ l pre item post,
       load_json a = inr l →
       args.library a = Some (pre ++ item :: post)%list →
       Forall (λ x, x ∈ List.map library_name (GET_library srv s)) pre →
       item ∉ List.map library_name (GET_library srv s) →
       main srv a s
       = (inl (SystemExit None),
          mkWorld s ∅ [Printed MakingAPIRequests; Printed Blank; Sent ReqLibraries;
                       Printed (Found (length (GET_library srv s)) "Libraries");
                       Printed (UnableToFindLibrary item)]))
  ∧ (∀ l filter pre b post w1 e w2,
       load_json a = inr l →
       library_filter a (GET_library srv s) = inr filter →
       bins a (GET_library srv s) filter (GET_asset srv s) = (pre ++ b :: post)%list →
       run_loop srv a s (layout a l) pre
         (mkWorld s (default ∅ (layout a l)) (prologue srv s)) = (inr tt, w1) →
       reconcile_bin srv a (run_album_names srv s) (run_album_ids srv s) (layout a l) b w1
       = (inl e, w2) →
       main srv a s = (inl e, w2))
  ∧ (∀ names b (w : World srv) e s',
       args.skip_existing a && negb (json_given a) && bool_decide (album_name b ∈ names) = false →
       POST_album srv (album_name b) (asset_ids b) (remote w) = (Failed e, s') →
       (body_message e = MsgList [] ∨ body_message e = MsgStr "") →
       create_album srv a names b w
       = (inl IndexError,
          mkWorld s' (json_output w)
            (trace w ++ [Sent (ReqCreate (album_name b) (asset_ids b));
                         Printed (CreationFailed (album_name b) (status_code e) (reason e))])))
  ∧ (∀ ids b id (w : World srv) e s',
       args.skip_existing a && bool_decide (id ∈ ids) = false →
       PUT_album_assets srv id (asset_ids b) (remote w) = (Failed e, s') →
       body_message e = MsgList [] →
       update_album srv a ids b id w
       = (inl IndexError,
          mkWorld s' (json_output w)
            (trace w ++ [Sent (ReqAdd id (asset_ids b));
                         Printed (UpdatingFailed (album_name b) (status_code e) (reason e))]))).
Proof.
  split_and!.
  - intros Hj. rewrite main_unfold. unfold load_json. by rewrite Hj.
  - intros l pre item post Hl Hlib Hpre Hitem. rewrite main_unfold, Hl.
    unfold library_filter. rewrite Hlib.
    by rewrite (named_libraries_first_unknown _ pre item post [] Hpre Hitem).
  - intros l filter pre b post w1 e w2 Hl Hf Hbins Hpre Hb.
    rewrite main_unfold, Hl, Hf, Hbins. unfold run_loop in *.
    by rewrite (for_each_stops _ pre b post _ w1 e w2 Hpre Hb).
  - intros names b w e s'. apply create_album_empty_message.
  - intros ids b id w e s'. apply update_album_empty_message.
Qed.

Lemma early_stops_by_cause_witness :
  let e0 := mkFailure 500 "Internal Server Error" (MsgList []) in
  let srv := Down.server [mkLibrary "L1" "Library One"] []
               [mkAsset "1" "L1" "/pics/trip/a.jpg"; mkAsset "2" "L1" "/pics/zoo/b.jpg"]
               (Failed e0) e0 in
  let a j lib := args.mk j lib true [] false false in
  main srv (a (Some FileNotObject) None) tt = (inl AttributeError, @mkWorld srv tt ∅ [])
  ∧ main srv (a None (Some ["Library One"; "Nope"; "Neither"])) tt
    = (inl (SystemExit None),
       @mkWorld srv tt ∅ [Printed MakingAPIRequests; Printed Blank; Sent ReqLibraries;
                          Printed (Found 1 "Libraries");
                          Printed (UnableToFindLibrary "Nope")])
  ∧ main srv (a None None) tt
    = (inl IndexError,
       @mkWorld srv tt {[ "/pics/trip" := JEmptyObject ]}
         (prologue srv tt ++
          [Sent (ReqCreate "trip" {[ "1" ]});
           Printed (CreationFailed "trip" 500 "Internal Server Error")])).
Proof.
  intros e0 srv a. split_and!.
  - apply (early_stops_by_cause srv (a (Some FileNotObject) None) tt). reflexivity.
  - destruct (early_stops_by_cause srv (a None (Some ["Library One"; "Nope"; "Neither"])) tt)
      as (_ & Hlib & _).
    apply (Hlib (mkLoaded None None None) ["Library One"] "Nope" ["Neither"]).
    + reflexivity.
    + reflexivity.
    + repeat constructor.
    + compute_done.
  - destruct (early_stops_by_cause srv (a None None) tt) as (_ & _ & Hloop & Hcreate & _).
    apply (Hloop (mkLoaded None None None) ["L1"] [] (mkBin "trip" {[ "1" ]} "/pics/trip")
             [mkBin "zoo" {[ "2" ]} "/pics/zoo"]
             (@mkWorld srv tt ∅ (prologue srv tt))).
    + reflexivity.
    + reflexivity.
    + compute_done.
    + reflexivity.
    + unfold reconcile_bin, layout. cbn [args.folder_layout a json_folder_layout].
      unfold bind at 1. unfold set_output at 1. cbn [remote json_output trace update_key].
      rewrite (Hcreate (run_album_names srv tt) (mkBin "trip" {[ "1" ]} "/pics/trip")
                 (@mkWorld srv tt (<["/pics/trip" := JEmptyObject]> ∅) (prologue srv tt)) e0 tt);
        [compute_done|reflexivity|reflexivity|by left].
Defined.

(** ** The base URL *)

Lemma append_assoc (x y z : string) : (x ++ y) ++ z = x ++ (y ++ z).
Proof.
  induction x as [|c x IH]; [done|].
  change (String c ((x ++ y) ++ z) = String c (x ++ (y ++ z))). by rewrite IH.
Qed.

Lemma endswith_refl s : endswith s s = true.
Proof. destruct s; cbn [endswith]; by rewrite String.eqb_refl. Qed.

Lemma endswith_app x suffix : endswith (x ++ suffix) suffix = true.
Proof.
  induction x as [|c x IH]; [apply endswith_refl|].
  change (String c x ++ suffix) with (String c (x ++ suffix)).
  cbn [endswith]. rewrite IH. apply orb_true_r.
Qed.

(** A string whose last character is not [c] has nothing to strip. *)
Lemma rstrip_keep c x d :
  Ascii.eqb d c = false → rstrip c (x ++ String d "") = x ++ String d "".
Proof.
  intros Hd. induction x as [|a x IH].
  - simpl. by rewrite Hd.
  - change (String a x ++ String d "") with (String a (x ++ String d "")).
    cbn [rstrip]. rewrite IH. by destruct x.
Qed.

Lemma endswith_last s suffix d :
  endswith s (suffix ++ String d "") = true → ∃ x, s = x ++ String d "".
Proof.
  induction s as [|a s IH]; cbn [endswith].
  - rewrite orb_false_r. intros Heq%String.eqb_eq. by destruct suffix.
  - intros [Heq|Hs]%orb_true_iff.
    + apply String.eqb_eq in Heq. rewrite Heq. by exists suffix.
    + destruct (IH Hs) as [x ->]. by exists (String a x).
Qed.

(** X9: The base URL ends with ["api"], has no trailing slash, and computing
    it is idempotent. *)
Theorem host_normal_form (args_host : string) :
  endswith (host args_host) "api" = true
  ∧ rstrip "/" (host args_host) = host args_host
  ∧ host (host args_host) = host args_host.
Proof.
  assert (endswith (host args_host) "api" = true) as Hends.
  { unfold host. destruct (endswith (rstrip "/" args_host) "api") eqn:He; [done|].
    change (rstrip "/" args_host ++ "/api") with (rstrip "/" args_host ++ ("/" ++ "api")).
    rewrite <- append_assoc. apply endswith_app. }
  assert (rstrip "/" (host args_host) = host args_host) as Hstrip.
  { destruct (endswith_last (host args_host) "ap" "i" Hends) as [x ->].
    by apply rstrip_keep. }
  split; [done|]. split; [done|].
  unfold host at 1. by rewrite Hstrip, Hends.
Qed.

(** ** Skip paths *)

Lemma parents_elem p q :
  q ∈ Pathlib.parents p ↔ ∃ n, (n < length (tail p))%nat ∧ q = mkPath (root p) (take n (tail p)).
Proof.
  unfold Pathlib.parents. rewrite list_elem_of_In, in_map_iff. split.
  - intros (idx & <- & Hidx%in_seq). exists (length (tail p) - idx - 1). split; [lia|done].
  - intros (n & Hn & ->). exists (length (tail p) - n - 1). split.
    + do 2 f_equal. lia.
    + apply in_seq. lia.
Qed.

(** X6: The folder of an asset is skipped exactly when it is an exact entry,
    or a recursive entry is a proper ancestor of it: same root, and the
    entry's components are a strictly shorter prefix of the folder's. A
    recursive entry does not skip its own folder. *)
Theorem skipped_iff (sp : SkipPaths) (path : Path) :
  (skipped sp path = true ↔
     path ∈ direct sp
     ∨ ∃ q n, q ∈ recursive sp ∧ (n < length (tail path))%nat
              ∧ q = mkPath (root path) (take n (tail path)))
  ∧ (path ∉ direct sp →
     (∀ q, q ∈ recursive sp → (length (tail path) ≤ length (tail q))%nat) →
     skipped sp path = false).
Proof.
  assert (skipped sp path = true ↔
            path ∈ direct sp
            ∨ ∃ q n, q ∈ recursive sp ∧ (n < length (tail path))%nat
                     ∧ q = mkPath (root path) (take n (tail path))) as Hiff.
  { split.
    - unfold skipped. intros [Hd%bool_decide_eq_true|Hr%negb_true_iff%bool_decide_eq_false]%orb_true_iff;
        [by left|right].
      destruct (List.filter _ _) as [|q l] eqn:Hf; [done|].
      assert (In q (List.filter (λ p, bool_decide (p ∈ recursive sp)) (Pathlib.parents path)))
        as [Hq Hrec%bool_decide_eq_true]%filter_In by (rewrite Hf; by left).
      apply list_elem_of_In, parents_elem in Hq as (n & Hn & ->). by eexists _, n.
    - intros [Hd|(q & n & Hq & Hn & ->)]; apply skipped_true; [by left|right].
      eexists. split; [|done]. apply parents_elem. by exists n. }
  split; [done|]. intros Hd Hlen.
  apply not_true_is_false. intros Hs.
  apply Hiff in Hs as [?|(q & n & Hq & Hn & ->)]; [done|].
  specialize (Hlen _ Hq). simpl in Hlen. rewrite length_take in Hlen. lia.
Qed.

(** X7: The split of [--skip-paths]: a path whose stem is ["*"] contributes
    its parent to the recursive list, any other path goes to the exact
    list, both in the order given. *)
Theorem skip_paths_split (a : args.t) :
  direct (skip_paths a)
  = List.filter (λ p, negb (String.eqb (Pathlib.stem p) "*")) (args.skip_paths a)
  ∧ recursive (skip_paths a)
    = List.map Pathlib.parent
        (List.filter (λ p, String.eqb (Pathlib.stem p) "*") (args.skip_paths a)).
Proof.
  unfold skip_paths. induction (args.skip_paths a) as [|p l IH] using rev_ind; [done|].
  rewrite fold_left_app, !List.filter_app, List.map_app. simpl.
  destruct IH as [IHd IHr].
  destruct (String.eqb (Pathlib.stem p) "*"); simpl.
  - by rewrite IHd, IHr, app_nil_r.
  - by rewrite IHd, IHr, app_nil_r.
Qed.

(** X5: The mapping key of a folder bin parses back to the folder. *)
Theorem folder_key_parses_back (y : Asset) :
  Pathlib.of_string (Pathlib.to_string (folder_of y)) = folder_of y.
Proof. apply of_string_to_string, folder_of_parsed. Qed.

(** ** The library filter *)

Lemma named_libraries_spec libraries items acc filter :
  named_libraries libraries items acc = inr filter →
  ∃ ids, filter = (acc ++ ids)%list
         ∧ Forall2 (λ item id,
                      ∃ l, List.find (λ l, String.eqb (library_name l) item) libraries = Some l
                           ∧ library_name l = item ∧ id = library_id l) items ids.
Proof.
  revert acc. induction items as [|item items IH]; intros acc; simpl.
  - intros [= <-]. exists []. by rewrite app_nil_r.
  - case_bool_decide as Hin; [|done].
    intros (ids & -> & Hall)%IH.
    apply list_elem_of_In, in_map_iff in Hin as (l0 & Hname & Hl0).
    destruct (List.find (λ l, String.eqb (library_name l) item) libraries) as [l|] eqn:Hfind.
    + exists (library_id l :: ids). rewrite <- app_assoc. split; [done|].
      constructor; [|done]. exists l. split; [done|]. split; [|done].
      apply find_some in Hfind as [_ Heq]. by apply String.eqb_eq in Heq.
    + exfalso. apply (find_none _ _ Hfind) in Hl0. rewrite Hname, String.eqb_refl in Hl0. done.
Qed.

(** X8: The library filter of a run that goes on: without [--library] the ids
    of all libraries; with it, one id per given name, in the order given,
    each the id of the first library carrying the name. *)
Theorem library_filter_ids (a : args.t) (libraries : list Library) (filter : list string) :
  library_filter a libraries = inr filter →
  match args.library a with
  | None => filter = List.map library_id libraries
  | Some items =>
      Forall2 (λ item id,
                 ∃ l, List.find (λ l, String.eqb (library_name l) item) libraries = Some l
                      ∧ library_name l = item ∧ id = library_id l) items filter
  end.
Proof.
  unfold library_filter. destruct (args.library a) as [items|]; [|by intros [= <-]].
  intros (ids & -> & Hall)%named_libraries_spec. done.
Qed.

Lemma library_filter_ids_witness :
  let a := args.mk None (Some ["Two"; "One"]) false [] false false in
  let libraries := [mkLibrary "L1" "One"; mkLibrary "L2" "Two"; mkLibrary "L3" "Two"] in
  library_filter a libraries = inr ["L2"; "L1"]
  ∧ Forall2 (λ item id,
               ∃ l, List.find (λ l, String.eqb (library_name l) item) libraries = Some l
                    ∧ library_name l = item ∧ id = library_id l) ["Two"; "One"] ["L2"; "L1"].
Proof.
  intros a libraries. split; [reflexivity|].
  apply (library_filter_ids a libraries ["L2"; "L1"]). reflexivity.
Defined.

(** ** What a completed run leaves *)

Section Entries.

Context (srv : Server) (a : args.t) (album_names album_ids : list string).

Lemma reconcile_bin_key_present layout b (w : World srv) :
  is_Some (json_output (reconcile_bin srv a album_names album_ids layout b w).2 !! update_key b).
Proof.
  assert (∀ w0 : World srv, is_Some (json_output w0 !! update_key b) →
            is_Some (json_output (create_album srv a album_names b w0).2 !! update_key b))
    as Hcreate.
  { intros w0 Hw0. unfold create_album. destruct (_ && _ && _); unfold_monad; simpl; [done|].
    destruct (POST_album srv _ _ _) as [[new_id|e] s']; simpl.
    - destruct (json_given a); simpl; [|done]. rewrite lookup_insert_eq. eauto.
    - by destruct (match body_message e with MsgStr _ => _ | MsgList _ => _ end). }
  unfold reconcile_bin. unfold bind at 1. unfold set_output at 1.
  set (w0 := mkWorld _ _ _).
  assert (is_Some (json_output w0 !! update_key b)) as Hw0.
  { subst w0. simpl. rewrite lookup_insert_eq. eauto. }
  destruct layout as [t|]; [|by apply Hcreate].
  destruct (t !! update_key b) as [[id|]|] eqn:Ht; [|by apply Hcreate..].
  destruct (decide (id ∈ album_ids)) as [Hid|Hid];
    [|rewrite bool_decide_eq_false_2 by done; by apply Hcreate].
  pose proof (reconcile_bin_bound srv a album_names album_ids t b id w Ht Hid) as Hb.
  unfold reconcile_bin in Hb. rewrite Ht in Hb. unfold bind at 1 in Hb.
  unfold set_output at 1 in Hb. fold w0 in Hb. rewrite Hb. eauto.
Qed.

Lemma for_each_entries layout (bs : list Bin) (w : World srv) :
  let w' := (for_each (reconcile_bin srv a album_names album_ids layout) bs w).2 in
  (∀ k, k ∉ update_key <$> bs → json_output w' !! k = json_output w !! k)
  ∧ ((for_each (reconcile_bin srv a album_names album_ids layout) bs w).1 = inr tt →
     ∀ k, is_Some (json_output w !! k) ∨ k ∈ update_key <$> bs → is_Some (json_output w' !! k)).
Proof.
  revert w. induction bs as [|b bs IH]; intros w; simpl.
  - split; [done|]. intros _ k [?|?%not_elem_of_nil]; done.
  - unfold bind.
    pose proof (reconcile_bin_key_present layout b w) as Hkey.
    pose proof (λ k, reconcile_bin_other_keys srv a album_names album_ids layout b w k) as Hother.
    destruct (reconcile_bin _ _ _ _ _ b w) as [[e|[]] w1]; simpl in *.
    + split; [|done]. intros k Hk. apply Hother. set_solver.
    + destruct (IH w1) as [IH1 IH2]. split.
      * intros k Hk. rewrite IH1 by set_solver. apply Hother. set_solver.
      * intros Hres k Hk. apply (IH2 Hres).
        destruct (decide (k = update_key b)) as [->|Hne]; [by left|].
        destruct Hk as [Hk|Hk]; [left; by rewrite Hother|right; set_solver].
Qed.

End Entries.

(** X16: The output mapping of a completed run has an entry for the key of
    every bin, and, for every other key, what the loaded table of the
    active layout mode had: entries of folders or libraries that produced
    no bin in this run are carried over. *)
Theorem output_entries
    (srv : Server) (a : args.t) (s : srv_state srv) (od : option document) (w : World srv) :
  main srv a s = (inr od, w) →
  (∀ b, b ∈ run_bins srv a s → is_Some (json_output w !! update_key b))
  ∧ (∀ k, k ∉ update_key <$> run_bins srv a s →
          json_output w !! k = default ∅ (run_layout a) !! k).
Proof.
  intros (l & filter & w1 & Hl & Hf & Hloop & -> & ->)%main_completed.
  unfold run_bins, run_layout. rewrite Hf, Hl. unfold run_loop in Hloop.
  destruct (for_each_entries srv a (run_album_names srv s) (run_album_ids srv s) (layout a l)
              (bins a (GET_library srv s) filter (GET_asset srv s))
              (mkWorld s (default ∅ (layout a l)) (prologue srv s))) as [Hother Hkeys].
  rewrite Hloop in Hother, Hkeys. simpl in *. split.
  - intros b Hb. apply (Hkeys eq_refl). right. by apply list_elem_of_fmap_2.
  - intros k Hk. by apply Hother.
Qed.

(** X17: What a completed run writes: nothing without [--json]; otherwise the
    loaded document, or an empty one when the file did not exist, with the
    table of the active layout mode set to the output mapping. *)
Theorem written_document
    (srv : Server) (a : args.t) (s : srv_state srv) (od : option document) (w : World srv) :
  main srv a s = (inr od, w) →
  od = match args.json a with
       | None => None
       | Some (FileDocument d) => Some (<[active_key a := json_output w]> d)
       | Some _ => Some {[ active_key a := json_output w ]}
       end.
Proof.
  intros (l & filter & w1 & Hl & _ & _ & -> & ->)%main_completed.
  unfold load_json in Hl. unfold save, json_given, active_key. simpl.
  destruct (args.json a) as [[| | | |d]|]; simplify_eq; simpl;
    destruct (args.folder_layout a); by rewrite ?insert_empty.
Qed.

Lemma bins_nil a libraries filter (assets : list Asset) :
  Forall (λ y, dropped filter (skip_paths a) y = true) assets →
  bins a libraries filter assets = [].
Proof.
  intros Hall. unfold bins, folder_assets, name_assets.
  assert (∀ {V} (f : Asset → list V → list V),
            fold_left (λ d y, if dropped filter (skip_paths a) y then d else f y d) assets []
            = []) as Hfold.
  { intros V f. revert Hall. induction assets as [|y assets IH] using rev_ind; [done|].
    intros [Hall Hy]%Forall_app. apply Forall_inv in Hy.
    rewrite fold_left_app. simpl. rewrite Hy. by apply IH. }
  destruct (args.folder_layout a).
  - by rewrite (Hfold _ (λ y d, setdefault_update (folder_of y) ∅ (λ s, s ∪ {[asset_id y]}) d)).
  - by rewrite (Hfold _ (λ y d, setdefault_update (libraryId y) (mkLibItems ∅ ∅)
                           (λ v, mkLibItems (paths v ∪ {[folder_of y]}) (ids v ∪ {[asset_id y]})) d)).
Qed.

(** X18: When every asset is outside the listed libraries or in a skipped
    folder, the run sends the three listing requests and nothing else,
    changes nothing on the server and keeps the loaded table. *)
Theorem nothing_to_reconcile
    (srv : Server) (a : args.t) (s : srv_state srv) (l : Loaded) (filter : list string) :
  load_json a = inr l →
  library_filter a (GET_library srv s) = inr filter →
  Forall (λ y, dropped filter (skip_paths a) y = true) (GET_asset srv s) →
  main srv a s
  = (inr (save a l (default ∅ (layout a l))),
     mkWorld s (default ∅ (layout a l)) (prologue srv s ++ [Printed Blank; Printed Done])).
Proof.
  intros Hl Hf Hall. rewrite main_unfold, Hl, Hf, (bins_nil _ _ _ _ Hall). done.
Qed.

Lemma output_entries_witness :
  let doc : document :=
    {[ "folder_layout" := {[ "/old/gone" := JStr "A9"; "/pics/trip" := JStr "A1" ]} ]} in
  let a := args.mk (Some (FileDocument doc)) None true [] false false in
  let s := Ideal.mkState [mkLibrary "L1" "Library One"] [mkAsset "1" "L1" "/pics/trip/a.jpg"]
             {[ "A1" := ("trip", ∅) ]} in
  (main Ideal.server a s).1 = inr (Some doc)
  ∧ is_Some (json_output (main Ideal.server a s).2 !! "/pics/trip")
  ∧ json_output (main Ideal.server a s).2 !! "/old/gone" = Some (JStr "A9").
Proof.
  intros doc a s.
  assert (main Ideal.server a s = (inr (Some doc), (main Ideal.server a s).2)) as Hmain
    by compute_done.
  destruct (output_entries Ideal.server a s (Some doc) _ Hmain) as [Hkeys Hother].
  split; [by rewrite Hmain|]. split.
  - apply (Hkeys (mkBin "trip" {[ "1" ]} "/pics/trip")). compute_done.
  - rewrite (Hother "/old/gone") by compute_done. compute_done.
Defined.

Lemma written_document_witness :
  let a := args.mk (Some FileMissing) None false [] false false in
  let s := Ideal.mkState [mkLibrary "L1" "Library One"] [mkAsset "1" "L1" "/pics/trip/a.jpg"] ∅ in
  let od := match (main Ideal.server a s).1 with inr od => od | inl _ => None end in
  List.filter is_create (trace (main Ideal.server a s).2)
  = [Sent (ReqCreate "Library One" {[ "1" ]})]
  ∧ od = Some {[ "name_layout" := json_output (main Ideal.server a s).2 ]}.
Proof.
  intros a s od. split; [compute_done|].
  apply (written_document Ideal.server a s od (main Ideal.server a s).2). compute_done.
Defined.

Lemma nothing_to_reconcile_witness :
  let a := args.mk None None true [mkPath "/" ["pics"; "trip"]] false false in
  let s := Ideal.mkState [mkLibrary "L1" "Library One"] [mkAsset "1" "L1" "/pics/trip/a.jpg"] ∅ in
  main Ideal.server a s
  = (inr None,
     @mkWorld Ideal.server s ∅ (prologue Ideal.server s ++ [Printed Blank; Printed Done])).
Proof.
  intros a s.
  apply (nothing_to_reconcile Ideal.server a s (mkLoaded None None None) ["L1"]).
  - reflexivity.
  - reflexivity.
  - compute_done.
Defined.

(** X2: The member set of a bin is exactly the ids of the assets of the list
    that pass the library filter and the skip tests and fall under the
    bin's key. *)
Theorem bin_members_exactly a libraries filter (assets : list Asset) (b : Bin) (i : string) :
  b ∈ bins a libraries filter assets →
  i ∈ asset_ids b ↔
  ∃ y, y ∈ assets ∧ asset_id y = i ∧ libraryId y ∈ filter
       ∧ skipped (skip_paths a) (folder_of y) = false ∧ key_of a y = update_key b.
Proof.
  intros Hb. split.
  - intros Hi. destruct (bins_origin _ _ _ _ _ Hb) as [_ Horigin].
    destruct (Horigin i Hi) as (y & Hy & Hid & Hdrop & Hkey).
    unfold dropped in Hdrop. apply orb_false_iff in Hdrop as [Hlib%negb_false_iff Hskip].
    exists y. split_and!; [done|done|by apply bool_decide_eq_true in Hlib|done|done].
  - intros (y & Hy & <- & Hlib & Hskip & Hkey).
    assert (dropped filter (skip_paths a) y = false) as Hdrop.
    { unfold dropped. by rewrite bool_decide_eq_true_2, Hskip. }
    assert (∃ b', b' ∈ bins a libraries filter assets ∧ update_key b' = key_of a y
                  ∧ asset_id y ∈ asset_ids b') as (b' & Hb' & Hkey' & Hin).
    { unfold bins, key_of. destruct (args.folder_layout a).
      - destruct (folder_assets_complete filter (skip_paths a) assets y Hy Hdrop) as (v & Hv & ?).
        exists (folder_bin (folder_of y, v)). split; [|done].
        apply list_elem_of_In, in_map, list_elem_of_In, Hv.
      - destruct (name_assets_complete filter (skip_paths a) assets y Hy Hdrop) as (v & Hv & ? & _).
        exists (library_bin libraries (libraryId y, v)). split; [|done].
        apply list_elem_of_In, in_map, list_elem_of_In, Hv. }
    assert (b' = b) as <-; [|done].
    eapply (NoDup_fmap_eq update_key); [apply bins_keys_NoDup|done..|congruence].
Qed.

Lemma bin_members_exactly_witness :
  let a := args.mk None None true [mkPath "/" ["pics"; "zoo"]] false false in
  let assets := [mkAsset "1" "L1" "/pics/trip/a.jpg"; mkAsset "2" "L2" "/pics/trip/b.jpg";
                 mkAsset "3" "L1" "/pics/zoo/c.jpg"; mkAsset "4" "L1" "/pics/trip/d.jpg"] in
  bins a [] ["L1"] assets = [mkBin "trip" {[ "1"; "4" ]} "/pics/trip"]
  ∧ "4" ∈ asset_ids (mkBin "trip" {[ "1"; "4" ]} "/pics/trip").
Proof.
  intros a assets. split; [compute_done|].
  apply (bin_members_exactly a [] ["L1"] assets (mkBin "trip" {[ "1"; "4" ]} "/pics/trip") "4").
  - compute_done.
  - exists (mkAsset "4" "L1" "/pics/trip/d.jpg"). split_and!; compute_done.
Defined.

(** ** The duplicate guard across runs *)

Lemma ideal_album_names (s : Ideal.state) name :
  name ∈ run_album_names Ideal.server s ↔ ∃ id ms, Ideal.albums s !! id = Some (name, ms).
Proof.
  unfold run_album_names. simpl. unfold Ideal.album_list.
  rewrite <- list_fmap_compose. rewrite list_elem_of_fmap. split.
  - intros ([k [n ms]] & -> & Hin). apply elem_of_map_to_list in Hin. simpl. eauto.
  - intros (id & ms & Hs). exists (id, (name, ms)). split; [done|]. by apply elem_of_map_to_list.
Qed.

Section Guard.

Context (a : args.t) (names : list string) (ids : list string).
Hypothesis Hjson : args.json a = None.
Hypothesis Hskip : args.skip_existing a = true.

Implicit Types (s : Ideal.state) (b : Bin) (out : gmap string jvalue).

(** Without persistence a bin is skipped when its label is listed, and
    gets a new album otherwise; either way an album with its label exists
    afterwards. *)
Lemma guard_step b s out tr :
  (∀ n, n ∈ names → n ∈ run_album_names Ideal.server s) →
  ∃ s' tr',
    reconcile_bin Ideal.server a names ids None b (@mkWorld Ideal.server s out tr)
    = (inr tt, @mkWorld Ideal.server s' (<[update_key b := JEmptyObject]> out) tr')
    ∧ Ideal.albums s ⊆ Ideal.albums s'
    ∧ Ideal.libraries s' = Ideal.libraries s ∧ Ideal.assets s' = Ideal.assets s
    ∧ album_name b ∈ run_album_names Ideal.server s'.
Proof.
  intros Hnames. unfold reconcile_bin, create_album, json_given. rewrite Hjson, Hskip. simpl.
  unfold bind at 1. unfold set_output at 1. cbn [remote json_output trace].
  destruct (decide (album_name b ∈ names)) as [Hin|Hin].
  - rewrite bool_decide_eq_true_2 by done. unfold print, emit. cbn [remote json_output trace].
    eexists s, _. split; [done|]. split_and!; [done|done|done|by apply Hnames].
  - rewrite bool_decide_eq_false_2 by done. unfold_monad. simpl.
    eexists _, _. split; [done|]. simpl.
    assert (Ideal.albums s !! fresh (dom (Ideal.albums s)) = None) as Hfresh.
    { apply not_elem_of_dom, is_fresh. }
    split_and!; [by apply insert_subseteq|done|done|].
    apply ideal_album_names. eexists _, _. simpl. apply lookup_insert_eq.
Qed.

Lemma names_mono s s' :
  Ideal.albums s ⊆ Ideal.albums s' →
  ∀ n, n ∈ run_album_names Ideal.server s → n ∈ run_album_names Ideal.server s'.
Proof.
  intros Hsub n (id & ms & Hn)%ideal_album_names. apply ideal_album_names.
  exists id, ms. by eapply lookup_weaken.
Qed.

Lemma guard_first_loop (bs : list Bin) s out tr :
  (∀ n, n ∈ names → n ∈ run_album_names Ideal.server s) →
  ∃ s' out' tr',
    for_each (reconcile_bin Ideal.server a names ids None) bs (@mkWorld Ideal.server s out tr)
    = (inr tt, @mkWorld Ideal.server s' out' tr')
    ∧ Ideal.albums s ⊆ Ideal.albums s'
    ∧ Ideal.libraries s' = Ideal.libraries s ∧ Ideal.assets s' = Ideal.assets s
    ∧ ∀ b, b ∈ bs → album_name b ∈ run_album_names Ideal.server s'.
Proof.
  revert s out tr. induction bs as [|b bs IH]; intros s out tr Hnames; simpl.
  - unfold ret. eexists _, _, _. split; [done|]. split_and!; [done..|].
    by intros b ?%not_elem_of_nil.
  - destruct (guard_step b s out tr Hnames) as (s1 & tr1 & Hstep & Hsub1 & Hl1 & Ha1 & Hb).
    destruct (IH s1 (<[update_key b := JEmptyObject]> out) tr1)
      as (s' & out' & tr' & Hrest & Hsub & Hl & Ha & Hall).
    { intros n Hn. by apply (names_mono s s1), Hnames. }
    unfold bind. rewrite Hstep, Hrest. eexists _, _, _. split; [done|].
    split_and!; [by etrans|congruence|congruence|].
    intros b' [->|Hb']%elem_of_cons; [by apply (names_mono s1 s')|by apply Hall].
Qed.

(** When every label is listed, every bin is skipped. *)
Lemma guard_second_loop (bs : list Bin) s out tr :
  (∀ b, b ∈ bs → album_name b ∈ names) →
  ∃ out',
    for_each (reconcile_bin Ideal.server a names ids None) bs (@mkWorld Ideal.server s out tr)
    = (inr tt, @mkWorld Ideal.server s out'
                 (tr ++ List.map (λ b, Printed (AlreadyExistsSkipping (album_name b))) bs)).
Proof.
  revert out tr. induction bs as [|b bs IH]; intros out tr Hall; simpl.
  - unfold ret. exists out. by rewrite app_nil_r.
  - assert (reconcile_bin Ideal.server a names ids None b (@mkWorld Ideal.server s out tr)
            = (inr tt, @mkWorld Ideal.server s (<[update_key b := JEmptyObject]> out)
                         (tr ++ [Printed (AlreadyExistsSkipping (album_name b))]))) as Hstep.
    { unfold reconcile_bin, create_album, json_given. rewrite Hjson, Hskip. simpl.
      by rewrite bool_decide_eq_true_2 by (apply Hall; left). }
    unfold bind. rewrite Hstep.
    destruct (IH (<[update_key b := JEmptyObject]> out)
                 (tr ++ [Printed (AlreadyExistsSkipping (album_name b))])%list)
      as (out' & Hrest).
    { intros b' Hb'. apply Hall. by right. }
    exists out'. rewrite Hrest. by rewrite <- app_assoc.
Qed.

End Guard.

(** X20: The duplicate guard across runs, on the reference service: with
    [--skip-existing] and without [--json], the run that follows a
    completed run creates nothing. It skips every bin by its label, sends
    only the three listing requests and leaves the server as it was. *)
Theorem skip_existing_second_run_skips_all
    (a : args.t) (s0 : Ideal.state) (od1 : option document) (w1 : World Ideal.server) :
  args.json a = None →
  args.skip_existing a = true →
  main Ideal.server a s0 = (inr od1, w1) →
  (main Ideal.server a (remote w1)).1 = inr None
  ∧ remote (main Ideal.server a (remote w1)).2 = remote w1
  ∧ trace (main Ideal.server a (remote w1)).2
    = (prologue Ideal.server (remote w1)
       ++ List.map (λ b, Printed (AlreadyExistsSkipping (album_name b)))
                   (run_bins Ideal.server a s0)
       ++ [Printed Blank; Printed Done])%list.
Proof.
  intros Hjson Hskip (l & filter & w1' & Hl & Hf & Hloop & -> & ->)%main_completed.
  assert (l = mkLoaded None None None) as ->.
  { unfold load_json in Hl. rewrite Hjson in Hl. by injection Hl. }
  assert (layout a (mkLoaded None None None) = None) as Hlay.
  { unfold layout. by destruct (args.folder_layout a). }
  unfold run_loop in Hloop. rewrite Hlay in Hloop. simpl default in Hloop.
  set (bs := bins a (GET_library Ideal.server s0) filter (GET_asset Ideal.server s0)) in *.
  destruct (guard_first_loop a (run_album_names Ideal.server s0) (run_album_ids Ideal.server s0)
              Hjson Hskip bs s0 ∅ (prologue Ideal.server s0))
    as (s' & out' & tr' & Hrun1 & Hsub & Hlibs & Hassets & Hnames); [done|].
  rewrite Hrun1 in Hloop. injection Hloop as <-. cbn [remote].
  destruct (guard_second_loop a (run_album_names Ideal.server s') (run_album_ids Ideal.server s')
              Hjson Hskip bs s' ∅ (prologue Ideal.server s') Hnames) as (out2 & Hrun2).
  rewrite main_unfold, Hl.
  change (GET_library Ideal.server s') with (Ideal.libraries s').
  change (GET_asset Ideal.server s') with (Ideal.assets s').
  rewrite Hlibs, Hassets.
  change (Ideal.libraries s0) with (GET_library Ideal.server s0).
  change (Ideal.assets s0) with (GET_asset Ideal.server s0).
  rewrite Hf. fold bs. unfold run_loop. rewrite Hlay. simpl default. rewrite Hrun2.
  cbn [fst snd remote trace json_output].
  split_and!.
  - unfold save, json_given. by rewrite Hjson.
  - done.
  - unfold run_bins. rewrite Hf. fold bs. by rewrite <- app_assoc.
Qed.

Lemma skip_existing_second_run_skips_all_witness :
  let a := args.mk None None true [] false true in
  let s0 := Ideal.mkState [mkLibrary "L1" "Library One"]
              [mkAsset "1" "L1" "/pics/trip/a.jpg"; mkAsset "2" "L1" "/more/trip/b.jpg"] ∅ in
  let w1 := (main Ideal.server a s0).2 in
  List.filter is_create (trace w1)
  = [Sent (ReqCreate "trip" {[ "1" ]}); Sent (ReqCreate "trip" {[ "2" ]})]
  ∧ remote (main Ideal.server a (remote w1)).2 = remote w1
  ∧ List.filter is_create (trace (main Ideal.server a (remote w1)).2) = [].
Proof.
  intros a s0 w1. split; [compute_done|].
  destruct (skip_existing_second_run_skips_all a s0 None w1) as (_ & Hremote & Htrace).
  - reflexivity.
  - reflexivity.
  - compute_done.
  - split; [exact Hremote|]. rewrite Htrace. compute_done.
Defined.

(** ** How much a run sends *)

Section Counting.

Context {srv : Server} (f : event → bool).

Lemma at_most_silent {A} (m : M srv A) n :
  (∀ w, trace (m w).2 = trace w) → emits_at_most f n m.
Proof. intros Hm w. exists []. rewrite Hm, app_nil_r. split; [done|simpl; lia]. Qed.

Lemma at_most_mono {A} (m : M srv A) n n' :
  (n ≤ n')%nat → emits_at_most f n m → emits_at_most f n' m.
Proof. intros Hn Hm w. destruct (Hm w) as (evs & ? & ?). exists evs. split; [done|lia]. Qed.

Lemma at_most_emit e : emits_at_most f (if f e then 1 else 0) (emit (srv:=srv) e).
Proof. intros w. exists [e]. split; [done|]. simpl. by destruct (f e). Qed.

Lemma at_most_print l : f (Printed l) = false → emits_at_most f 0 (print (srv:=srv) l).
Proof. intros Hl. unfold print. pose proof (at_most_emit (Printed l)) as H. by rewrite Hl in H. Qed.

Lemma at_most_call {A} r (op : srv_state srv → response A * srv_state srv) n :
  ((if f (Sent r) then 1 else 0) ≤ n)%nat → emits_at_most f n (call r op).
Proof.
  intros Hn w. exists [Sent r]. unfold call. destruct (op (remote w)). split; [done|].
  simpl. by destruct (f (Sent r)).
Qed.

Lemma at_most_bind {A B} (m : M srv A) (k : A → M srv B) n1 n2 :
  emits_at_most f n1 m → (∀ x, emits_at_most f n2 (k x)) → emits_at_most f (n1 + n2)%nat (bind m k).
Proof.
  intros Hm Hk w. unfold bind. destruct (Hm w) as (evs1 & Htr1 & Hevs1).
  destruct (m w) as [[e|x] w1]; simpl in *; [exists evs1; split; [done|lia]|].
  destruct (Hk x w1) as (evs2 & Htr2 & Hevs2).
  exists (evs1 ++ evs2)%list. rewrite Htr2, Htr1, app_assoc. split; [done|].
  rewrite List.filter_app, length_app. lia.
Qed.

Lemma at_most_for_each {A} (body : A → M srv unit) (l : list A) n :
  (∀ x, emits_at_most f n (body x)) → emits_at_most f (n * length l)%nat (for_each body l).
Proof.
  intros Hb. induction l as [|x l IH]; simpl; [by apply at_most_silent|].
  eapply at_most_mono; [|apply at_most_bind; [apply Hb|intros _; apply IH]]. lia.
Qed.

End Counting.

Section BinCounting.

Context (srv : Server) (a : args.t) (album_names album_ids : list string) (f : event → bool).
Context (n_create n_add n_fetch n_remove : nat).
Hypothesis Hprint : ∀ l, f (Printed l) = false.
Hypothesis Hcreate : ∀ name ids, ((if f (Sent (ReqCreate name ids)) then 1 else 0) ≤ n_create)%nat.
Hypothesis Hadd : ∀ id ids, ((if f (Sent (ReqAdd id ids)) then 1 else 0) ≤ n_add)%nat.
Hypothesis Hfetch : ∀ id, ((if f (Sent (ReqFetch id)) then 1 else 0) ≤ n_fetch)%nat.
Hypothesis Hremove : ∀ id ids, ((if f (Sent (ReqRemove id ids)) then 1 else 0) ≤ n_remove)%nat.

Lemma at_most_report {A} (l : line) (r : exn + A) (k : A → line) :
  emits_at_most f 0 (bind (print (srv:=srv) l) (λ _, bind (lift r) (λ x, print (k x)))).
Proof.
  change 0 with (0 + (0 + 0))%nat. apply at_most_bind; [by apply at_most_print|]. intros _.
  apply at_most_bind; [by apply at_most_silent|]. intros m. by apply at_most_print.
Qed.

Lemma create_album_at_most b : emits_at_most f n_create (create_album srv a album_names b).
Proof.
  unfold create_album. destruct (_ && _ && _).
  { eapply at_most_mono; [|by apply at_most_print]. lia. }
  replace n_create with (n_create + 0)%nat by lia.
  apply at_most_bind; [by apply at_most_call|]. intros [new_id|e].
  - change 0 with (0 + 0)%nat. apply at_most_bind; [by apply at_most_print|]. intros _.
    destruct (json_given a); by apply at_most_silent.
  - apply at_most_report.
Qed.

Lemma update_album_at_most b id : emits_at_most f n_add (update_album srv a album_ids b id).
Proof.
  unfold update_album. destruct (_ && _).
  { eapply at_most_mono; [|by apply at_most_print]. lia. }
  replace n_add with (n_add + 0)%nat by lia.
  apply at_most_bind; [by apply at_most_call|]. intros [results|e].
  - simpl. destruct (_ =? _)%nat; by apply at_most_print.
  - apply at_most_report.
Qed.

Lemma clean_album_at_most b id : emits_at_most f (n_fetch + n_remove)%nat (clean_album srv b id).
Proof.
  unfold clean_album.
  apply at_most_bind; [by apply at_most_call|]. intros [current|e].
  - replace n_remove with (n_remove + 0)%nat by lia.
    apply at_most_bind; [by apply at_most_call|].
    intros [results|?]; [|by apply at_most_silent].
    simpl. destruct (negb _); [by apply at_most_print|by apply at_most_silent].
  - eapply at_most_mono; [|change 0 with (0 + 0)%nat; apply at_most_bind;
                           [by apply at_most_print|intros _; by apply at_most_print]]. lia.
Qed.

Lemma reconcile_bin_at_most layout b :
  emits_at_most f (Nat.max n_create (n_fetch + n_remove + n_add)%nat)
    (reconcile_bin srv a album_names album_ids layout b).
Proof.
  assert (emits_at_most f (Nat.max n_create (n_fetch + n_remove + n_add)%nat)
            (bind (set_output (update_key b) JEmptyObject)
                  (λ _, create_album srv a album_names b))) as Hunbound.
  { eapply at_most_mono with (n := (0 + n_create)%nat); [lia|].
    apply at_most_bind; [by apply at_most_silent|]. intros _. apply create_album_at_most. }
  unfold reconcile_bin.
  destruct layout as [t|]; [|done].
  destruct (t !! update_key b) as [[id|]|]; [|done..].
  destruct (bool_decide (id ∈ album_ids)); [|done].
  eapply at_most_mono with (n := (0 + ((n_fetch + n_remove) + (0 + n_add)))%nat); [lia|].
  apply at_most_bind; [by apply at_most_silent|]. intros _.
  apply at_most_bind.
  { destruct (args.clean_update a); [apply clean_album_at_most|by apply at_most_silent]. }
  intros _. apply at_most_bind; [by apply at_most_silent|]. intros _.
  apply update_album_at_most.
Qed.

End BinCounting.

Lemma main_at_most (srv : Server) (a : args.t) (f : event → bool)
    (n_create n_add n_fetch n_remove : nat) (s : srv_state srv) n :
  (∀ l, f (Printed l) = false) →
  (∀ name ids, ((if f (Sent (ReqCreate name ids)) then 1 else 0) ≤ n_create)%nat) →
  (∀ id ids, ((if f (Sent (ReqAdd id ids)) then 1 else 0) ≤ n_add)%nat) →
  (∀ id, ((if f (Sent (ReqFetch id)) then 1 else 0) ≤ n_fetch)%nat) →
  (∀ id ids, ((if f (Sent (ReqRemove id ids)) then 1 else 0) ≤ n_remove)%nat) →
  (length (List.filter f (prologue srv s)) ≤ n)%nat →
  (length (List.filter f (trace (main srv a s).2))
   ≤ n + Nat.max n_create (n_fetch + n_remove + n_add) * length (run_bins srv a s))%nat.
Proof.
  intros Hprint Hcreate Hadd Hfetch Hremove Hpro. rewrite main_unfold. unfold run_bins.
  destruct (load_json a) as [e|l]; [simpl; apply Nat.le_0_l|].
  destruct (library_filter a (GET_library srv s)) as [item|filter].
  { cbn [snd trace]. etrans; [|by apply Nat.le_add_r]. etrans; [|exact Hpro].
    unfold prologue. simpl. rewrite !Hprint.
    destruct (f (Sent ReqLibraries)), (f (Sent ReqAlbums)), (f (Sent ReqAssets)); simpl; lia. }
  unfold run_loop.
  match goal with
  | |- context [for_each (reconcile_bin _ _ ?ns ?ids0 ?lay) ?bs ?w] =>
      destruct (at_most_for_each f (reconcile_bin srv a ns ids0 lay) bs _
                  (reconcile_bin_at_most srv a ns ids0 f n_create n_add n_fetch n_remove
                     Hprint Hcreate Hadd Hfetch Hremove lay) w) as (evs & Htr & Hevs);
      destruct (for_each (reconcile_bin srv a ns ids0 lay) bs w) as [[e|[]] w1]
  end; cbn [fst snd trace] in *; rewrite Htr.
  - rewrite List.filter_app, length_app. by apply Nat.add_le_mono.
  - assert (List.filter f [Printed Blank; Printed Done] = []) as Htail
      by (simpl; by rewrite !Hprint).
    rewrite !List.filter_app, !length_app, Htail. cbn [length].
    rewrite Nat.add_0_r. by apply Nat.add_le_mono.
Qed.

(** X14: A run sends at most three requests per bin on top of the three
    listing requests, and at most one create request per bin. *)
Theorem requests_per_bin (srv : Server) (a : args.t) (s : srv_state srv) :
  (length (List.filter is_sent (trace (main srv a s).2)) ≤ 3 + 3 * length (run_bins srv a s))%nat
  ∧ (length (List.filter is_create (trace (main srv a s).2)) ≤ length (run_bins srv a s))%nat.
Proof.
  split.
  - apply (main_at_most srv a is_sent 1 1 1 1 s 3); try done; simpl; lia.
  - etrans; [apply (main_at_most srv a is_create 1 0 0 0 s 0); try done; simpl; lia|].
    simpl. lia.
Qed.
